(** * webserver-base: directory-driven router composition and reverse proxy

    A shallow embedding of the source files of the repository:

    - [managers/DatabaseManager.js]              (module [DatabaseManager]),
    - the route file of the reverse proxy         (module [ProxyRoute]),
    - [managers/ServerManager.js], which follows
      the bootstrap script in [app.js]            (module [ServerManager]).

    How the JavaScript is read:

    - values have the types of the JSDoc typedefs of the source
      ([RouteObject], [RouteMethodsObject]); a priority is a number that
      holds an integer, and arithmetic on it rounds as a double does;
    - code that can throw runs in a state / trace / exception monad, so
      that [try]/[catch], the order of the log lines and the writes to
      shared module objects are written as the source has them;
    - a middleware module is one object in [require.cache], shared by
      every array that holds it; the object literal made for an inline
      function is held by value;
    - the file system is a tree per directory path, in [readdirSync]
      order, and a file carries what [require] of it does;
    - [randomstring.generate], the directory-name pattern of
      [#loadVhosts], [meta.json] and [path.isAbsolute] are parameters;
    - [Array.prototype.sort] is stable (the source uses private fields and
      optional chaining, so its engine is past ES2019). *)

From Stdlib Require Import ZArith String Ascii List Lia.
From stdpp Require Import gmap strings list pretty sorting.

Open Scope string_scope.
Open Scope list_scope.
Open Scope stdpp_scope.

(** ** JavaScript errors and the effect monad *)

Record JsError := MkError {
  err_name : string;      (* "TypeError", "Error", ... *)
  err_message : string;
  err_stack : string
}.

(** [`${e}`] *)
Definition err_toString (e : JsError) : string :=
  err_name e +:+ ": " +:+ err_message e.

Definition TypeError (msg : string) : JsError := MkError "TypeError" msg "".
Definition Error (msg : string) : JsError := MkError "Error" msg "".

Inductive Result (A : Type) : Type :=
| Ok (a : A)
| Throw (e : JsError).
Arguments Ok {A} a.
Arguments Throw {A} e.

(** A computation reads and updates a state [S], appends events [E] to a
    trace, and either returns or throws.  State and trace survive a throw. *)
Definition M (S E A : Type) : Type := S -> S * list E * Result A.

Section Monad.
Context {S E : Type}.

Definition ret {A} (a : A) : M S E A := fun s => (s, [], Ok a).

Definition throw {A} (e : JsError) : M S E A := fun s => (s, [], Throw e).

Definition bind {A B} (m : M S E A) (k : A -> M S E B) : M S E B :=
  fun s =>
    match m s with
    | (s1, t1, Ok a) =>
        match k a s1 with (s2, t2, r) => (s2, t1 ++ t2, r) end
    | (s1, t1, Throw e) => (s1, t1, Throw e)
    end.

(** [try { m } catch (e) { h e }] *)
Definition try_catch {A} (m : M S E A) (h : JsError -> M S E A) : M S E A :=
  fun s =>
    match m s with
    | (s1, t1, Ok a) => (s1, t1, Ok a)
    | (s1, t1, Throw e) =>
        match h e s1 with (s2, t2, r) => (s2, t1 ++ t2, r) end
    end.

Definition emit (e : E) : M S E unit := fun s => (s, [e], Ok tt).
Definition get : M S E S := fun s => (s, [], Ok s).
Definition put (s : S) : M S E unit := fun _ => (s, [], Ok tt).
Definition modify (f : S -> S) : M S E unit := fun s => (f s, [], Ok tt).

(** [for (const x of l) body(x)] *)
Fixpoint for_of {A} (l : list A) (body : A -> M S E unit) : M S E unit :=
  match l with
  | [] => ret tt
  | x :: l' => bind (body x) (fun _ => for_of l' body)
  end.
End Monad.

Global Instance M_ret {S E} : MRet (M S E) := fun A a => ret a.
Global Instance M_bind {S E} : MBind (M S E) := fun A B k m => bind m k.

(** Projections of a finished run. *)
Definition run_state {S E A} (r : S * list E * Result A) : S := r.1.1.
Definition run_trace {S E A} (r : S * list E * Result A) : list E := r.1.2.
Definition run_result {S E A} (r : S * list E * Result A) : Result A := r.2.

(** ** JavaScript strings

    [String.prototype.replace] with a string pattern, and the helpers the
    source takes from [String.prototype] and [path]. *)
Module JsString.

(** [s.slice(n)] *)
Fixpoint drop (n : nat) (s : string) : string :=
  match n, s with
  | O, _ => s
  | Datatypes.S n', String _ s' => drop n' s'
  | Datatypes.S _, EmptyString => EmptyString
  end.

(** The text before and after the leftmost occurrence of [pat] in [s]
    ([s.indexOf(pat)] and the two slices around it), if there is one. *)
Fixpoint splitAtFirst (pat s : string) : option (string * string) :=
  if String.prefix pat s then Some ("", drop (String.length pat) s)
  else match s with
       | EmptyString => None
       | String c s' =>
           match splitAtFirst pat s' with
           | Some (before, after) => Some (String c before, after)
           | None => None
           end
       end.

(** [s.includes(pat)], as a proposition. *)
Definition occurs (pat s : string) : Prop :=
  exists before after, s = before +:+ pat +:+ after.

(** ECMAScript [GetSubstitution] for a string pattern: there are no
    captures, so only [$$], [$&], [$`] and [$'] are special in the
    replacement text; any other [$] stands for itself. *)
Fixpoint getSubstitution (matched before after template : string) : string :=
  match template with
  | EmptyString => EmptyString
  | String c t =>
      if Ascii.eqb c "$" then
        match t with
        | EmptyString => String c EmptyString
        | String d t' =>
            if Ascii.eqb d "$" then
              String "$" (getSubstitution matched before after t')
            else if Ascii.eqb d "&" then
              matched +:+ getSubstitution matched before after t'
            else if Ascii.eqb d "`" then
              before +:+ getSubstitution matched before after t'
            else if Ascii.eqb d "'" then
              after +:+ getSubstitution matched before after t'
            else String c (getSubstitution matched before after t)
        end
      else String c (getSubstitution matched before after t)
  end.

(** [s.replace(pat, replacement)] where [pat] is a string: only the
    leftmost occurrence is substituted. *)
Definition replace (s pat replacement : string) : string :=
  match splitAtFirst pat s with
  | None => s
  | Some (before, after) =>
      before +:+ getSubstitution pat before after replacement +:+ after
  end.

(** No [$] in a replacement text. *)
Fixpoint plain (s : string) : bool :=
  match s with
  | EmptyString => true
  | String c s' => negb (Ascii.eqb c "$") && plain s'
  end.

Fixpoint hasDot (s : string) : bool :=
  match s with
  | EmptyString => false
  | String c s' => Ascii.eqb c "." || hasDot s'
  end.

(** [filepath.split(".").pop()]: the text after the last dot, or the
    whole string when it has no dot. *)
Fixpoint afterLastDot (s : string) : string :=
  match s with
  | EmptyString => EmptyString
  | String c s' =>
      if hasDot s' then afterLastDot s'
      else if Ascii.eqb c "." then s' else s
  end.

(** [path.join(a, b)] for an already normalised directory [a] and a
    single segment [b]. *)
Definition join (a b : string) : string := a +:+ "/" +:+ b.
End JsString.

(** ** JavaScript numbers that hold integers

    A priority is a double whose value is an integer, written here as
    that integer.  Reading, comparing and sorting such numbers is exact;
    an arithmetic result is the exact integer rounded to the nearest
    double, ties to the even significand. *)
Module JsNumber.

(** [Number.MAX_SAFE_INTEGER], 2^53 - 1. *)
Definition maxSafeInteger : Z := 9007199254740991.

(** [Number.isSafeInteger(x)] *)
Definition safeInteger (x : Z) : Prop :=
  (- maxSafeInteger <= x <= maxSafeInteger)%Z.

(** The double nearest to the integer [x].  Up to 2^53 in magnitude
    every integer is a double; above, the doubles are the multiples of
    the unit in the last place, 2^(e-52) for a magnitude in
    [2^e, 2^(e+1)). *)
Definition toDouble (x : Z) : Z :=
  let m := Z.abs x in
  if (m <=? 2 ^ 53)%Z then x
  else
    let ulp := (2 ^ (Z.log2 m - 52))%Z in
    let q := (m / ulp)%Z in
    let r := (m mod ulp)%Z in
    let q' :=
      if (2 * r <? ulp)%Z then q
      else if (ulp <? 2 * r)%Z then (q + 1)%Z
      else if Z.even q then q else (q + 1)%Z in
    (Z.sgn x * (q' * ulp))%Z.

(** [x--] leaves [x - 1] in [x]; one below a finite double never
    overflows. *)
Definition decrement (x : Z) : Z := toDouble (x - 1).
End JsNumber.

(** ** managers/DatabaseManager.js *)
Module DatabaseManager.

(** A row of the [mappings] table read by the proxy route. *)
Record Row := MkRow { hostname : string; localhost : string }.

(** An open [better-sqlite3] handle: the file it was opened on and the
    rows of the table the repository queries. *)
Record Connection := MkConnection {
  db_file : string;
  mappings : list Row
}.

(** The static private fields [#ready] and [#path], and what the driver
    does with a file name: it gives a handle on the rows of the file, or
    throws (the file cannot be opened or created). *)
Record World := MkWorld {
  ready : bool;
  path : option string;
  disk : string -> Result (list Row)
}.

(** What can be observed of a run: the handle being opened and closed,
    and whatever the caller's function does in between. *)
Inductive Event (U : Type) : Type :=
| Opened (file : string)
| Closed (file : string)
| User (u : U).
Arguments Opened {U} file.
Arguments Closed {U} file.
Arguments User {U} u.

Section Operation.
Context {U A : Type}.

(** [require("better-sqlite3")(DatabaseManager.#path)]: the handle, or
    the error of the driver. *)
Definition connect (p : option string) : M World (Event U) Connection :=
  w ← get;
  let file := default "" p in
  match disk w file with
  | Throw e => throw e
  | Ok rows =>
      emit (Opened file);;
      mret (MkConnection file rows)
  end.

(** [db.close()] *)
Definition close (db : Connection) : M World (Event U) unit :=
  emit (Closed (db_file db)).

(** [static operation(f)] *)
Definition operation (f : Connection -> M World (Event U) A)
  : M World (Event U) A :=
  w ← get;
  (* ensure handler is set up *)
  if negb (ready w)
  then throw (Error "the database handler has not been initialised")
  else
    (* load db *)
    db ← connect (path w);
    (* attempt function *)
    output ← try_catch (f db) (fun e => close db;; throw e);
    close db;;
    mret output.
End Operation.

(** What the driver gives [operation] in world [w]: the handle on the
    file of [#path], or its error. *)
Definition handle (w : World) : Result Connection :=
  let file := default "" (path w) in
  match disk w file with
  | Throw e => Throw e
  | Ok rows => Ok (MkConnection file rows)
  end.

(** [#tableDefinitions] *)
Definition tableDefinitions : list string := [].

(** [static init(dbPath)]; an absent or empty [dbPath] is falsy. *)
Definition init {U} (exec : string -> U) (dbPath : option string)
  : M World (Event U) unit :=
  match dbPath with
  | None | Some "" => throw (Error "no database path provided")
  | Some p =>
      modify (fun w => MkWorld (ready w) (Some p) (disk w));;
      modify (fun w => MkWorld true (path w) (disk w));;
      operation (fun db =>
        for_of tableDefinitions (fun x =>
          emit (User (exec ("CREATE TABLE IF NOT EXISTS " +:+ x)))))
  end.
End DatabaseManager.

(** ** The reverse-proxy route file *)
Module ProxyRoute.
Import DatabaseManager.

(** A response header value: a string, or one of the other shapes Node
    gives header values (a number, a list of strings). *)
Inductive HeaderValue :=
| HString (s : string)
| HNumber (n : Z)
| HArray (l : list string).

(** What the decorator does to one value. *)
Definition rewriteValue (localname hostname : string) (v : HeaderValue)
  : HeaderValue :=
  match v with
  | HString s => HString (JsString.replace s localname hostname)
  | _ => v
  end.

(** [headers[x] = headers[x].replace(localname, hostname)] when
    [headers[x]] is a string. *)
Definition rewriteHeader (localname hostname : string)
    (headers : gmap string HeaderValue) (x : string)
  : gmap string HeaderValue :=
  match headers !! x with
  | Some (HString v) =>
      <[x := HString (JsString.replace v localname hostname)]> headers
  | _ => headers
  end.

(** [Object.keys(headers)] *)
Definition keys (headers : gmap string HeaderValue) : list string :=
  (map_to_list headers).*1.

(** [userResHeaderDecorator]: visit every key, rewrite, return the same
    object. *)
Definition userResHeaderDecorator (localname hostname : string)
    (headers : gmap string HeaderValue) : gmap string HeaderValue :=
  foldl (rewriteHeader localname hostname) headers (keys headers).

(** What the middleware does besides the database access: it calls
    [next()], or hands the request to [proxy(localname, options)] with
    the header decorator among the options.  The file calls [proxy]
    without importing it; it is read as the factory of
    [express-http-proxy], whose option [userResHeaderDecorator] this
    is. *)
Inductive Call :=
| Next
| Proxy (target : string)
        (decorator : gmap string HeaderValue -> gmap string HeaderValue).

(** [db.prepare("SELECT localhost FROM mappings WHERE hostname = ?").get(hostname)] *)
Definition selectLocalhost (db : Connection) (host : string) : option Row :=
  List.find (fun r => bool_decide (hostname r = host)) (mappings db).

(** [module.exports.use[0]], applied to a request with [req.hostname]. *)
Definition middleware (req_hostname : string) : M World (Event Call) unit :=
  let hostname := req_hostname in
  localname ← operation (fun db => mret (selectLocalhost db hostname));
  (if localname is None then emit (User Next) else mret tt);;
  match localname with
  | None =>
      (* localname.localhost on undefined *)
      throw (TypeError "Cannot read properties of undefined (reading 'localhost')")
  | Some row =>
      let localname := localhost row in
      emit (User (Proxy localname (userResHeaderDecorator localname hostname)))
  end.

(** The exported route object's own fields. *)
Definition route_path : string := "*".
Definition route_priority : Z := 0.
Definition route_startingUsePriority : Z := 100.
End ProxyRoute.

(** ** managers/ServerManager.js *)

(** [Array.prototype.sort((a, b) => key(b) - key(a))]: since ES2019 the
    sort is stable, and for integer keys the comparator is a consistent
    total preorder, so the result is the one stable arrangement in
    descending key order.  It is computed here by insertion. *)
Section Sort.
Context {A : Type} (key : A -> Z).

Fixpoint insertDesc (x : A) (l : list A) : list A :=
  match l with
  | [] => [x]
  | y :: l' =>
      if (key x <? key y)%Z then y :: insertDesc x l' else x :: y :: l'
  end.

Definition sortDesc (l : list A) : list A := foldr insertDesc [] l.

(** No element is followed, anywhere later, by one of a larger key. *)
Definition descending (l : list A) : Prop :=
  StronglySorted (fun a b => (key b <= key a)%Z) l.

(** The elements of key [p], in the order they have in [l]. *)
Definition ofKey (p : Z) (l : list A) : list A :=
  filter (fun a => key a = p) l.
End Sort.

Set Warnings "-register-all".

Module ServerManager.

(** A JavaScript function value, known by a label. *)
Definition Fn := string.

(** *** The typedefs of the source *)

(** An element of [RouteObject.use]: a function, or a directory name. *)
Inductive UseRef :=
| UFunction (f : Fn)
| UName (dir : string).

(** [RouteObject]: what a route file exports.  [methods] lists the own
    keys of the methods object in order, each with its value when that
    value is a function. *)
Record RouteObject := MkRouteObject {
  path : option string;
  priority : option Z;
  static : list string;
  use : list UseRef;
  startingUsePriority : option Z;
  specificUsePriorities : option (list Z);
  methods : list (string * option Fn)
}.

(** A route that passed the checks of [#loadRoutes]: the exported object
    with its priority defaulted and with the two fields the loader
    adds. *)
Record Route := MkRoute {
  route_object : RouteObject;
  route_priority : Z;
  validMethods : list string;
  filename : string
}.

(** A middleware object: what a middleware file exports, or the object
    literal [{ run: dir }] made for an inline function.  [type] is the
    field [#loadRoutes] sets. *)
Record UseObject := MkUseObject {
  run : option Fn;
  name : option string;
  use_priority : option Z;
  type : option string
}.

Inductive ModuleExports :=
| RouteModule (r : RouteObject)
| UseModule (u : UseObject).

(** The file system below a directory, in [readdirSync] order; a file
    carries what [require] of it does. *)
Inductive FsNode :=
| File (load : Result ModuleExports)
| Dir (entries : list (string * FsNode)).

(** *** The dispatch tree *)

(** What [router.use], [router.METHOD] and [app.use(vhost(...))] append
    to a router's stack. *)
Inductive Layer :=
| LStatic (dir : string)
| LMethod (method : string) (path : string) (handler : Fn)
| LUse (handler : option Fn)
| LMount (path : string) (router : list Layer)
| LVhost (host : string) (router : list Layer).

(** An element of [structure.routeStack]. *)
Inductive StackEntry :=
| SRoute (path : option string) (filename : string) (priority : Z)
         (methods : list string)
| SUse (name : option string) (priority : option Z) (function : option Fn).

(** [structure] *)
Inductive Structure :=
| MkStructure (name : string) (path : string)
              (children : list Structure) (routeStack : list StackEntry).

Definition children (s : Structure) : list Structure :=
  match s with MkStructure _ _ c _ => c end.
Definition routeStack (s : Structure) : list StackEntry :=
  match s with MkStructure _ _ _ r => r end.

(** *** State and events *)

(** The private fields of the manager, the stack of [this.app], the
    middleware modules already in [require.cache] (shared objects, keyed
    by file name), and the number of identifiers drawn so far. *)
Record State := MkState {
  vhostDirectories : list string;
  routeDirectories : list string;
  staticDirectories : list string;
  useDirectories : list string;
  app : list Layer;
  moduleCache : gmap string UseObject;
  draws : nat
}.

(** [constructor(port)], for a valid port. *)
Definition new : State := MkState [] [] [] [] [] ∅ 0.

Inductive LogLevel := debug | info | warn | error.

Inductive Event :=
| Log (level : LogLevel) (message : string)
| Dump (structure : Structure)        (* info(this.#viewStructure(structure)) *)
| DisplayRoutes (router : list Layer).  (* displayRoutes(router) *)

Definition log (level : LogLevel) (message : string) : M State Event unit :=
  emit (Log level message).

(** A middleware entry held in an array: the fresh object of an inline
    function is held by value (nothing else refers to it), a loaded
    module is a reference into the module cache. *)
Inductive UseHandle :=
| Inline (o : UseObject)
| Cached (file : string).

Definition emptyObject : UseObject := MkUseObject None None None None.

Definition deref (cache : gmap string UseObject) (h : UseHandle) : UseObject :=
  match h with
  | Inline o => o
  | Cached file => default emptyObject (cache !! file)
  end.

(** An element of [toLoad] once routes and middleware share the array. *)
Inductive Loadable :=
| ARoute (r : Route)
| AUse (h : UseHandle).

(** [x.priority] for an element of [toLoad]. *)
Definition priorityOf (cache : gmap string UseObject) (x : Loadable) : Z :=
  match x with
  | ARoute r => route_priority r
  | AUse h => default 0%Z (use_priority (deref cache h))
  end.

(** How a scan sees one directory entry: [lstatSync(...).isDirectory()],
    what [require] of it gives, and the scan of the directory below it
    (the recursive call), of type [R]. *)
Record DirEntry (R : Type) := MkDirEntry {
  isDirectory : bool;
  required : Result ModuleExports;
  below : R
}.
Arguments MkDirEntry {R}.
Arguments isDirectory {R}.
Arguments required {R}.
Arguments below {R}.

Definition ENOENT (dir : string) : JsError :=
  Error ("ENOENT: no such file or directory, scandir '" +:+ dir +:+ "'").
Definition ENOTDIR (dir : string) : JsError :=
  Error ("ENOTDIR: not a directory, scandir '" +:+ dir +:+ "'").
Definition MODULE_NOT_FOUND (file : string) : JsError :=
  Error ("Cannot find module '" +:+ file +:+ "'").

(** [require] of a path: a file is loaded; a directory is loaded through
    its [index.js]. *)
Definition requireNode (file : string) (n : FsNode) : Result ModuleExports :=
  match n with
  | File load => load
  | Dir entries =>
      match List.find (fun e => bool_decide (e.1 = "index.js")) entries with
      | Some (_, File load) => load
      | _ => Throw (MODULE_NOT_FOUND file)
      end
  end.

Definition isDir (n : FsNode) : bool :=
  match n with Dir _ => true | File _ => false end.

Fixpoint foldM {S E A B} (f : B -> A -> M S E B) (b : B) (l : list A)
  : M S E B :=
  match l with
  | [] => mret b
  | x :: l' => b' ← f b x; foldM f b' l'
  end.

(** *** Registering directories *)
Section Directories.
(** [path.isAbsolute] of the host platform. *)
Context (isAbsolute : string -> bool).

Definition set_routeDirectories (l : list string) (s : State) : State :=
  MkState (vhostDirectories s) l (staticDirectories s) (useDirectories s)
          (app s) (moduleCache s) (draws s).
Definition set_useDirectories (l : list string) (s : State) : State :=
  MkState (vhostDirectories s) (routeDirectories s) (staticDirectories s) l
          (app s) (moduleCache s) (draws s).
Definition set_staticDirectories (l : list string) (s : State) : State :=
  MkState (vhostDirectories s) (routeDirectories s) l (useDirectories s)
          (app s) (moduleCache s) (draws s).
Definition set_vhostDirectories (l : list string) (s : State) : State :=
  MkState l (routeDirectories s) (staticDirectories s) (useDirectories s)
          (app s) (moduleCache s) (draws s).

(** [if (!list.includes(dir)) list.push(dir)] *)
Definition pushNew (dir : string) (l : list string) : list string :=
  if bool_decide (dir ∈ l) then l else l ++ [dir].

Definition addRouteDirectory (dir : string) : M State Event unit :=
  if negb (isAbsolute dir) then throw (Error "Provided path was not absolute.")
  else
    modify (fun s => set_routeDirectories (pushNew dir (routeDirectories s)) s);;
    log debug ("Adding " +:+ dir +:+ " to the list of directories to scan for routes").

Definition addUseDirectory (dir : string) : M State Event unit :=
  if negb (isAbsolute dir) then throw (Error "Provided path was not absolute.")
  else
    modify (fun s => set_useDirectories (pushNew dir (useDirectories s)) s);;
    log debug ("Adding " +:+ dir +:+ " to the list of directories to scan for middleware").

Definition addStaticDirectory (dir : string) : M State Event unit :=
  if negb (isAbsolute dir) then throw (Error "Provided path was not absolute.")
  else
    modify (fun s => set_staticDirectories (pushNew dir (staticDirectories s)) s);;
    log debug ("Adding " +:+ dir +:+ " to the list of directories to scan for static files").

Definition addVhostDirectory (dir : string) : M State Event unit :=
  if negb (isAbsolute dir) then throw (Error "Provided path was not absolute.")
  else
    modify (fun s => set_vhostDirectories (pushNew dir (vhostDirectories s)) s);;
    log debug ("Adding " +:+ dir +:+ " to the list of directories to scan for vhost things").
End Directories.

Definition set_app (l : list Layer) (s : State) : State :=
  MkState (vhostDirectories s) (routeDirectories s) (staticDirectories s)
          (useDirectories s) l (moduleCache s) (draws s).
Definition set_moduleCache (c : gmap string UseObject) (s : State) : State :=
  MkState (vhostDirectories s) (routeDirectories s) (staticDirectories s)
          (useDirectories s) (app s) c (draws s).
Definition set_draws (n : nat) (s : State) : State :=
  MkState (vhostDirectories s) (routeDirectories s) (staticDirectories s)
          (useDirectories s) (app s) (moduleCache s) n.

(** The text of [`Error while loading ${filepath}:\n${e}\n${e.stack}`]. *)
Definition nl : string := String (ascii_of_nat 10) EmptyString.
Definition loadErrorMessage (filepath : string) (e : JsError) : string :=
  "Error while loading " +:+ filepath +:+ ":" +:+ nl +:+ err_toString e
    +:+ nl +:+ err_stack e.

(** *** Resolving middleware: [#getUses] *)

(** A module read as a middleware object; a route file has no [run]. *)
Definition asUse (m : ModuleExports) : UseObject :=
  match m with
  | UseModule u => u
  | RouteModule _ => emptyObject
  end.

(** [require(file)] for a middleware scan: the cached object when the
    file was loaded before, else a load that enters the cache when it
    succeeds. *)
Definition requireUse (file : string) (load : Result ModuleExports)
  : M State Event UseHandle :=
  s ← get;
  match moduleCache s !! file with
  | Some _ => mret (Cached file)
  | None =>
      match load with
      | Throw e => throw e
      | Ok m =>
          modify (fun s => set_moduleCache (<[file := asUse m]> (moduleCache s)) s);;
          mret (Cached file)
      end
  end.

(** An assignment to fields of a middleware object, through its handle. *)
Definition writeUse (f : UseObject -> UseObject) (h : UseHandle)
  : M State Event UseHandle :=
  match h with
  | Inline o => mret (Inline (f o))
  | Cached file =>
      modify (fun s =>
        set_moduleCache (<[file := f (deref (moduleCache s) h)]> (moduleCache s)) s);;
      mret h
  end.

Definition set_priority (p : Z) (o : UseObject) : UseObject :=
  MkUseObject (run o) (name o) (Some p) (type o).
Definition set_type (t : string) (o : UseObject) : UseObject :=
  MkUseObject (run o) (name o) (use_priority o) (Some t).

(** The body of [for (const filepath of files)] in [#getUses]. *)
Definition getUses_file (dir : string) (toLoad : list UseHandle)
    (f : string * DirEntry (M State Event unit))
  : M State Event (list UseHandle) :=
  let '(filepath, e) := f in
  (if isDirectory e then below e else mret tt);;
  (* ignore non-js files *)
  if negb (bool_decide (JsString.afterLastDot filepath = "js")) then mret toLoad
  else
    use ← try_catch
             (u ← requireUse (JsString.join dir filepath) (required e); mret (Some u))
             (fun err => log error (loadErrorMessage filepath err);; mret None);
    match use with
    | None =>
        (* use.run on undefined *)
        throw (TypeError "Cannot read properties of undefined (reading 'run')")
    | Some use =>
        s ← get;
        if run (deref (moduleCache s) use) is None then
          log warn (filepath +:+ " has no function and so will be ignored");;
          mret toLoad
        else
          use ← match use_priority (deref (moduleCache s) use) with
                | None | Some 0%Z => writeUse (set_priority 0) use
                | Some _ => mret use
                end;
          mret (toLoad ++ [use])
    end.

(** The two loops of [#getUses] over [scanDirectories], each given with
    what [readdirSync] of it returns, and the final sort. *)
Definition getUses_scan
    (scanDirectories :
       list (string * Result (list (string * DirEntry (M State Event unit)))))
  : M State Event (list UseHandle) :=
  toLoad ← foldM (fun toLoad '(dir, files) =>
              match files with
              | Throw e => throw e
              | Ok files => foldM (getUses_file dir) toLoad files
              end) [] scanDirectories;
  s ← get;
  mret (sortDesc (fun h => default 0%Z (use_priority (deref (moduleCache s) h)))
                 toLoad).

(** [readdirSync(dir)] as [#getUses] sees it: for a subdirectory, the
    recursive call [this.#getUses(join(dir, filepath), router)], whose
    returned array the caller drops. *)
Fixpoint usesListing (dir : string) (n : FsNode)
  : Result (list (string * DirEntry (M State Event unit))) :=
  match n with
  | File _ => Throw (ENOTDIR dir)
  | Dir entries =>
      Ok (map (fun '(filepath, child) =>
                 let sub := JsString.join dir filepath in
                 (filepath,
                  MkDirEntry (isDir child) (requireNode sub child)
                    (_ ← getUses_scan [(sub, usesListing sub child)]; mret tt)))
              entries)
  end.

(** [#getUses] returns an array, or the manager itself. *)
Inductive UsesResult :=
| UsesArray (toLoad : list UseHandle)
| UsesThis.

Section Scan.
Context (fs : string -> option FsNode)         (* the tree at a path *)
        (generate : nat -> string)            (* randomstring.generate(5), per draw *)
        (vhostName : string -> option string) (* filepath.match(/(\S+)\.{}/)[1] *)
        (basehostname : string).              (* meta.json *)

Definition usesReaddir (dir : string)
  : Result (list (string * DirEntry (M State Event unit))) :=
  match fs dir with
  | None => Throw (ENOENT dir)
  | Some n => usesListing dir n
  end.

(** [#getUses(dir, router)] *)
Definition getUses (dir : UseRef) : M State Event UsesResult :=
  match dir with
  | UFunction f =>
      mret (UsesArray [Inline (MkUseObject (Some f) None None None)])
  | UName dir =>
      s ← get;
      let noDir := bool_decide (dir = "") in
      if bool_decide (useDirectories s = []) && noDir then mret UsesThis
      else
        let scanDirectories := if noDir then routeDirectories s else [dir] in
        toLoad ← getUses_scan (map (fun d => (d, usesReaddir d)) scanDirectories);
        mret (UsesArray toLoad)
  end.

(** *** Building a router: [#loadRoutes] *)

(** The recursive call of [#loadRoutes] on a subdirectory, waiting for
    [prefix], [pathPrefix] and [routerID]; it returns the child
    [structure] and the stack of the child router it filled. *)
Definition Builder : Type :=
  string -> string -> string -> M State Event (Structure * list Layer).

Definition recognised : list string :=
  [ "checkout"; "copy"; "delete"; "get"; "head"; "lock"; "merge";
    "mkactivity"; "mkcol"; "move"; "m-search"; "notify"; "options";
    "patch"; "post"; "purge"; "put"; "report"; "search"; "subscribe";
    "trace"; "unlock"; "unsubscribe"; "all" ].

(** A module read as a route object; a middleware file has no [path]. *)
Definition asRoute (m : ModuleExports) : RouteObject :=
  match m with
  | RouteModule r => r
  | UseModule u => MkRouteObject None (use_priority u) [] [] None None []
  end.

(** [!route.path] *)
Definition noPath (r : RouteObject) : bool :=
  match path r with
  | None | Some "" => true
  | Some _ => false
  end.

(** The body of [for (const filepath of files)] in [#loadRoutes], but for
    the push on [scanAtPriority0] (see [subdirectories]). *)
Definition loadRoutes_file (toLoad : list Route)
    (f : string * DirEntry Builder) : M State Event (list Route) :=
  let '(filepath, e) := f in
  (* ignore non-js files *)
  if negb (bool_decide (JsString.afterLastDot filepath = "js")) then mret toLoad
  else
    (* else load *)
    route ← try_catch
               (match required e with
                | Ok m => mret (Some (asRoute m))
                | Throw err => throw err
                end)
               (fun err => log error (loadErrorMessage filepath err);; mret None);
    match route with
    | None =>
        (* route.path on undefined *)
        throw (TypeError "Cannot read properties of undefined (reading 'path')")
    | Some route =>
        if noPath route then
          log warn (filepath +:+ " does not have a path and so will be ignored");;
          mret toLoad
        else
          priority ← match priority route with
                     | None =>
                         log info (filepath +:+ " does not have a set priority and so will be set to a priority of 0");;
                         mret 0%Z
                     | Some p => mret p
                     end;
          let validMethods :=
            List.filter (fun x => bool_decide (x ∈ recognised))
                        (map fst (methods route)) in
          if bool_decide (validMethods = []) then
            log warn (filepath +:+ " does not have any method functions and so will be ignored");;
            mret toLoad
          else
            mret (toLoad ++ [MkRoute route priority validMethods filepath])
    end.

(** The two loops of [#loadRoutes] over [scanDirectories], each given with
    what [readdirSync] of it returns. *)
Definition scanRoutes
    (scanDirectories : list (string * Result (list (string * DirEntry Builder))))
  : M State Event (list Route) :=
  foldM (fun toLoad '(dir, files) =>
           match files with
           | Throw e => throw e
           | Ok files => foldM loadRoutes_file toLoad files
           end) [] scanDirectories.

(** [scanAtPriority0]: the subdirectories met by the scan, in listing
    order.  The source pushes them inside the file loop; nothing reads
    the queue before that loop has ended. *)
Definition subdirectories
    (scanDirectories : list (string * Result (list (string * DirEntry Builder))))
  : list (string * string * Builder) :=
  concat (map (fun '(dir, files) =>
                 match files with
                 | Throw _ => []
                 | Ok files =>
                     omap (fun '(filepath, e) =>
                             if isDirectory e : bool
                             then Some (dir, filepath, below e) else None)
                          files
                 end) scanDirectories).

(** [route.startingUsePriority || -1] *)
Definition startingFallback (r : RouteObject) : Z :=
  match startingUsePriority r with
  | None | Some 0%Z => (-1)%Z
  | Some p => p
  end.

(** The priority loop over one [uses] array: the loop variables are
    [fallbackPriority] and [specificPriorityIndex], and the array is
    rebuilt as it is visited. *)
Definition assignPriority (specific : option (list Z))
    (acc : Z * nat * list UseHandle) (h : UseHandle)
  : M State Event (Z * nat * list UseHandle) :=
  let '(fallbackPriority, specificPriorityIndex, done) := acc in
  h ← writeUse (set_type "use") h;
  match specific ≫= (fun l => l !! specificPriorityIndex) with
  | Some p =>
      h ← writeUse (set_priority p) h;
      mret (fallbackPriority, Datatypes.S specificPriorityIndex, done ++ [h])
  | None =>
      h ← writeUse (set_priority fallbackPriority) h;
      mret (JsNumber.decrement fallbackPriority, Datatypes.S specificPriorityIndex,
            done ++ [h])
  end.

(** [toLoad.push(...allUses); toLoad.sort((a, b) => b.priority - a.priority)] *)
Definition mergeByPriority (cache : gmap string UseObject)
    (toLoad : list Route) (allUses : list UseHandle) : list Loadable :=
  sortDesc (priorityOf cache) (map ARoute toLoad ++ map AUse allUses).

(** The leading elements of [toLoad] whose priority is above 0, and the
    rest, which is empty or starts at the first priority at or below 0. *)
Fixpoint positivePrefix (cache : gmap string UseObject) (toLoad : list Loadable)
  : list Loadable :=
  match toLoad with
  | [] => []
  | x :: rest =>
      if (priorityOf cache x <=? 0)%Z then [] else x :: positivePrefix cache rest
  end.

Fixpoint fromFirstNonPositive (cache : gmap string UseObject)
    (toLoad : list Loadable) : list Loadable :=
  match toLoad with
  | [] => []
  | x :: rest =>
      if (priorityOf cache x <=? 0)%Z then toLoad
      else fromFirstNonPositive cache rest
  end.

(** *** Registration *)

(** The variables of one [#loadRoutes] call that registration updates:
    the stack of the router being filled, [structure.children],
    [structure.routeStack] and [dirScanned]. *)
Record Level := MkLevel {
  layers : list Layer;
  lv_children : list Structure;
  lv_routeStack : list StackEntry;
  dirScanned : bool
}.

Definition addLayers (l : list Layer) (lv : Level) : Level :=
  MkLevel (layers lv ++ l) (lv_children lv) (lv_routeStack lv) (dirScanned lv).
Definition addChild (c : Structure) (lv : Level) : Level :=
  MkLevel (layers lv) (lv_children lv ++ [c]) (lv_routeStack lv) (dirScanned lv).
Definition addStackEntry (e : StackEntry) (lv : Level) : Level :=
  MkLevel (layers lv) (lv_children lv) (lv_routeStack lv ++ [e]) (dirScanned lv).
Definition setScanned (lv : Level) : Level :=
  MkLevel (layers lv) (lv_children lv) (lv_routeStack lv) true.

(** [route.methods[method]] when it is a function. *)
Definition methodFunction (r : RouteObject) (method : string) : option Fn :=
  match List.find (fun kv => bool_decide (kv.1 = method)) (methods r) with
  | Some (_, Some fn) => Some fn
  | _ => None
  end.

Definition quoted (name : option string) : string :=
  match name with
  | None | Some "" => ""
  | Some n => "'" +:+ n +:+ "' "
  end.

(** [require("randomstring").generate(5)] *)
Definition draw : M State Event string :=
  s ← get;
  modify (set_draws (Datatypes.S (draws s)));;
  mret (generate (draws s)).

(** The body of [for (const e of scanAtPriority0)]: a new router, the
    recursive call that fills it, and its mount at [/<filepath>]. *)
Definition mountSubrouter (prefix pathPrefix routerID : string)
    (lv : Level) (e : string * string * Builder) : M State Event Level :=
  let '(dir, filepath, build) := e in
  newRouterID ← draw;
  '(childStructure, newRouter) ←
     build prefix
           (if bool_decide (pathPrefix = "")
            then "/" +:+ filepath
            else pathPrefix +:+ "/" +:+ filepath)
           newRouterID;
  let lv := addChild childStructure lv in
  log info ("Attaching router " +:+ newRouterID +:+ " to router "
              +:+ routerID +:+ " at /" +:+ filepath);;
  mret (addLayers [LMount ("/" +:+ filepath) newRouter] lv).

(** The block [for (const e of scanAtPriority0) {...}; dirScanned = true],
    which the source has three times. *)
Definition mountSubrouters (prefix pathPrefix routerID : string)
    (scanAtPriority0 : list (string * string * Builder)) (lv : Level)
  : M State Event Level :=
  lv ← foldM (mountSubrouter prefix pathPrefix routerID) lv scanAtPriority0;
  mret (setScanned lv).

(** Registering one route: its statics, then one binding and one stack
    entry per valid method that is a function. *)
Definition registerRoute (prefix pathPrefix routerID : string)
    (route : Route) (lv : Level) : M State Event Level :=
  let obj := route_object route in
  (* load any local statics *)
  let lv := addLayers (map LStatic (static obj)) lv in
  lv ← foldM (fun lv method =>
          log debug ("Loading method " +:+ method +:+ " for " +:+ filename route);;
          match methodFunction obj method with
          | None =>
              (* ignore any not functions *)
              log debug ("Skipping method " +:+ method +:+ " as it is not a function");;
              mret lv
          | Some fn =>
              (* set the function *)
              let lv := addLayers [LMethod method (default "" (path obj)) fn] lv in
              log debug ("Loaded method " +:+ method +:+ " for " +:+ filename route
                           +:+ " at " +:+ prefix +:+ default "" (path obj)
                           +:+ " on router " +:+ routerID);;
              mret (addStackEntry
                      (SRoute (path obj) (filename route) (route_priority route)
                              (validMethods route)) lv)
          end) lv (validMethods route);
  log info ("Loaded " +:+ filename route +:+ " at " +:+ prefix +:+ pathPrefix
              +:+ default "" (path obj) +:+ " with priority "
              +:+ pretty (route_priority route) +:+ " on router " +:+ routerID);;
  mret lv.

(** Registering one middleware entry. *)
Definition registerUse (routerID : string) (h : UseHandle) (lv : Level)
  : M State Event Level :=
  s ← get;
  let o := deref (moduleCache s) h in
  let p := default 0%Z (use_priority o) in
  log debug ("Loading use " +:+ quoted (name o) +:+ "with priority " +:+ pretty p
               +:+ " on router " +:+ routerID);;
  let lv := addLayers [LUse (run o)] lv in
  log info ("Loaded use " +:+ quoted (name o) +:+ "with priority " +:+ pretty p
              +:+ " on router " +:+ routerID);;
  mret (addStackEntry (SUse (name o) (use_priority o) (run o)) lv).

(** What the loop body does with [route] after the mount check. *)
Definition registerPlain (prefix pathPrefix routerID : string)
    (lv : Level) (route : Loadable) : M State Event Level :=
  match route with
  | ARoute r => registerRoute prefix pathPrefix routerID r lv
  | AUse h => registerUse routerID h lv
  end.

(** The body of [for (const route of toLoad)]. *)
Definition registerLoadable (prefix pathPrefix routerID : string)
    (scanAtPriority0 : list (string * string * Builder))
    (lv : Level) (route : Loadable) : M State Event Level :=
  s ← get;
  lv ← (if negb (dirScanned lv) && (priorityOf (moduleCache s) route <=? 0)%Z
        then mountSubrouters prefix pathPrefix routerID scanAtPriority0 lv
        else mret lv);
  registerPlain prefix pathPrefix routerID lv route.

(** [#loadRoutes] from [let dirScanned = false] to the end of the last
    mount block. *)
Definition registerAll (prefix pathPrefix routerID : string)
    (scanAtPriority0 : list (string * string * Builder))
    (toLoad : list Loadable) : M State Event Level :=
  let lv := MkLevel [] [] [] false in
  lv ← (if toLoad is [] then
          mountSubrouters prefix pathPrefix routerID scanAtPriority0 lv
        else mret lv);
  lv ← foldM (registerLoadable prefix pathPrefix routerID scanAtPriority0)
             lv toLoad;
  if negb (dirScanned lv) then
    mountSubrouters prefix pathPrefix routerID scanAtPriority0 lv
  else mret lv.

(** The loop [for (const use of route.use.flat())] of one route; a
    [use] array of the typedef is flat already. *)
Definition resolveUses (allUses : list UseHandle) (route : Route)
  : M State Event (list UseHandle) :=
  let obj := route_object route in
  let fallbackPriority := startingFallback obj in
  let specificPriorityIndex := 0 in
  '(_, _, allUses) ←
    foldM (fun '(fallbackPriority, specificPriorityIndex, allUses) use =>
             uses ← getUses use;
             match uses with
             | UsesThis =>
                 (* uses.length is undefined; allUses.push(...uses) *)
                 throw (TypeError "Spread syntax requires ...iterable[Symbol.iterator] to be a function")
             | UsesArray uses =>
                 '(fallbackPriority, specificPriorityIndex, uses) ←
                   foldM (assignPriority (specificUsePriorities obj))
                         (fallbackPriority, specificPriorityIndex, []) uses;
                 mret (fallbackPriority, specificPriorityIndex, allUses ++ uses)
             end)
          (fallbackPriority, specificPriorityIndex, allUses) (use obj);
  mret allUses.

(** [#loadRoutes] from [let toLoad = []] on, for [scanDirectories]
    given with what [readdirSync] of each returns.  It returns
    [structure] and the layers it put on its router, in order. *)
Definition loadRoutes_scan
    (scanDirectories : list (string * Result (list (string * DirEntry Builder))))
    (prefix pathPrefix routerID : string) (innerLevel : bool)
  : M State Event (Structure * list Layer) :=
  routerID ← (if bool_decide (routerID = "") then draw else mret routerID);
  let path := prefix +:+ pathPrefix in
  let scanAtPriority0 := subdirectories scanDirectories in
  toLoad ← scanRoutes scanDirectories;
  (* load any local use things *)
  allUses ← foldM resolveUses [] toLoad;
  (* toLoad.push(...allUses); sort routes by priority *)
  s ← get;
  let toLoad := mergeByPriority (moduleCache s) toLoad allUses in
  (* load them *)
  lv ← registerAll prefix pathPrefix routerID scanAtPriority0 toLoad;
  let structure := MkStructure routerID path (lv_children lv) (lv_routeStack lv) in
  (if innerLevel then mret tt else emit (Dump structure));;
  mret (structure, layers lv).

(** [readdirSync(dir)] as [#loadRoutes] sees it: for a subdirectory,
    the recursive call with [innerLevel] set. *)
Fixpoint routesListing (dir : string) (n : FsNode)
  : Result (list (string * DirEntry Builder)) :=
  match n with
  | File _ => Throw (ENOTDIR dir)
  | Dir entries =>
      Ok (map (fun '(filepath, child) =>
                 let sub := JsString.join dir filepath in
                 (filepath,
                  MkDirEntry (isDir child) (requireNode sub child)
                    (fun prefix pathPrefix routerID =>
                       loadRoutes_scan [(sub, routesListing sub child)]
                                       prefix pathPrefix routerID true)))
              entries)
  end.

Definition routesReaddir (dir : string)
  : Result (list (string * DirEntry Builder)) :=
  match fs dir with
  | None => Throw (ENOENT dir)
  | Some n => routesListing dir n
  end.

(** [#loadRoutes(dir, router, prefix, pathPrefix, routerID, innerLevel)];
    an absent argument is the empty string.  The result is what the
    call put on [router] (or on [this.app] when there is none). *)
Definition loadRoutes (dir prefix pathPrefix routerID : string)
    (innerLevel : bool) : M State Event (list Layer) :=
  s ← get;
  if bool_decide (routeDirectories s = []) && bool_decide (dir = "")
  then mret []
  else
    let scanDirectories :=
      if bool_decide (dir = "") then routeDirectories s else [dir] in
    r ← loadRoutes_scan (map (fun d => (d, routesReaddir d)) scanDirectories)
                        prefix pathPrefix routerID innerLevel;
    mret r.2.

(** *** Virtual hosts: [#loadVhosts] *)

(** [readdirSync(dir)] with the node of each name. *)
Definition readdir (dir : string) (n : option FsNode)
  : M State Event (list (string * FsNode)) :=
  match n with
  | None => throw (ENOENT dir)
  | Some (File _) => throw (ENOTDIR dir)
  | Some (Dir entries) => mret entries
  end.

Definition use_app (l : Layer) : M State Event unit :=
  modify (fun s => set_app (app s ++ [l]) s).

(** The body of [for (const innerPath of inner)]: [name] is the first
    group of the directory-name pattern.  The call of [#loadRoutes]
    has its [dir], so it scans that one directory. *)
Definition loadVhost (dir filepath name : string)
    (inner : string * FsNode) : M State Event unit :=
  let '(innerPath, n) := inner in
  (* ignore if not directory *)
  if negb (isDir n) then mret tt
  else if bool_decide (innerPath = "routes") then
    let host := name +:+ "." +:+ basehostname in
    let routes := JsString.join (JsString.join dir filepath) "routes" in
    log info ("----- Loading routes for " +:+ host +:+ " -----");;
    r ← loadRoutes_scan [(routes, routesListing routes n)] host "" "" false;
    let router := r.2 in
    log debug ("Loaded routes for " +:+ host);;
    use_app (LVhost host router);;
    log info ("----- Routes setup for " +:+ host +:+ " -----");;
    emit (DisplayRoutes router)
  else mret tt.

(** The body of [for (const filepath of files)] in [#loadVhosts]. *)
Definition vhostEntry (dir : string) (f : string * FsNode)
  : M State Event unit :=
  let '(filepath, n) := f in
  (* ignore if not directory *)
  if negb (isDir n) then mret tt
  else
    (* check name follows pattern *)
    match vhostName filepath with
    | None => mret tt
    | Some name =>
        (* check for routes folder inside *)
        inner ← readdir (JsString.join dir filepath) (Some n);
        for_of inner (loadVhost dir filepath name)
    end.

(** The body of [for (const dir of this.#vhostDirectories)]. *)
Definition loadVhostsIn (dir : string) : M State Event unit :=
  files ← readdir dir (fs dir);
  for_of files (vhostEntry dir).

(** [#loadVhosts()]; with no directory registered the loop has nothing
    to visit, which is the early return of the source. *)
Definition loadVhosts : M State Event unit :=
  s ← get;
  for_of (vhostDirectories s) loadVhostsIn.

(** [#loadStatics()] without arguments. *)
Definition loadStatics : M State Event unit :=
  s ← get;
  for_of (staticDirectories s) (fun search => use_app (LStatic search)).

(** [setupFromState()], after the settings of [headers.json] have been
    applied; routes found without a router go on [this.app]. *)
Definition setupFromState : M State Event unit :=
  loadVhosts;;
  l ← loadRoutes "" basehostname "" "" false;
  modify (fun s => set_app (app s ++ l) s);;
  loadStatics.
End Scan.

(** The entries [#loadRoutes] makes of inline functions when the
    fallback counter stands at [start]: one object per function, each one
    lower than the one before. *)
Fixpoint inlineUses (start : Z) (fns : list Fn) : list UseHandle :=
  match fns with
  | [] => []
  | f :: rest =>
      Inline (MkUseObject (Some f) None (Some start) (Some "use"))
        :: inlineUses (start - 1)%Z rest
  end.

(** *** The layers an element of [toLoad] puts on the router *)

(** One binding per valid method whose value is a function. *)
Definition methodLayers (r : RouteObject) (valid : list string) : list Layer :=
  flat_map (fun method =>
              match methodFunction r method with
              | Some fn => [LMethod method (default "" (path r)) fn]
              | None => []
              end) valid.

Definition plainLayers (cache : gmap string UseObject) (x : Loadable)
  : list Layer :=
  match x with
  | ARoute r =>
      map LStatic (static (route_object r))
        ++ methodLayers (route_object r) (validMethods r)
  | AUse h => [LUse (run (deref cache h))]
  end.

(** The mount paths of the queued subdirectories, in queue order. *)
Definition mountPaths (scanAtPriority0 : list (string * string * Builder))
  : list string :=
  map (fun e => "/" +:+ e.1.2) scanAtPriority0.

Definition isMount (l : Layer) : bool :=
  match l with LMount _ _ => true | _ => false end.

(** The four registration methods, by the list they extend. *)
Inductive Kind := Routes | Uses | Statics | Vhosts.

Global Instance Kind_eq_dec : EqDecision Kind.
Proof. solve_decision. Defined.

Definition add (isAbsolute : string -> bool) (k : Kind) (dir : string)
  : M State Event unit :=
  match k with
  | Routes => addRouteDirectory isAbsolute dir
  | Uses => addUseDirectory isAbsolute dir
  | Statics => addStaticDirectory isAbsolute dir
  | Vhosts => addVhostDirectory isAbsolute dir
  end.

Definition directories (k : Kind) (s : State) : list string :=
  match k with
  | Routes => routeDirectories s
  | Uses => useDirectories s
  | Statics => staticDirectories s
  | Vhosts => vhostDirectories s
  end.

(** A sequence of registrations; a call that throws leaves the manager as
    it was and the caller goes on. *)
Definition addAll (isAbsolute : string -> bool) (ops : list (Kind * string))
    (s : State) : State :=
  foldl (fun s op => run_state (add isAbsolute op.1 op.2 s)) s ops.

(** [path.isAbsolute] on a POSIX host. *)
Definition posix_isAbsolute (p : string) : bool :=
  match p with
  | String c _ => Ascii.eqb c "/"
  | EmptyString => false
  end.
End ServerManager.

(** * Sample inputs *)
Module Samples.
Import DatabaseManager.

(** A manager that was never initialised, and one after [init]. *)
Definition fresh : World := MkWorld false None (fun _ => Ok []).
Definition started : World :=
  MkWorld true (Some "/srv/databases/db.sqlite")
          (fun _ => Ok [MkRow "shop.example.com" "10.0.0.5:8080"]).

(** A manager that was never initialised, on a machine where only the
    files below [/srv/databases] can be opened. *)
Definition cannotOpen : JsError :=
  MkError "SqliteError" "unable to open database file" "".
Definition confined : World :=
  MkWorld false None
          (fun file =>
             if String.prefix "/srv/databases/" file then Ok [] else Throw cannotOpen).

(** A function that leaves a mark in the trace and returns the number of
    rows it sees. *)
Definition countRows (db : Connection) : M World (Event string) nat :=
  emit (User "SELECT");; mret (length (mappings db)).

(** A function that fails after its first statement. *)
Definition failing (db : Connection) : M World (Event string) nat :=
  emit (User "SELECT");; throw (Error "no such table: mappings").

(** Response headers of a backend that names itself twice in [Location],
    and once in [Link]. *)
Definition backendHeaders : gmap string ProxyRoute.HeaderValue :=
  <["Location" := ProxyRoute.HString "http://10.0.0.5:8080/cart?back=http://10.0.0.5:8080/"]>
  (<["Link" := ProxyRoute.HString "<http://10.0.0.5:8080/cart>; rel=canonical"]>
  (<["Server" := ProxyRoute.HString "nginx"]>
  (<["Content-Length" := ProxyRoute.HNumber 120]>
  (<["Set-Cookie" := ProxyRoute.HArray ["sid=1; Domain=10.0.0.5:8080"]]> ∅)))).

Import ServerManager.

(** Router identifiers [r0], [r1], ... in the order they are drawn. *)
Definition generateId (n : nat) : string := "r" +:+ pretty n.

(** A route file with a path, maybe a priority, and a function for each
    of the listed methods. *)
Definition handler (p : string) (pr : option Z) (ms : list string) : RouteObject :=
  MkRouteObject (Some p) pr [] [] None None
                (map (fun m => (m, Some (m +:+ " " +:+ p))) ms).

(** [a.js] at [/x] with priority 5, [b.js] at [/y] without a priority, and
    a subdirectory [admin] without a handler. *)
Definition siteRoutes : FsNode :=
  Dir [ ("a.js", File (Ok (RouteModule (handler "/x" (Some 5%Z) ["get"]))));
        ("admin", Dir []);
        ("b.js", File (Ok (RouteModule (handler "/y" None ["post"])))) ].

(** A file that fails to load, listed before one that loads. *)
Definition syntaxError : JsError :=
  MkError "SyntaxError" "Unexpected token '}'" "at /srv/routes/bad.js:3".

Definition brokenRoutes : FsNode :=
  Dir [ ("bad.js", File (Throw syntaxError));
        ("good.js", File (Ok (RouteModule (handler "/ok" (Some 1%Z) ["get"])))) ].

(** A middleware directory with one module at the top and one in a
    subdirectory. *)
Definition middlewareDir : FsNode :=
  Dir [ ("auth.js",
         File (Ok (UseModule (MkUseObject (Some "auth") (Some "auth") (Some 5%Z) None))));
        ("extra",
         Dir [ ("audit.js",
                File (Ok (UseModule
                            (MkUseObject (Some "audit") (Some "audit") (Some 9%Z) None)))) ]) ].

(** A route whose [startingUsePriority] is 0, with two inline functions. *)
Definition zeroStart : Route :=
  MkRoute (MkRouteObject (Some "/z") (Some 0%Z) [] [UFunction "f"; UFunction "g"]
                         (Some 0%Z) None [("get", Some "get /z")])
          0 ["get"] "z.js".

(** The route of the reverse proxy: one inline function, to be placed
    at priority 100. *)
Definition proxyRoute : Route :=
  MkRoute (MkRouteObject (Some "*") (Some 0%Z) [] [UFunction "proxy"]
                         (Some 100%Z) None [("all", Some "void")])
          0 ["all"] "proxy.js".

(** A route that names the same middleware directory twice. *)
Definition twice : Route :=
  MkRoute (MkRouteObject (Some "/t") (Some 0%Z) []
                         [UName "/srv/pair"; UName "/srv/pair"]
                         None None [("get", Some "get /t")])
          0 ["get"] "t.js".

Definition pairDir : FsNode :=
  Dir [ ("one.js", File (Ok (UseModule (MkUseObject (Some "one") (Some "one") None None))));
        ("two.js", File (Ok (UseModule (MkUseObject (Some "two") (Some "two") None None)))) ].

(** A route that names a middleware directory which does not exist. *)
Definition blogRoutes : FsNode :=
  Dir [ ("index.js",
         File (Ok (RouteModule
                     (MkRouteObject (Some "/") (Some 1%Z) [] [UName "/srv/missing"]
                                    None None [("get", Some "get /")])))) ].

(** Two virtual hosts; the build of the first one fails. *)
Definition vhosts : FsNode :=
  Dir [ ("blog.{}", Dir [("routes", blogRoutes)]);
        ("shop.{}", Dir [("routes", siteRoutes)]) ].

Definition shopOnly : FsNode :=
  Dir [ ("shop.{}", Dir [("routes", siteRoutes)]) ].

Definition disk1 (p : string) : option FsNode :=
  if bool_decide (p = "/srv/routes") then Some siteRoutes
  else if bool_decide (p = "/srv/broken") then Some brokenRoutes
  else if bool_decide (p = "/srv/middleware") then Some middlewareDir
  else if bool_decide (p = "/srv/pair") then Some pairDir
  else if bool_decide (p = "/srv/vhosts") then Some vhosts
  else if bool_decide (p = "/srv/shop") then Some shopOnly
  else None.

(** The first group of the directory-name pattern on names that end in
    the marker and hold no blank. *)
Fixpoint beforeMarker (s : string) : option string :=
  match s with
  | EmptyString => None
  | String c s' =>
      if bool_decide (s' = ".{}") then Some (String c EmptyString)
      else option_map (String c) (beforeMarker s')
  end.

Definition withRoutes (dir : string) : State :=
  set_routeDirectories [dir] new.
Definition withVhosts (dir : string) : State :=
  set_vhostDirectories [dir] new.

(** The registration of the first sample level, as [#loadRoutes] reaches
    it: the queue holds [admin], [toLoad] the two routes in sorted order. *)
Definition siteQueue : list (string * string * Builder) :=
  subdirectories [("/srv/routes", routesListing disk1 generateId "/srv/routes" siteRoutes)].
Definition siteToLoad : list Loadable :=
  [ ARoute (MkRoute (handler "/x" (Some 5%Z) ["get"]) 5 ["get"] "a.js");
    ARoute (MkRoute (handler "/y" None ["post"]) 0 ["post"] "b.js") ].
Definition siteRun : State * list Event * Result Level :=
  registerAll generateId "example.com" "" "r0" siteQueue siteToLoad
              (set_draws 1 (withRoutes "/srv/routes")).
Definition siteLevel : Level :=
  match run_result siteRun with
  | Ok lv => lv
  | Throw _ => MkLevel [] [] [] false
  end.

(** The scan of the directory with two middleware modules. *)
Definition pairScan : State * list Event * Result (list UseHandle) :=
  getUses_scan [("/srv/pair", usesListing "/srv/pair" pairDir)] new.

(** A middleware directory whose listing order is not the order of the
    priorities: 1, 9, none, 5. *)
Definition rankedDir : FsNode :=
  Dir [ ("a-low.js",
         File (Ok (UseModule (MkUseObject (Some "low") (Some "low") (Some 1%Z) None))));
        ("b-high.js",
         File (Ok (UseModule (MkUseObject (Some "high") (Some "high") (Some 9%Z) None))));
        ("c-plain.js",
         File (Ok (UseModule (MkUseObject (Some "plain") (Some "plain") None None))));
        ("d-late.js",
         File (Ok (UseModule (MkUseObject (Some "late") (Some "late") (Some 5%Z) None)))) ].
Definition rankedScan : State * list Event * Result (list UseHandle) :=
  getUses_scan [("/srv/ranked", usesListing "/srv/ranked" rankedDir)] new.

(** A route with three inline functions, a starting priority of 10 and
    no specific priorities. *)
Definition stacked : Route :=
  MkRoute (MkRouteObject (Some "/s") (Some 0%Z) []
                         [UFunction "f"; UFunction "g"; UFunction "h"]
                         (Some 10%Z) None [("get", Some "get /s")])
          0 ["get"] "s.js".

(** The same with a starting priority of 2^53 + 2, where the doubles are
    the even integers. *)
Definition towering : Route :=
  MkRoute (MkRouteObject (Some "/s") (Some 0%Z) []
                         [UFunction "f"; UFunction "g"; UFunction "h"]
                         (Some 9007199254740994%Z) None [("get", Some "get /s")])
          0 ["get"] "s.js".

(** The whole build of that level. *)
Definition siteScan : State * list Event * Result (Structure * list Layer) :=
  loadRoutes_scan disk1 generateId
    [("/srv/routes", routesListing disk1 generateId "/srv/routes" siteRoutes)]
    "example.com" "" "" false (withRoutes "/srv/routes").
Definition siteStructure : Structure :=
  MkStructure "r0" "example.com"
    [MkStructure "r1" "example.com/admin" [] []]
    [SRoute (Some "/x") "a.js" 5 ["get"]; SRoute (Some "/y") "b.js" 0 ["post"]].
Definition siteRouter : list Layer :=
  [LMethod "get" "/x" "get /x"; LMount "/admin" []; LMethod "post" "/y" "post /y"].
End Samples.

(** * Descriptions used in the further properties *)
Module Descriptions.
Import ServerManager.

(** What [#loadRoutes] has checked of a route it keeps: a path that is
    not falsy, the file's name with its [js] extension, the priority of
    the file or 0, and a list of valid methods that is not empty and holds
    the recognised keys of [methods], in key order. *)
Definition checkedRoute (r : Route) : Prop :=
  noPath (route_object r) = false /\
  JsString.afterLastDot (filename r) = "js" /\
  route_priority r = default 0%Z (priority (route_object r)) /\
  validMethods r <> [] /\
  validMethods r
  = List.filter (fun x => bool_decide (x ∈ recognised))
                (map fst (methods (route_object r))).

(** Every file of the listings that the extension test lets through can
    be loaded, and every listing can be read. *)
Definition allLoad {R} (scanDirectories : list (string * Result (list (string * DirEntry R))))
  : Prop :=
  Forall (fun d =>
            match d.2 with
            | Throw _ => False
            | Ok files =>
                Forall (fun f =>
                          JsString.afterLastDot f.1 = "js" ->
                          exists m, required f.2 = Ok m) files
            end) scanDirectories.

(** The priority of the [i]-th inline function of a route: the [i]-th
    specific priority while there is one, then the fallback counter, which
    starts at [start] and has gone down once for each earlier function
    that had no specific priority. *)
Definition inlinePriority (specific : list Z) (start : Z) (i : nat) : Z :=
  default (start - Z.of_nat (i - length specific))%Z (specific !! i).

(** The entry made for the [i]-th inline function [f]. *)
Definition inlineUse (specific : list Z) (start : Z) (i : nat) (f : Fn)
  : UseHandle :=
  Inline (MkUseObject (Some f) None (Some (inlinePriority specific start i))
                      (Some "use")).

(** A computation keeps [R] when every run, returning or throwing, ends
    in a state related by [R] to the one it started in. *)
Definition keeps {S E A} (R : S -> S -> Prop) (m : M S E A) : Prop :=
  forall s, R s (run_state (m s)).

(** What a scan or a build may do to the manager: the four lists of
    directories and the stack of [this.app] stay as they are, the module
    cache keeps its files and may gain some, and the number of identifiers
    drawn may go up. *)
Definition scanStep (s s' : State) : Prop :=
  vhostDirectories s' = vhostDirectories s /\
  routeDirectories s' = routeDirectories s /\
  staticDirectories s' = staticDirectories s /\
  useDirectories s' = useDirectories s /\
  app s' = app s /\
  draws s <= draws s' /\
  dom (moduleCache s) ⊆ dom (moduleCache s').

(** What [#getUses] may do to the manager: as [scanStep], and no
    identifier is drawn. *)
Definition usesStep (s s' : State) : Prop :=
  vhostDirectories s' = vhostDirectories s /\
  routeDirectories s' = routeDirectories s /\
  staticDirectories s' = staticDirectories s /\
  useDirectories s' = useDirectories s /\
  app s' = app s /\
  draws s' = draws s /\
  dom (moduleCache s) ⊆ dom (moduleCache s').

(** Induction on a directory tree, with the hypothesis for every entry of
    a directory. *)
Fixpoint FsNode_tree_ind (P : FsNode -> Prop)
    (HFile : forall load, P (File load))
    (HDir : forall entries, Forall (fun e => P e.2) entries -> P (Dir entries))
    (n : FsNode) : P n :=
  match n with
  | File load => HFile load
  | Dir entries =>
      HDir entries
        ((fix go (l : list (string * FsNode)) : Forall (fun e => P e.2) l :=
            match l with
            | [] => List.Forall_nil _
            | (name, child) :: l' =>
                @List.Forall_cons _ (fun e => P e.2) (name, child) l'
                  (FsNode_tree_ind P HFile HDir child) (go l')
            end) entries)
  end.

(** A listing of [#getUses] whose recursive calls keep [usesStep]. *)
Definition usesKept
    (d : string * Result (list (string * DirEntry (M State Event unit)))) : Prop :=
  match d.2 with
  | Ok files => Forall (fun f => keeps usesStep (below f.2)) files
  | Throw _ => True
  end.

(** A listing of [#loadRoutes] whose recursive calls keep [scanStep]. *)
Definition routesKept (d : string * Result (list (string * DirEntry Builder))) : Prop :=
  match d.2 with
  | Ok files =>
      Forall (fun f => forall prefix pathPrefix routerID,
                keeps scanStep (below f.2 prefix pathPrefix routerID)) files
  | Throw _ => True
  end.

(** What [#loadVhosts] may do to the manager: the lists of directories
    stay as they are, and [this.app] gains layers at its end, each one a
    virtual host under [basehostname]. *)
Definition vhostStep (basehostname : string) (s s' : State) : Prop :=
  vhostDirectories s' = vhostDirectories s /\
  routeDirectories s' = routeDirectories s /\
  staticDirectories s' = staticDirectories s /\
  useDirectories s' = useDirectories s /\
  exists added,
    app s' = app s ++ added /\
    Forall (fun l => exists name router,
              l = LVhost (name +:+ "." +:+ basehostname) router) added.

(** *** The structure beside the router *)

Definition structureName (s : Structure) : string :=
  match s with MkStructure n _ _ _ => n end.
Definition structurePath (s : Structure) : string :=
  match s with MkStructure _ p _ _ => p end.

(** What a layer and a [routeStack] entry have in common: a binding
    shows its path, a middleware its function. *)
Inductive Shape :=
| RouteAt (path : string)
| UseOf (function : option Fn).

Definition layerShape (l : Layer) : option Shape :=
  match l with
  | LMethod _ path _ => Some (RouteAt path)
  | LUse handler => Some (UseOf handler)
  | LStatic _ | LMount _ _ | LVhost _ _ => None
  end.

Definition entryShape (e : StackEntry) : Shape :=
  match e with
  | SRoute path _ _ _ => RouteAt (default "" path)
  | SUse _ _ function => UseOf function
  end.

(** The names of the subdirectories of a directory, in listing order. *)
Definition subdirectoryNames (n : FsNode) : list string :=
  match n with
  | File _ => []
  | Dir entries =>
      omap (fun e => if isDir e.2 then Some e.1 else None) entries
  end.

(** The path prefix [#loadRoutes] hands to the recursive call for the
    subdirectory [filepath]. *)
Definition childPrefix (pathPrefix filepath : string) : string :=
  if bool_decide (pathPrefix = "") then "/" +:+ filepath
  else pathPrefix +:+ "/" +:+ filepath.

(** [child] is what the recursive call for the queued subdirectory [e]
    returned, called with the prefix of the level and the path prefix of
    the subdirectory. *)
Definition builtBy (prefix pathPrefix : string) (child : Structure)
    (e : string * string * Builder) : Prop :=
  exists routerID s s' t router,
    e.2 prefix (childPrefix pathPrefix e.1.2) routerID s
    = (s', t, Ok (child, router)).

(** The invariant of the registration loop: [routeStack] shows the
    bindings and middleware of the router in their order, there are as
    many children as mounts, and [children] holds nothing before the
    mount block has run and one structure per queued subdirectory after
    it. *)
Definition levelOK (prefix pathPrefix : string)
    (scanAtPriority0 : list (string * string * Builder)) (lv : Level) : Prop :=
  map entryShape (lv_routeStack lv) = omap layerShape (layers lv) /\
  length (lv_children lv) = length (List.filter isMount (layers lv)) /\
  if dirScanned lv
  then Forall2 (builtBy prefix pathPrefix) (lv_children lv) scanAtPriority0
  else lv_children lv = [].
End Descriptions.

(** * Further sample inputs *)
Module MoreSamples.
Import ServerManager Samples.

(** A route with three inline functions, one specific priority and a
    starting priority of 7. *)
Definition guarded : Route :=
  MkRoute (MkRouteObject (Some "/g") (Some 0%Z) []
                         [UFunction "f"; UFunction "g"; UFunction "h"]
                         (Some 7%Z) (Some [50%Z]) [("get", Some "get /g")])
          0 ["get"] "g.js".

(** A route whose second [use] entry is an empty name. *)
Definition unnamed : Route :=
  MkRoute (MkRouteObject (Some "/u") (Some 0%Z) []
                         [UFunction "f"; UName ""; UName "/srv/pair"]
                         None None [("get", Some "get /u")])
          0 ["get"] "u.js".

(** The first sample disk with other files in [/srv/middleware]. *)
Definition disk2 (p : string) : option FsNode :=
  if bool_decide (p = "/srv/middleware") then Some pairDir else disk1 p.

(** A manager with [/srv/pair] registered for routes and
    [/srv/middleware] for middleware. *)
Definition crossed : State :=
  set_useDirectories ["/srv/middleware"] (withRoutes "/srv/pair").

(** The routes that the scan of the first sample level keeps. *)
Definition siteRoutesKept : list Route :=
  [ MkRoute (handler "/x" (Some 5%Z) ["get"]) 5 ["get"] "a.js";
    MkRoute (handler "/y" None ["post"]) 0 ["post"] "b.js" ].

(** A manager with one directory of each kind but middleware, and the
    two scans of [setupFromState] on it. *)
Definition configured : State :=
  set_staticDirectories ["/srv/public"]
    (set_routeDirectories ["/srv/routes"] (withVhosts "/srv/shop")).
Definition afterVhosts : State * list Event * Result unit :=
  loadVhosts disk1 generateId beforeMarker "example.com" configured.
Definition afterRoutes : State * list Event * Result (list Layer) :=
  loadRoutes disk1 generateId "" "example.com" "" "" false (run_state afterVhosts).
End MoreSamples.
(** * Properties *)

(** ** Running computations *)
Section MonadFacts.
Context {S E : Type}.
Implicit Types s : S.

Lemma mbind_bind {A B} (m : M S E A) (k : A -> M S E B) :
  (m ≫= k) = bind m k.
Proof. reflexivity. Qed.

Lemma bind_Ok {A B} (m : M S E A) (k : A -> M S E B) s s1 t1 a :
  m s = (s1, t1, Ok a) ->
  bind m k s = (let '(s2, t2, r) := k a s1 in (s2, t1 ++ t2, r)).
Proof. intros H. unfold bind. rewrite H. reflexivity. Qed.

Lemma bind_Throw {A B} (m : M S E A) (k : A -> M S E B) s s1 t1 e :
  m s = (s1, t1, Throw e) -> bind m k s = (s1, t1, Throw e).
Proof. intros H. unfold bind. rewrite H. reflexivity. Qed.

Lemma bind_Ok_inv {A B} (m : M S E A) (k : A -> M S E B) s s2 t b :
  bind m k s = (s2, t, Ok b) ->
  exists s1 t1 a t2,
    m s = (s1, t1, Ok a) /\ k a s1 = (s2, t2, Ok b) /\ t = t1 ++ t2.
Proof.
  unfold bind. destruct (m s) as [[s1 t1] [a|e]]; [|discriminate].
  destruct (k a s1) as [[s2' t2] r] eqn:Hk. intros [= -> <- ->].
  exists s1, t1, a, t2. auto.
Qed.

(** A loop stops at the first iteration that throws: the iterations
    before it have run, none after it does. *)
Lemma for_of_throw {A} (body : A -> M S E unit) pre x post s s1 t1 s2 t2 e :
  for_of pre body s = (s1, t1, Ok tt) ->
  body x s1 = (s2, t2, Throw e) ->
  for_of (pre ++ x :: post) body s = (s2, t1 ++ t2, Throw e).
Proof.
  revert s t1. induction pre as [|y pre IH]; intros s t1 Hpre Hx; simpl in *.
  - injection Hpre as <- <-. unfold bind. rewrite Hx. reflexivity.
  - unfold bind in *. destruct (body y s) as [[sy ty] [[]|ey]]; [|discriminate].
    destruct (for_of pre body sy) as [[s1' t1'] r1] eqn:Hrest.
    injection Hpre as -> <- ->.
    rewrite (IH _ _ Hrest Hx). by rewrite app_assoc.
Qed.

Lemma for_of_ok_app {A} (body : A -> M S E unit) l1 l2 s s1 t1 s2 t2 :
  for_of l1 body s = (s1, t1, Ok tt) ->
  for_of l2 body s1 = (s2, t2, Ok tt) ->
  for_of (l1 ++ l2) body s = (s2, t1 ++ t2, Ok tt).
Proof.
  revert s t1. induction l1 as [|y l1 IH]; intros s t1 H1 H2; simpl in *.
  - injection H1 as <- <-. exact H2.
  - unfold bind in *. destruct (body y s) as [[sy ty] [[]|ey]]; [|discriminate].
    destruct (for_of l1 body sy) as [[s1' t1'] r1] eqn:Hrest.
    injection H1 as -> <- ->.
    rewrite (IH _ _ Hrest H2). by rewrite app_assoc.
Qed.
End MonadFacts.

(** Unfolds the monad's operations in a goal. *)
Ltac run :=
  cbv [mbind M_bind mret M_ret bind ret throw emit get put modify try_catch
       run_state run_trace run_result fst snd].

(** ** DatabaseManager *)
Module DatabaseManagerFacts.
Import DatabaseManager.

Section Facts.
Context {U A : Type}.
Implicit Types (w : World) (f : Connection -> M World (Event U) A).

(** Before [init], [operation] throws at its first line: no handle is
    opened and [f] does not run. *)
Lemma operation_not_ready f w :
  ready w = false ->
  operation f w
  = (w, [], Throw (Error "the database handler has not been initialised")).
Proof. intros H. unfold operation. cbv [mbind M_bind bind get]. by rewrite H. Qed.

(** The handle that the driver gives is on the file of [#path]. *)
Lemma handle_Ok w db :
  handle w = Ok db ->
  exists rows,
    disk w (default "" (path w)) = Ok rows /\
    db = MkConnection (default "" (path w)) rows.
Proof.
  unfold handle. destruct (disk w _) as [rows|e]; [|done].
  intros [= <-]. by exists rows.
Qed.

(** When the driver cannot open the file, its error leaves [operation]
    as it is thrown, from outside the [try]: nothing has been opened, [f]
    does not run and nothing is closed. *)
Lemma operation_cannot_open f w e :
  ready w = true ->
  handle w = Throw e ->
  operation f w = (w, [], Throw e).
Proof.
  intros Hr Hh. unfold handle in Hh. unfold operation, connect.
  cbv [mbind M_bind mret M_ret bind get emit ret try_catch throw].
  rewrite Hr. simpl. destruct (disk w _) as [rows|e']; [done|].
  by injection Hh as ->.
Qed.

(** C9 (as amended).  Once the manager is initialised, and when the
    driver opens the file, [operation f] opens a handle, runs [f] on it
    and closes the handle after [f] on both paths: the trace is the
    opening, then what [f] does, then the closing, and the outcome of the
    call is the outcome of [f] -- its value when it returns, its error,
    thrown again after the closing, when it throws. *)
Theorem operation_opens_runs_closes f w db :
  ready w = true ->
  handle w = Ok db ->
  operation f w
  = (run_state (f db w),
     Opened (db_file db) :: run_trace (f db w) ++ [Closed (db_file db)],
     run_result (f db w)).
Proof.
  intros Hr Hh. apply handle_Ok in Hh as (rows & Hdisk & ->).
  unfold operation, connect, close.
  cbv [mbind M_bind mret M_ret bind get emit ret try_catch throw].
  rewrite Hr. simpl. rewrite Hdisk.
  destruct (f _ w) as [[w1 t1] [a|e]];
    cbn [run_state run_trace run_result fst snd]; by rewrite ?app_nil_r.
Qed.

(** A query that only reads: the handle is opened and closed around it. *)
Lemma operation_query (g : Connection -> A) w db :
  ready w = true ->
  handle w = Ok db ->
  operation (U:=U) (fun db => mret (g db)) w
  = (w, [Opened (db_file db); Closed (db_file db)], Ok (g db)).
Proof.
  intros Hr Hh. apply handle_Ok in Hh as (rows & Hdisk & ->).
  unfold operation, connect, close.
  cbv [mbind M_bind mret M_ret bind get emit ret try_catch throw].
  rewrite Hr. simpl. by rewrite Hdisk.
Qed.
End Facts.
End DatabaseManagerFacts.

(** ** The stable descending sort *)
Section SortFacts.
Context {A : Type} (key : A -> Z).
Implicit Types (x : A) (l : list A).

Lemma insertDesc_Permutation x l : insertDesc key x l ≡ₚ x :: l.
Proof.
  induction l as [|y l IH]; cbn; [done|].
  destruct (key x <? key y)%Z; [|done].
  rewrite IH. apply Permutation_swap.
Qed.

Lemma sortDesc_Permutation l : sortDesc key l ≡ₚ l.
Proof.
  induction l as [|x l IH]; cbn; [done|].
  by rewrite insertDesc_Permutation, IH.
Qed.

Lemma insertDesc_descending x l :
  descending key l -> descending key (insertDesc key x l).
Proof.
  unfold descending. induction l as [|y l IH]; cbn; intros Hl.
  - repeat constructor.
  - apply StronglySorted_cons in Hl as [Hy Hl].
    destruct (key x <? key y)%Z eqn:Hxy.
    + apply Z.ltb_lt in Hxy. apply StronglySorted_cons. split; [|by apply IH].
      rewrite insertDesc_Permutation. constructor; [lia|done].
    + apply Z.ltb_ge in Hxy. apply StronglySorted_cons. split.
      * constructor; [done|]. eapply Forall_impl; [exact Hy|]. intros; cbn in *; lia.
      * by apply StronglySorted_cons.
Qed.

Lemma sortDesc_descending l : descending key (sortDesc key l).
Proof.
  induction l as [|x l IH]; cbn; [constructor|]. by apply insertDesc_descending.
Qed.

(** Insertion moves [x] only past elements of a larger key, so within each
    key the order is the one of the input. *)
Lemma insertDesc_ofKey p x l :
  ofKey key p (insertDesc key x l) = ofKey key p (x :: l).
Proof.
  unfold ofKey. induction l as [|y l IH]; cbn; [done|].
  destruct (key x <? key y)%Z eqn:Hxy; [|done].
  apply Z.ltb_lt in Hxy. rewrite (filter_cons _ y), IH, !filter_cons.
  repeat case_decide; try done; lia.
Qed.

Lemma sortDesc_ofKey p l : ofKey key p (sortDesc key l) = ofKey key p l.
Proof.
  induction l as [|x l IH]; [done|].
  unfold sortDesc. cbn [foldr]. fold (sortDesc key l).
  rewrite insertDesc_ofKey. unfold ofKey in *. by rewrite !filter_cons, IH.
Qed.

(** A descending list is determined by its elements of each key: there is
    only one stable descending arrangement of a list, and [sortDesc]
    computes it. *)
Lemma descending_ofKey_eq l1 l2 :
  descending key l1 -> descending key l2 ->
  (forall p, ofKey key p l1 = ofKey key p l2) -> l1 = l2.
Proof.
  unfold descending, ofKey. revert l2.
  induction l1 as [|x l1 IH]; intros l2 H1 H2 Heq.
  - destruct l2 as [|y l2]; [done|].
    specialize (Heq (key y)). rewrite filter_cons_True in Heq by done. done.
  - destruct l2 as [|y l2].
    { specialize (Heq (key x)). rewrite filter_cons_True in Heq by done. done. }
    apply StronglySorted_cons in H1 as [Hx H1].
    apply StronglySorted_cons in H2 as [Hy H2].
    assert (x ∈ filter (fun a => key a = key x) (y :: l2)) as Hxin.
    { rewrite <- Heq, filter_cons_True by done. by left. }
    apply list_elem_of_filter in Hxin as [_ Hxin].
    assert (y ∈ filter (fun a => key a = key y) (x :: l1)) as Hyin.
    { rewrite Heq, filter_cons_True by done. by left. }
    apply list_elem_of_filter in Hyin as [_ Hyin].
    assert (key x = key y) as Hk.
    { apply elem_of_cons in Hxin as [->|Hxin]; [done|].
      apply elem_of_cons in Hyin as [->|Hyin]; [done|].
      rewrite Forall_forall in Hx, Hy.
      pose proof (Hx _ Hyin). pose proof (Hy _ Hxin). lia. }
    pose proof (Heq (key x)) as Hhead.
    rewrite !filter_cons_True in Hhead by done.
    injection Hhead as -> Hhead. f_equal. apply IH; [done..|].
    intros p. specialize (Heq p). rewrite !filter_cons in Heq.
    case_decide; [by injection Heq|done].
Qed.

Lemma sortDesc_unique l l' :
  descending key l' -> (forall p, ofKey key p l' = ofKey key p l) ->
  l' = sortDesc key l.
Proof.
  intros Hd Hs. apply descending_ofKey_eq; [done|apply sortDesc_descending|].
  intros p. by rewrite sortDesc_ofKey.
Qed.
End SortFacts.

(** ** Registering directories *)
Module DirectoryFacts.
Import ServerManager.

Lemma pushNew_idem dir l : pushNew dir (pushNew dir l) = pushNew dir l.
Proof.
  unfold pushNew. destruct (bool_decide (dir ∈ l)) eqn:H.
  - by rewrite H.
  - rewrite bool_decide_eq_true_2; [done|]. set_solver.
Qed.

Lemma pushNew_NoDup dir l : NoDup l -> NoDup (pushNew dir l).
Proof.
  intros Hl. unfold pushNew. case_bool_decide as H; [done|].
  apply NoDup_app. split_and!; [done| |apply NoDup_singleton].
  intros x Hx ->%list_elem_of_singleton. done.
Qed.

Section Facts.
Context (isAbsolute : string -> bool).

Lemma add_relative k dir s :
  isAbsolute dir = false ->
  add isAbsolute k dir s = (s, [], Throw (Error "Provided path was not absolute.")).
Proof.
  intros H. destruct k; cbn;
    unfold addRouteDirectory, addUseDirectory, addStaticDirectory, addVhostDirectory;
    by rewrite H.
Qed.

Lemma add_absolute k dir s :
  isAbsolute dir = true ->
  run_result (add isAbsolute k dir s) = Ok tt /\
  directories k (run_state (add isAbsolute k dir s)) = pushNew dir (directories k s) /\
  (forall k', k' <> k ->
     directories k' (run_state (add isAbsolute k dir s)) = directories k' s).
Proof.
  intros H. destruct k; cbn;
    unfold addRouteDirectory, addUseDirectory, addStaticDirectory, addVhostDirectory;
    rewrite H; cbn; (split_and!; [done|done|]); by intros [].
Qed.

Lemma add_twice k dir s :
  isAbsolute dir = true ->
  run_state (add isAbsolute k dir (run_state (add isAbsolute k dir s)))
  = run_state (add isAbsolute k dir s).
Proof.
  intros H. destruct s. destruct k; cbn;
    unfold addRouteDirectory, addUseDirectory, addStaticDirectory, addVhostDirectory;
    rewrite H; run; unfold set_routeDirectories, set_useDirectories,
      set_staticDirectories, set_vhostDirectories; cbn; by rewrite pushNew_idem.
Qed.

Lemma add_NoDup k dir s :
  (forall k', NoDup (directories k' s)) ->
  forall k', NoDup (directories k' (run_state (add isAbsolute k dir s))).
Proof.
  intros Hs k'. destruct (isAbsolute dir) eqn:H.
  - destruct (add_absolute k dir s H) as (_ & Hk & Hother).
    destruct (decide (k' = k)) as [->|Hne].
    + rewrite Hk. by apply pushNew_NoDup.
    + by rewrite Hother.
  - by rewrite add_relative.
Qed.

Lemma addAll_NoDup ops s :
  (forall k, NoDup (directories k s)) ->
  forall k, NoDup (directories k (addAll isAbsolute ops s)).
Proof.
  revert s. induction ops as [|[k dir] ops IH]; intros s Hs; [done|].
  cbn. apply IH. by apply add_NoDup.
Qed.

(** C10.  Each of the four registration methods throws on a path that is
    not absolute and leaves the manager as it was; on an absolute path,
    registering a directory twice gives the state of registering it once;
    and after any sequence of registrations on a new manager no list holds
    a directory twice. *)
Theorem add_directory_checked_idempotent k dir s ops :
  (isAbsolute dir = false ->
     add isAbsolute k dir s
     = (s, [], Throw (Error "Provided path was not absolute."))) /\
  (isAbsolute dir = true ->
     run_result (add isAbsolute k dir s) = Ok tt /\
     run_state (add isAbsolute k dir (run_state (add isAbsolute k dir s)))
     = run_state (add isAbsolute k dir s)) /\
  NoDup (directories k (addAll isAbsolute ops new)).
Proof.
  split_and!.
  - apply add_relative.
  - intros H. split; [by apply add_absolute | by apply add_twice].
  - apply addAll_NoDup. intros []; cbn; constructor.
Qed.
End Facts.
End DirectoryFacts.

(** ** The reverse proxy *)
Module JsStringFacts.
Import JsString.

Lemma app_cons c s1 s2 : String c s1 +:+ s2 = String c (s1 +:+ s2).
Proof. reflexivity. Qed.

Lemma app_empty s : "" +:+ s = s.
Proof. reflexivity. Qed.

Lemma prefix_drop pat s :
  String.prefix pat s = true -> s = pat +:+ drop (String.length pat) s.
Proof.
  revert s. induction pat as [|c pat IH]; intros s H; [done|].
  destruct s as [|d s]; [done|]. cbn in H.
  destruct (ascii_dec c d) as [->|]; [|done].
  rewrite app_cons. cbn [String.length drop]. f_equal. by apply IH.
Qed.

Lemma prefix_app pat s : String.prefix pat (pat +:+ s) = true.
Proof.
  induction pat as [|c pat IH]; [by destruct s|].
  rewrite app_cons. cbn. by destruct (ascii_dec c c).
Qed.

Lemma splitAtFirst_unfold pat s :
  splitAtFirst pat s
  = if String.prefix pat s then Some ("", drop (String.length pat) s)
    else match s with
         | EmptyString => None
         | String c s' =>
             match splitAtFirst pat s' with
             | Some (before, after) => Some (String c before, after)
             | None => None
             end
         end.
Proof. by destruct s. Qed.

Lemma splitAtFirst_Some pat s before after :
  splitAtFirst pat s = Some (before, after) -> s = before +:+ pat +:+ after.
Proof.
  revert before. induction s as [|c s IH]; intros before;
    rewrite splitAtFirst_unfold;
    destruct (String.prefix pat _) eqn:Hp;
    try (intros [= <- <-]; by apply prefix_drop in Hp); try done.
  destruct (splitAtFirst pat s) as [[b a]|]; [|done].
  intros [= <- <-]. rewrite app_cons. f_equal. by apply IH.
Qed.

Lemma splitAtFirst_None pat s : splitAtFirst pat s = None -> ~ occurs pat s.
Proof.
  induction s as [|c s IH]; rewrite splitAtFirst_unfold;
    destruct (String.prefix pat _) eqn:Hp; try done.
  - intros _ (b & a & H). destruct b; [|done]. rewrite app_empty in H.
    rewrite H, prefix_app in Hp. done.
  - destruct (splitAtFirst pat s) as [[b a]|] eqn:Hs; [done|].
    intros _ (b & a & H). destruct b as [|d b].
    + rewrite app_empty in H. rewrite H, prefix_app in Hp. done.
    + rewrite app_cons in H. injection H as -> H.
      apply IH; [done|]. by exists b, a.
Qed.

(** A string without the pattern is returned as it is. *)
Lemma replace_absent s pat replacement :
  ~ occurs pat s -> replace s pat replacement = s.
Proof.
  intros H. unfold replace.
  destruct (splitAtFirst pat s) as [[b a]|] eqn:Hs; [|done].
  destruct H. exists b, a. by apply splitAtFirst_Some.
Qed.

Lemma getSubstitution_plain matched before after template :
  plain template = true ->
  getSubstitution matched before after template = template.
Proof.
  induction template as [|c t IH]; [done|]. cbn.
  destruct (Ascii.eqb c "$"); [done|]. cbn. intros H. by rewrite IH.
Qed.

(** With the pattern present and no [$] in the replacement, the text around
    the leftmost occurrence is kept and that one occurrence is replaced. *)
Lemma replace_leftmost s pat replacement before after :
  splitAtFirst pat s = Some (before, after) ->
  plain replacement = true ->
  s = before +:+ pat +:+ after /\
  replace s pat replacement = before +:+ replacement +:+ after.
Proof.
  intros Hs Hp. split; [by apply splitAtFirst_Some|].
  unfold replace. by rewrite Hs, getSubstitution_plain.
Qed.
End JsStringFacts.

Module ProxyRouteFacts.
Import DatabaseManager ProxyRoute.

Lemma elem_of_keys (headers : gmap string HeaderValue) k :
  k ∈ keys headers <-> is_Some (headers !! k).
Proof.
  unfold keys. rewrite list_elem_of_fmap. split.
  - intros ([k' v] & -> & H). apply elem_of_map_to_list in H. by exists v.
  - intros [v H]. exists (k, v). split; [done|]. by apply elem_of_map_to_list.
Qed.

Lemma rewriteHeader_lookup localname hostname (headers : gmap string HeaderValue) x k :
  rewriteHeader localname hostname headers x !! k
  = if decide (k = x) then rewriteValue localname hostname <$> headers !! k
    else headers !! k.
Proof.
  unfold rewriteHeader. destruct (decide (k = x)) as [->|Hne].
  - destruct (headers !! x) as [[s|n|l]|] eqn:H; rewrite ?lookup_insert_eq, ?H; done.
  - destruct (headers !! x) as [[s|n|l]|] eqn:H; rewrite ?lookup_insert_ne; done.
Qed.

Lemma foldl_rewriteHeader_lookup localname hostname ks
    (headers : gmap string HeaderValue) k :
  NoDup ks ->
  foldl (rewriteHeader localname hostname) headers ks !! k
  = if decide (k ∈ ks) then rewriteValue localname hostname <$> headers !! k
    else headers !! k.
Proof.
  revert headers. induction ks as [|x ks IH]; intros headers Hnd; [done|].
  apply NoDup_cons in Hnd as [Hx Hnd]. cbn [foldl].
  rewrite (IH _ Hnd), !rewriteHeader_lookup.
  destruct (decide (k = x)) as [->|Hne].
  - rewrite decide_False by done. rewrite decide_True by (by left). done.
  - destruct (decide (k ∈ ks)).
    + rewrite decide_True by (by right). done.
    + rewrite decide_False by (by intros [?|?]%elem_of_cons). done.
Qed.

(** The decorator rewrites each value on its own: string values go
    through [replace], the others are kept, and no key is added or lost. *)
Lemma userResHeaderDecorator_lookup localname hostname
    (headers : gmap string HeaderValue) k :
  userResHeaderDecorator localname hostname headers !! k
  = rewriteValue localname hostname <$> headers !! k.
Proof.
  unfold userResHeaderDecorator.
  rewrite foldl_rewriteHeader_lookup by apply NoDup_fst_map_to_list.
  destruct (decide (k ∈ keys headers)) as [|Hn]; [done|].
  rewrite elem_of_keys in Hn. by destruct (headers !! k) as [v|]; [destruct Hn|].
Qed.

(** A string value in which the backend name does not occur is unchanged. *)
Lemma header_without_backend_kept localname hostname
    (headers : gmap string HeaderValue) k v :
  headers !! k = Some (HString v) -> ~ JsString.occurs localname v ->
  userResHeaderDecorator localname hostname headers !! k = Some (HString v).
Proof.
  intros H Hn. rewrite userResHeaderDecorator_lookup, H. cbn.
  by rewrite JsStringFacts.replace_absent.
Qed.

(** A value that is not a string is passed through. *)
Lemma header_not_string_kept localname hostname
    (headers : gmap string HeaderValue) k v :
  headers !! k = Some v -> (forall s, v <> HString s) ->
  userResHeaderDecorator localname hostname headers !! k = Some v.
Proof.
  intros H Hn. rewrite userResHeaderDecorator_lookup, H.
  destruct v; cbn; [by destruct (Hn s)|done..].
Qed.

(** C2.  For a host without a row in [mappings] the middleware calls
    [next()] and then, having no [return], reads [localname.localhost] of
    [undefined]: the call ends in a [TypeError] after the continuation has
    run. *)
Theorem middleware_unmapped_calls_next_then_throws host w db :
  ready w = true ->
  handle w = Ok db ->
  selectLocalhost db host = None ->
  middleware host w
  = (w,
     [Opened (db_file db); Closed (db_file db); User Next],
     Throw (TypeError "Cannot read properties of undefined (reading 'localhost')")).
Proof.
  intros Hr Hh Hsel. unfold middleware.
  rewrite !mbind_bind.
  erewrite bind_Ok
    by (rewrite (DatabaseManagerFacts.operation_query
                   (fun db => selectLocalhost db host) w db Hr Hh),
          Hsel; reflexivity).
  reflexivity.
Qed.

(** For a mapped host the request is handed to the proxy and [next()] is
    not called. *)
Lemma middleware_mapped host w db row :
  ready w = true ->
  handle w = Ok db ->
  selectLocalhost db host = Some row ->
  exists decorator,
    middleware host w
    = (w,
       [Opened (db_file db); Closed (db_file db);
        User (Proxy (localhost row) decorator)],
       Ok tt) /\
    decorator = userResHeaderDecorator (localhost row) host.
Proof.
  intros Hr Hh Hsel. eexists. split; [|reflexivity].
  unfold middleware. rewrite !mbind_bind.
  erewrite bind_Ok
    by (rewrite (DatabaseManagerFacts.operation_query
                   (fun db => selectLocalhost db host) w db Hr Hh),
          Hsel; reflexivity).
  reflexivity.
Qed.
End ProxyRouteFacts.

(** ** The priority merge *)
Module MergeFacts.
Import ServerManager.

Lemma filter_map_inj {A B} (f : A -> B) (P : B -> Prop)
    `{!forall b, Decision (P b)} (l : list A) :
  filter P (map f l) = map f (filter (fun a => P (f a)) l).
Proof.
  induction l as [|a l IH]; [done|]. cbn [map].
  rewrite !filter_cons, IH. by case_decide.
Qed.

(** Within one priority the merged sequence has the routes first, then
    the middleware entries, each group in its order of arrival. *)
Lemma mergeByPriority_ofKey cache toLoad allUses p :
  ofKey (priorityOf cache) p (mergeByPriority cache toLoad allUses)
  = map ARoute (filter (fun r => route_priority r = p) toLoad)
    ++ map AUse (filter (fun h => priorityOf cache (AUse h) = p) allUses).
Proof.
  unfold mergeByPriority. rewrite sortDesc_ofKey. unfold ofKey.
  by rewrite filter_app, !filter_map_inj.
Qed.

(** C3.  The merged sequence holds the routes and the middleware entries
    and nothing else, it is in descending priority order, and the sort is
    stable: the entries of any one priority are the routes of that
    priority in their scan order followed by the middleware entries of
    that priority in the order they were resolved. *)
Theorem mergeByPriority_descending_stable cache toLoad allUses :
  mergeByPriority cache toLoad allUses ≡ₚ map ARoute toLoad ++ map AUse allUses /\
  descending (priorityOf cache) (mergeByPriority cache toLoad allUses) /\
  forall p,
    ofKey (priorityOf cache) p (mergeByPriority cache toLoad allUses)
    = map ARoute (filter (fun r => route_priority r = p) toLoad)
      ++ map AUse (filter (fun h => priorityOf cache (AUse h) = p) allUses).
Proof.
  split_and!.
  - apply sortDesc_Permutation.
  - apply sortDesc_descending.
  - apply mergeByPriority_ofKey.
Qed.

(** A route precedes every middleware entry of its own priority. *)
Corollary route_before_use_on_tie cache toLoad allUses r h :
  r ∈ toLoad -> h ∈ allUses ->
  priorityOf cache (AUse h) = route_priority r ->
  exists l1 l2 l3,
    ofKey (priorityOf cache) (route_priority r)
          (mergeByPriority cache toLoad allUses)
    = l1 ++ ARoute r :: l2 ++ AUse h :: l3.
Proof.
  intros Hr Hh Hp. rewrite mergeByPriority_ofKey.
  assert (r ∈ filter (fun r' => route_priority r' = route_priority r) toLoad) as Hr'
    by by apply list_elem_of_filter.
  assert (h ∈ filter (fun h' => priorityOf cache (AUse h') = route_priority r) allUses)
    as Hh' by by apply list_elem_of_filter.
  apply list_elem_of_split in Hr' as (r1 & r2 & ->).
  apply list_elem_of_split in Hh' as (h1 & h2 & ->).
  exists (map ARoute r1), (map ARoute r2 ++ map AUse h1), (map AUse h2).
  rewrite !map_app. cbn [map]. by rewrite <- !app_assoc.
Qed.
End MergeFacts.

(** ** Registration and the mount point *)
Module RegistrationFacts.
Import ServerManager.

Lemma positivePrefix_split cache toLoad :
  positivePrefix cache toLoad ++ fromFirstNonPositive cache toLoad = toLoad.
Proof.
  induction toLoad as [|x l IH]; [done|]. cbn.
  destruct (priorityOf cache x <=? 0)%Z; [done|]. cbn. by rewrite IH.
Qed.

Lemma positivePrefix_positive cache toLoad :
  Forall (fun x => (0 < priorityOf cache x)%Z) (positivePrefix cache toLoad).
Proof.
  induction toLoad as [|x l IH]; cbn; [constructor|].
  destruct (priorityOf cache x <=? 0)%Z eqn:H; constructor; [|done].
  apply Z.leb_gt in H. lia.
Qed.

Lemma fromFirstNonPositive_head cache toLoad :
  match fromFirstNonPositive cache toLoad with
  | [] => True
  | x :: _ => (priorityOf cache x <= 0)%Z
  end.
Proof.
  induction toLoad as [|x l IH]; cbn; [done|].
  destruct (priorityOf cache x <=? 0)%Z eqn:H; [|done]. by apply Z.leb_le.
Qed.

Lemma filter_none {A} (P : A -> Prop) `{!forall a, Decision (P a)} (l : list A) :
  Forall (fun a => ~ P a) l -> filter P l = [].
Proof.
  induction 1 as [|a l Ha _ IH]; [done|]. by rewrite filter_cons_False.
Qed.

Lemma filter_all {A} (P : A -> Prop) `{!forall a, Decision (P a)} (l : list A) :
  Forall P l -> filter P l = l.
Proof.
  induction 1 as [|a l Ha _ IH]; [done|]. by rewrite filter_cons_True, IH.
Qed.

Lemma plainLayers_no_mount cache x :
  Forall (fun l => isMount l = false) (plainLayers cache x).
Proof.
  destruct x as [r|h]; cbn; [|by repeat constructor].
  apply Forall_app. split.
  - apply Forall_forall. intros l (d & -> & _)%list_elem_of_fmap. done.
  - unfold methodLayers. apply Forall_forall. intros l Hl.
    apply list_elem_of_In, in_flat_map in Hl as (m & _ & Hl).
    destruct (methodFunction _ m); [|done].
    apply list_elem_of_In, list_elem_of_singleton in Hl as ->. done.
Qed.

Lemma flat_map_plainLayers_no_mount cache xs :
  Forall (fun l => ~ isMount l = true) (flat_map (plainLayers cache) xs).
Proof.
  apply Forall_forall. intros l Hl.
  apply list_elem_of_In, in_flat_map in Hl as (x & _ & Hx).
  pose proof (plainLayers_no_mount cache x) as Hno.
  rewrite Forall_forall in Hno. apply list_elem_of_In in Hx.
  by rewrite (Hno _ Hx).
Qed.

Section Facts.
Context (generate : nat -> string) (prefix pathPrefix routerID : string).
Implicit Types (lv : Level) (s : State).

Abbreviation registerPlain' := (registerPlain prefix pathPrefix routerID).
Abbreviation registerLoadable' := (registerLoadable generate prefix pathPrefix routerID).
Abbreviation mountSubrouters' := (mountSubrouters generate prefix pathPrefix routerID).

(** Registering a route or a middleware entry returns, leaves the state
    alone, does not touch [dirScanned], and appends [plainLayers]. *)
Lemma registerRoute_methods r lv valid s :
  exists t lv',
    foldM (fun lv method =>
             log debug ("Loading method " +:+ method +:+ " for " +:+ filename r);;
             match methodFunction (route_object r) method with
             | None =>
                 log debug ("Skipping method " +:+ method +:+ " as it is not a function");;
                 mret lv
             | Some fn =>
                 let lv := addLayers [LMethod method (default "" (path (route_object r))) fn] lv in
                 log debug ("Loaded method " +:+ method +:+ " for " +:+ filename r
                              +:+ " at " +:+ prefix +:+ default "" (path (route_object r))
                              +:+ " on router " +:+ routerID);;
                 mret (addStackEntry
                         (SRoute (path (route_object r)) (filename r) (route_priority r)
                                 (validMethods r)) lv)
             end) lv valid s
    = (s, t, Ok lv') /\
    layers lv' = layers lv ++ methodLayers (route_object r) valid /\
    dirScanned lv' = dirScanned lv.
Proof.
  revert lv. induction valid as [|m valid IH]; intros lv.
  - exists [], lv. by rewrite app_nil_r.
  - cbn [foldM]. unfold log. run.
    destruct (methodFunction (route_object r) m) as [fn|] eqn:Hm.
    + edestruct IH as (t & lv' & -> & Hl & Hd). eexists _, lv'.
      split; [reflexivity|]. rewrite Hl, Hd. cbn. rewrite Hm. cbn.
      by rewrite <- app_assoc.
    + edestruct IH as (t & lv' & -> & Hl & Hd). eexists _, lv'.
      split; [reflexivity|]. rewrite Hl, Hd. cbn. by rewrite Hm.
Qed.

Lemma registerPlain_run lv x s :
  exists t lv',
    registerPlain' lv x s = (s, t, Ok lv') /\
    layers lv' = layers lv ++ plainLayers (moduleCache s) x /\
    dirScanned lv' = dirScanned lv.
Proof.
  destruct x as [r|h]; cbn [registerPlain plainLayers].
  - unfold registerRoute. rewrite mbind_bind.
    edestruct (registerRoute_methods r
                 (addLayers (map LStatic (static (route_object r))) lv)
                 (validMethods r) s) as (t & lv' & Hrun & Hl & Hd).
    erewrite bind_Ok by exact Hrun. unfold log. run.
    eexists _, lv'. split; [reflexivity|]. rewrite Hl, Hd. cbn.
    by rewrite <- app_assoc.
  - unfold registerUse, log. run. eexists _, _. split; [reflexivity|]. done.
Qed.

Lemma foldM_registerPlain_run lv xs s :
  exists t lv',
    foldM registerPlain' lv xs s = (s, t, Ok lv') /\
    layers lv' = layers lv ++ flat_map (plainLayers (moduleCache s)) xs /\
    dirScanned lv' = dirScanned lv.
Proof.
  revert lv. induction xs as [|x xs IH]; intros lv.
  - exists [], lv. by rewrite app_nil_r.
  - cbn [foldM flat_map]. rewrite mbind_bind.
    destruct (registerPlain_run lv x s) as (t1 & lv1 & H1 & Hl1 & Hd1).
    destruct (IH lv1) as (t2 & lv2 & H2 & Hl2 & Hd2).
    erewrite bind_Ok by exact H1. rewrite H2.
    eexists _, lv2. split; [reflexivity|].
    rewrite Hl2, Hl1, Hd2, Hd1. by rewrite <- app_assoc.
Qed.

(** Without a mount to do, the loop body is the plain registration. *)
Lemma registerLoadable_no_mount q lv x s :
  dirScanned lv = true \/ (0 < priorityOf (moduleCache s) x)%Z ->
  registerLoadable' q lv x s = registerPlain' lv x s.
Proof.
  intros H. unfold registerLoadable. run.
  replace (negb (dirScanned lv) && (priorityOf (moduleCache s) x <=? 0)%Z)
    with false.
  2:{ destruct H as [->|H]; [done|].
      rewrite (proj2 (Z.leb_gt _ _)) by lia. by rewrite andb_false_r. }
  destruct (registerPlain' lv x s) as [[s' t] r]. done.
Qed.

Lemma registerLoadable_mount q lv x s :
  dirScanned lv = false -> (priorityOf (moduleCache s) x <= 0)%Z ->
  registerLoadable' q lv x s
  = bind (mountSubrouters' q lv) (fun lv => registerPlain' lv x) s.
Proof.
  intros Hd Hp. unfold registerLoadable. run.
  rewrite Hd, (proj2 (Z.leb_le _ _)) by done. cbn [negb andb].
  destruct (mountSubrouters' q lv s) as [[s1 t1] [lv1|e]]; [|done].
  destruct (registerPlain' lv1 x s1) as [[s2 t2] r]. done.
Qed.

Lemma foldM_registerLoadable_scanned q lv xs s :
  dirScanned lv = true ->
  foldM (registerLoadable' q) lv xs s = foldM registerPlain' lv xs s.
Proof.
  revert lv. induction xs as [|x xs IH]; intros lv Hd; [done|].
  cbn [foldM]. rewrite !mbind_bind. unfold bind.
  rewrite registerLoadable_no_mount by auto.
  destruct (registerPlain_run lv x s) as (t1 & lv1 & -> & _ & Hd1).
  rewrite IH by congruence. done.
Qed.

(** The mount block puts one [LMount] per queued subdirectory on the
    router, at [/<filepath>] and in queue order, and sets [dirScanned]. *)
Lemma foldM_mountSubrouter_ok q lv s s' t lv' :
  foldM (mountSubrouter generate prefix pathPrefix routerID) lv q s = (s', t, Ok lv') ->
  exists routers,
    length routers = length q /\
    layers lv' = layers lv ++ zip_with LMount (mountPaths q) routers /\
    dirScanned lv' = dirScanned lv.
Proof.
  revert lv s t. induction q as [|[[dir filepath] build] q IH]; intros lv s t H.
  - injection H as <- <- <-. exists []. by rewrite app_nil_r.
  - cbn [foldM] in H. apply bind_Ok_inv in H as (s1 & t1 & lv1 & t2 & H1 & H2 & ->).
    apply IH in H2 as (routers & Hlen & Hl & Hd).
    unfold mountSubrouter in H1.
    apply bind_Ok_inv in H1 as (s0 & t0 & newRouterID & t0' & _ & H1 & _).
    apply bind_Ok_inv in H1 as (s0' & t0'' & [childStructure newRouter] & t3 & _ & H1 & _).
    unfold log in H1. revert H1. run. intros [= <- <- <-].
    exists (newRouter :: routers). cbn. rewrite Hlen. split; [done|].
    rewrite Hl, Hd. cbn. by rewrite <- app_assoc.
Qed.

Lemma mountSubrouters_ok q lv s s' t lv' :
  mountSubrouters' q lv s = (s', t, Ok lv') ->
  exists routers,
    length routers = length q /\
    layers lv' = layers lv ++ zip_with LMount (mountPaths q) routers /\
    dirScanned lv' = true.
Proof.
  unfold mountSubrouters. intros H.
  apply bind_Ok_inv in H as (s1 & t1 & lv1 & t2 & H1 & H2 & ->).
  revert H2. run. intros [= <- <- <-].
  apply foldM_mountSubrouter_ok in H1 as (routers & ? & ? & ?).
  exists routers. done.
Qed.
(** The loop over [toLoad], entered with [dirScanned] unset: either no
    priority at or below 0 is met and nothing is mounted, or the mount block
    runs once, right before the first such element. *)
Lemma foldM_registerLoadable_ok q lv toLoad s s' t lvf :
  dirScanned lv = false ->
  foldM (registerLoadable' q) lv toLoad s = (s', t, Ok lvf) ->
  (fromFirstNonPositive (moduleCache s) toLoad = [] /\ s' = s /\
   dirScanned lvf = false /\
   layers lvf
   = layers lv ++ flat_map (plainLayers (moduleCache s))
                           (positivePrefix (moduleCache s) toLoad))
  \/
  (fromFirstNonPositive (moduleCache s) toLoad <> [] /\
   dirScanned lvf = true /\
   exists routers,
     length routers = length q /\
     layers lvf
     = layers lv
       ++ flat_map (plainLayers (moduleCache s)) (positivePrefix (moduleCache s) toLoad)
       ++ zip_with LMount (mountPaths q) routers
       ++ flat_map (plainLayers (moduleCache s'))
                   (fromFirstNonPositive (moduleCache s) toLoad)).
Proof.
  revert lv t. induction toLoad as [|x xs IH]; intros lv t Hd H.
  - injection H as <- <- <-. left. by rewrite app_nil_r.
  - cbn [foldM] in H.
    apply bind_Ok_inv in H as (s1 & t1 & lv1 & t2 & H1 & H2 & ->).
    cbn [positivePrefix fromFirstNonPositive].
    destruct (priorityOf (moduleCache s) x <=? 0)%Z eqn:Hp.
    + right. split; [done|]. apply Z.leb_le in Hp.
      rewrite registerLoadable_mount in H1 by done.
      apply bind_Ok_inv in H1 as (s0 & t0 & lv0 & t0' & Hm & Hx & ->).
      apply mountSubrouters_ok in Hm as (routers & Hlen & Hl0 & Hd0).
      destruct (registerPlain_run lv0 x s0) as (tx & lvx & Hx' & Hlx & Hdx).
      rewrite Hx' in Hx. injection Hx as <- _ <-.
      rewrite foldM_registerLoadable_scanned in H2 by congruence.
      destruct (foldM_registerPlain_run lvx xs s0) as (ts & lvs & Hs & Hls & Hds).
      rewrite Hs in H2. injection H2 as <- _ <-.
      split; [congruence|]. exists routers. split; [done|].
      rewrite Hls, Hlx, Hl0. cbn [flat_map app]. by rewrite <- !app_assoc.
    + apply Z.leb_gt in Hp.
      rewrite registerLoadable_no_mount in H1 by (right; lia).
      destruct (registerPlain_run lv x s) as (tx & lvx & Hx' & Hlx & Hdx).
      rewrite Hx' in H1. injection H1 as <- _ <-.
      destruct (IH lvx t2) as [(Hpost & -> & Hdf & Hlf)|(Hpost & Hdf & routers & Hlen & Hlf)];
        [congruence|done|..].
      * left. split_and!; [done..|]. rewrite Hlf, Hlx. cbn [flat_map].
        by rewrite <- !app_assoc.
      * right. split_and!; [done..|]. exists routers. split; [done|].
        rewrite Hlf, Hlx. cbn [flat_map]. by rewrite <- !app_assoc.
Qed.

(** When the registration of one directory level returns, the router
    holds, in this order: the layers of the leading elements of [toLoad]
    whose priority is above 0; one mounted child router per queued
    subdirectory, at [/<dirname>], in queue order; the layers of the
    remaining elements, the first of which (if any) has a priority at or
    below 0.  No other layer is a mount. *)
Lemma registerAll_layers q toLoad s s' t lv :
  registerAll generate prefix pathPrefix routerID q toLoad s = (s', t, Ok lv) ->
  exists routers,
    length routers = length q /\
    layers lv
    = flat_map (plainLayers (moduleCache s)) (positivePrefix (moduleCache s) toLoad)
      ++ zip_with LMount (mountPaths q) routers
      ++ flat_map (plainLayers (moduleCache s'))
                  (fromFirstNonPositive (moduleCache s) toLoad) /\
    filter (fun l => isMount l = true) (layers lv)
    = zip_with LMount (mountPaths q) routers /\
    Forall (fun x => (0 < priorityOf (moduleCache s) x)%Z)
           (positivePrefix (moduleCache s) toLoad) /\
    match fromFirstNonPositive (moduleCache s) toLoad with
    | [] => True
    | x :: _ => (priorityOf (moduleCache s) x <= 0)%Z
    end.
Proof.
  intros H.
  assert (exists routers,
    length routers = length q /\
    layers lv
    = flat_map (plainLayers (moduleCache s)) (positivePrefix (moduleCache s) toLoad)
      ++ zip_with LMount (mountPaths q) routers
      ++ flat_map (plainLayers (moduleCache s'))
                  (fromFirstNonPositive (moduleCache s) toLoad))
    as (routers & Hlen & Hl).
  { unfold registerAll in H.
    apply bind_Ok_inv in H as (s1 & t1 & lv1 & t1' & H1 & H & ->).
    apply bind_Ok_inv in H as (s2 & t2 & lv2 & t2' & H2 & H3 & ->).
    destruct toLoad as [|x xs].
    - apply mountSubrouters_ok in H1 as (routers & Hlen & Hl1 & Hd1).
      injection H2 as <- <- <-. rewrite Hd1 in H3. injection H3 as <- <- <-.
      exists routers. split; [done|]. rewrite Hl1. cbn. by rewrite app_nil_r.
    - injection H1 as <- <- <-.
      apply foldM_registerLoadable_ok in H2
        as [(Hpost & -> & Hd2 & Hl2)|(Hpost & Hd2 & routers & Hlen & Hl2)]; [| |done].
      + rewrite Hd2 in H3. cbn [negb] in H3.
        apply mountSubrouters_ok in H3 as (routers & Hlen & Hl3 & _).
        exists routers. split; [done|]. rewrite Hl3, Hl2, Hpost. cbn.
        by rewrite app_nil_r.
      + rewrite Hd2 in H3. injection H3 as <- <- <-.
        exists routers. split; [done|]. by rewrite Hl2. }
  exists routers. split_and!; [done|done| |apply positivePrefix_positive
                                |apply fromFirstNonPositive_head].
  rewrite Hl, !filter_app.
  rewrite !(filter_none _ (flat_map _ _)) by apply flat_map_plainLayers_no_mount.
  rewrite app_nil_r. cbn [app].
  apply filter_all. generalize (mountPaths q). clear.
  induction routers as [|r routers IH]; intros [|p ps]; cbn; constructor; auto.
Qed.

Lemma fromFirstNonPositive_nonpositive cache toLoad :
  descending (priorityOf cache) toLoad ->
  Forall (fun x => (priorityOf cache x <= 0)%Z) (fromFirstNonPositive cache toLoad).
Proof.
  unfold descending. induction toLoad as [|x l IH]; intros Hd; cbn; [constructor|].
  apply StronglySorted_cons in Hd as [Hx Hd].
  destruct (priorityOf cache x <=? 0)%Z eqn:Hp; [|by apply IH].
  apply Z.leb_le in Hp. constructor; [done|].
  eapply Forall_impl; [exact Hx|]. intros; cbn in *; lia.
Qed.
End Facts.

Section Level.
Context (fs : string -> option FsNode) (generate : nat -> string).

(** C4.  Whenever [#loadRoutes] returns for a directory level, the router
    it filled holds, in this order: the layers of the merged entries
    whose priority is above 0; one mounted child router per subdirectory,
    at [/<dirname>], in listing order; the layers of the merged entries
    whose priority is at or below 0.  The entries are the routes found by
    the scan merged with the middleware resolved for them.  No other
    layer is a mount, so the subrouters are mounted exactly once: right
    before the first entry at or below 0, after all entries when there is
    none, and on their own when the level has no entry. *)
Theorem subrouters_mounted_once
    scanDirectories prefix pathPrefix routerID innerLevel s s' t structure router :
  loadRoutes_scan fs generate scanDirectories prefix pathPrefix routerID innerLevel s
  = (s', t, Ok (structure, router)) ->
  exists s0 s1 t1 toLoad s2 t2 allUses routers,
    let cache := moduleCache s2 in
    let entries := mergeByPriority cache toLoad allUses in
    let mounts := zip_with LMount (mountPaths (subdirectories scanDirectories)) routers in
    scanRoutes scanDirectories s0 = (s1, t1, Ok toLoad) /\
    foldM (resolveUses fs) [] toLoad s1 = (s2, t2, Ok allUses) /\
    length routers = length (subdirectories scanDirectories) /\
    router
    = flat_map (plainLayers cache) (positivePrefix cache entries)
      ++ mounts
      ++ flat_map (plainLayers (moduleCache s')) (fromFirstNonPositive cache entries) /\
    filter (fun l => isMount l = true) router = mounts /\
    positivePrefix cache entries ++ fromFirstNonPositive cache entries = entries /\
    Forall (fun x => (0 < priorityOf cache x)%Z) (positivePrefix cache entries) /\
    Forall (fun x => (priorityOf cache x <= 0)%Z) (fromFirstNonPositive cache entries).
Proof.
  intros H. unfold loadRoutes_scan in H.
  apply bind_Ok_inv in H as (sa & ta & rid & ta' & _ & H & _).
  apply bind_Ok_inv in H as (sb & tb & toLoad & tb' & Hscan & H & _).
  apply bind_Ok_inv in H as (sc & tc & allUses & tc' & Huses & H & _).
  apply bind_Ok_inv in H as (sd & td & sd' & td' & Hget & H & _).
  injection Hget as <- _ <-.
  apply bind_Ok_inv in H as (se & te & lv & te' & Hreg & H & _).
  apply bind_Ok_inv in H as (sf & tf & [] & tf' & Hdump & H & _).
  injection H as <- _ <- <-.
  assert (sf = se) as -> by (destruct innerLevel; by injection Hdump).
  apply registerAll_layers in Hreg as (routers & Hlen & Hl & Hf & Hpos & _).
  exists sa, sb, tb, toLoad, sc, tc, allUses, routers. cbn zeta.
  split_and!; [done..|apply positivePrefix_split|done|].
  apply fromFirstNonPositive_nonpositive, sortDesc_descending.
Qed.
End Level.
End RegistrationFacts.

(** ** Scanning and resolving *)
Module ScanFacts.
Import ServerManager.

(** A file whose [require] throws: the error is logged with its stack, and
    the next statement, which reads [route.path], throws. *)
Lemma loadRoutes_file_load_failure toLoad filepath (e : DirEntry Builder) err s :
  JsString.afterLastDot filepath = "js" ->
  required e = Throw err ->
  loadRoutes_file toLoad (filepath, e) s
  = (s, [Log error (loadErrorMessage filepath err)],
     Throw (TypeError "Cannot read properties of undefined (reading 'path')")).
Proof.
  intros Hext Hreq. unfold loadRoutes_file. rewrite Hext, Hreq.
  rewrite bool_decide_eq_true_2 by done. reflexivity.
Qed.

(** The same in [#getUses], for a file that is not in the module cache. *)
Lemma getUses_file_load_failure dir toLoad filepath
    (e : DirEntry (M State Event unit)) err s :
  isDirectory e = false ->
  JsString.afterLastDot filepath = "js" ->
  required e = Throw err ->
  moduleCache s !! JsString.join dir filepath = None ->
  getUses_file dir toLoad (filepath, e) s
  = (s, [Log error (loadErrorMessage filepath err)],
     Throw (TypeError "Cannot read properties of undefined (reading 'run')")).
Proof.
  intros Hdir Hext Hreq Hc. unfold getUses_file, requireUse.
  rewrite Hdir, Hext, Hreq. rewrite bool_decide_eq_true_2 by done.
  unfold log. run. cbn [negb]. rewrite Hc. reflexivity.
Qed.

(** What [#getUses] returns for a name is in descending order of the
    priorities the modules have when it returns. *)
Lemma getUses_scan_descending scanDirectories s s' t toLoad :
  getUses_scan scanDirectories s = (s', t, Ok toLoad) ->
  descending (fun h => default 0%Z (use_priority (deref (moduleCache s') h))) toLoad.
Proof.
  unfold getUses_scan. intros H.
  apply bind_Ok_inv in H as (s1 & t1 & l & t2 & _ & H & _).
  revert H. run. intros [= <- _ <-]. apply sortDesc_descending.
Qed.

(** Below 2^53 in magnitude the decrement is exact. *)
Lemma decrement_exact x :
  (- JsNumber.maxSafeInteger <= x - 1)%Z -> (x <= JsNumber.maxSafeInteger)%Z ->
  JsNumber.decrement x = (x - 1)%Z.
Proof.
  unfold JsNumber.decrement, JsNumber.toDouble, JsNumber.maxSafeInteger.
  intros Hlo Hhi. change (2 ^ 53)%Z with 9007199254740992%Z.
  rewrite (proj2 (Z.leb_le _ _)) by lia. reflexivity.
Qed.

Section Resolve.
Context (fs : string -> option FsNode).

Lemma resolveUses_inline_loop specific fns fallback index allUses s :
  specific = None ->
  (- JsNumber.maxSafeInteger <= fallback - Z.of_nat (length fns))%Z ->
  (fallback <= JsNumber.maxSafeInteger)%Z ->
  foldM (fun '(fallbackPriority, specificPriorityIndex, allUses) use =>
           uses ← getUses fs use;
           match uses with
           | UsesThis =>
               throw (TypeError "Spread syntax requires ...iterable[Symbol.iterator] to be a function")
           | UsesArray uses =>
               '(fallbackPriority, specificPriorityIndex, uses) ←
                 foldM (assignPriority specific)
                       (fallbackPriority, specificPriorityIndex, []) uses;
               mret (fallbackPriority, specificPriorityIndex, allUses ++ uses)
           end)
        (fallback, index, allUses) (map UFunction fns) s
  = (s, [],
     Ok ((fallback - Z.of_nat (length fns))%Z, index + length fns,
         allUses ++ inlineUses fallback fns)).
Proof.
  intros ->. revert fallback index allUses.
  induction fns as [|f fns IH]; intros fallback index allUses Hlo Hhi.
  - cbn. rewrite app_nil_r, Z.sub_0_r, Nat.add_0_r. reflexivity.
  - cbn [length] in Hlo.
    cbn [map foldM]. rewrite mbind_bind. erewrite bind_Ok by reflexivity.
    rewrite decrement_exact by lia.
    rewrite IH by lia. cbn [inlineUses length].
    replace (fallback - 1 - Z.of_nat (length fns))%Z
      with (fallback - Z.of_nat (S (length fns)))%Z by lia.
    replace (S index + length fns) with (index + S (length fns)) by lia.
    rewrite <- (app_assoc allUses). reflexivity.
Qed.

(** With inline functions only and no [specificUsePriorities], the
    entries of a route get the priorities [start], [start - 1], ... in the
    order of its [use] array, where [start] is [startingUsePriority] when
    that is set and not 0, and -1 otherwise -- as long as the counter
    stays among the safe integers, where the decrement is exact. *)
Lemma resolveUses_inline allUses route fns s :
  use (route_object route) = map UFunction fns ->
  specificUsePriorities (route_object route) = None ->
  JsNumber.safeInteger (startingFallback (route_object route)) ->
  JsNumber.safeInteger
    (startingFallback (route_object route) - Z.of_nat (length fns)) ->
  resolveUses fs allUses route s
  = (s, [], Ok (allUses ++ inlineUses (startingFallback (route_object route)) fns)).
Proof.
  intros Huse Hspec [_ Hhi] [Hlo _]. unfold resolveUses. rewrite Huse, mbind_bind.
  erewrite bind_Ok by (by apply resolveUses_inline_loop). reflexivity.
Qed.
End Resolve.

(** The priorities of [inlineUses] go down by one at each step. *)
Lemma inlineUses_priorities start fns i h :
  inlineUses start fns !! i = Some h ->
  use_priority (deref ∅ h) = Some (start - Z.of_nat i)%Z.
Proof.
  revert start i. induction fns as [|f fns IH]; intros start i; [done|].
  destruct i as [|i]; cbn.
  - intros [= <-]. cbn. f_equal. lia.
  - intros H. rewrite (IH _ _ H). f_equal. lia.
Qed.
End ScanFacts.

(** ** Virtual hosts *)
Module VhostFacts.
Import ServerManager.

Section Facts.
Context (fs : string -> option FsNode) (generate : nat -> string)
        (vhostName : string -> option string) (basehostname : string).

Abbreviation vhostEntry' := (vhostEntry fs generate vhostName basehostname).
Abbreviation loadVhostsIn' := (loadVhostsIn fs generate vhostName basehostname).

Lemma loadVhostsIn_listing dir entries s :
  fs dir = Some (Dir entries) ->
  loadVhostsIn' dir s = for_of entries (vhostEntry' dir) s.
Proof.
  intros H. unfold loadVhostsIn. rewrite H. cbn [readdir]. run.
  by destruct (for_of entries (vhostEntry' dir) s) as [[s' t] r].
Qed.

Lemma loadVhosts_run s :
  loadVhosts fs generate vhostName basehostname s
  = for_of (vhostDirectories s) loadVhostsIn' s.
Proof.
  unfold loadVhosts. run.
  by destruct (for_of (vhostDirectories s) loadVhostsIn' s) as [[s' t] r].
Qed.

(** C8 (as amended).  The composer has no isolation between virtual
    hosts.  When the directories before [dir] and the entries of [dir]
    before [x] have been handled and the entry [x] throws, [#loadVhosts]
    ends there with that error: its final state and trace are the ones
    reached at the failure, so what was registered before stays and no
    entry after [x], in this directory or a later one, is built. *)
Theorem loadVhosts_stops_at_first_failure
    s dirs0 dir dirs pre x post s0 t0 s1 t1 s2 t2 e :
  vhostDirectories s = dirs0 ++ dir :: dirs ->
  for_of dirs0 loadVhostsIn' s = (s0, t0, Ok tt) ->
  fs dir = Some (Dir (pre ++ x :: post)) ->
  for_of pre (vhostEntry' dir) s0 = (s1, t1, Ok tt) ->
  vhostEntry' dir x s1 = (s2, t2, Throw e) ->
  loadVhosts fs generate vhostName basehostname s
  = (s2, t0 ++ t1 ++ t2, Throw e).
Proof.
  intros Hdirs H0 Hfs H1 H2. rewrite loadVhosts_run, Hdirs.
  apply (for_of_throw _ _ _ _ _ _ _ _ _ _ H0).
  rewrite (loadVhostsIn_listing _ _ _ Hfs).
  by apply (for_of_throw _ _ _ _ _ _ _ _ _ _ H1).
Qed.

(** When every directory is handled without an error, so is the whole
    scan. *)
Lemma loadVhosts_all_ok s s' t :
  for_of (vhostDirectories s) loadVhostsIn' s = (s', t, Ok tt) ->
  loadVhosts fs generate vhostName basehostname s = (s', t, Ok tt).
Proof. intros H. by rewrite loadVhosts_run. Qed.
End Facts.
End VhostFacts.

Module DatabaseManagerExamples.
Import DatabaseManager DatabaseManagerFacts Samples.

(** C9, as stated, fails on a manager that was never initialised: no handle
    is opened and the function does not run. *)
Lemma operation_before_init :
  operation countRows fresh
  = (fresh, [], Throw (Error "the database handler has not been initialised")).
Proof. reflexivity. Qed.

(** A function that throws after its first statement, on an initialised
    manager. *)
Lemma operation_opens_runs_closes_witness :
  operation failing started
  = (started,
     [Opened "/srv/databases/db.sqlite"; User "SELECT";
      Closed "/srv/databases/db.sqlite"],
     Throw (Error "no such table: mappings")).
Proof.
  apply (operation_opens_runs_closes failing started
           (MkConnection "/srv/databases/db.sqlite"
                         [MkRow "shop.example.com" "10.0.0.5:8080"]));
    reflexivity.
Defined.

Example operation_success :
  operation countRows started
  = (started,
     [Opened "/srv/databases/db.sqlite"; User "SELECT";
      Closed "/srv/databases/db.sqlite"],
     Ok 1).
Proof. reflexivity. Qed.

(** An initialised manager whose file cannot be opened: the error of the
    driver is the outcome, and the function does not run. *)
Example operation_on_unopenable_file :
  operation countRows (MkWorld true (Some "/tmp/db.sqlite") (disk confined))
  = (MkWorld true (Some "/tmp/db.sqlite") (disk confined), [], Throw cannotOpen).
Proof. reflexivity. Qed.
End DatabaseManagerExamples.

Module ServerManagerExamples.
Import ServerManager Samples.

Example site_scan :
  loadRoutes disk1 generateId "" "example.com" "" "" false (withRoutes "/srv/routes")
  = (set_draws 2 (withRoutes "/srv/routes"),
     [ Log info "b.js does not have a set priority and so will be set to a priority of 0";
       Log debug "Loading method get for a.js";
       Log debug "Loaded method get for a.js at example.com/x on router r0";
       Log info "Loaded a.js at example.com/x with priority 5 on router r0";
       Log info "Attaching router r1 to router r0 at /admin";
       Log debug "Loading method post for b.js";
       Log debug "Loaded method post for b.js at example.com/y on router r0";
       Log info "Loaded b.js at example.com/y with priority 0 on router r0";
       Dump (MkStructure "r0" "example.com"
               [MkStructure "r1" "example.com/admin" [] []]
               [SRoute (Some "/x") "a.js" 5 ["get"];
                SRoute (Some "/y") "b.js" 0 ["post"]]) ],
     Ok [LMethod "get" "/x" "get /x"; LMount "/admin" []; LMethod "post" "/y" "post /y"]).
Proof. vm_compute. reflexivity. Qed.

(** The sample level: [/x] with priority 5, the mount of [admin], then
    [/y] with priority 0. *)
Lemma subrouters_mounted_once_witness :
  exists s0 s1 t1 toLoad s2 t2 allUses routers,
    let cache := moduleCache s2 in
    let entries := mergeByPriority cache toLoad allUses in
    let mounts :=
      zip_with LMount
        (mountPaths (subdirectories
           [("/srv/routes", routesListing disk1 generateId "/srv/routes" siteRoutes)]))
        routers in
    scanRoutes
      [("/srv/routes", routesListing disk1 generateId "/srv/routes" siteRoutes)] s0
    = (s1, t1, Ok toLoad) /\
    foldM (resolveUses disk1) [] toLoad s1 = (s2, t2, Ok allUses) /\
    length routers
    = length (subdirectories
        [("/srv/routes", routesListing disk1 generateId "/srv/routes" siteRoutes)]) /\
    siteRouter
    = flat_map (plainLayers cache) (positivePrefix cache entries)
      ++ mounts
      ++ flat_map (plainLayers (moduleCache (run_state siteScan)))
                  (fromFirstNonPositive cache entries) /\
    filter (fun l => isMount l = true) siteRouter = mounts /\
    positivePrefix cache entries ++ fromFirstNonPositive cache entries = entries /\
    Forall (fun x => (0 < priorityOf cache x)%Z) (positivePrefix cache entries) /\
    Forall (fun x => (priorityOf cache x <= 0)%Z) (fromFirstNonPositive cache entries).
Proof.
  apply (RegistrationFacts.subrouters_mounted_once disk1 generateId
           [("/srv/routes", routesListing disk1 generateId "/srv/routes" siteRoutes)]
           "example.com" "" "" false (withRoutes "/srv/routes")
           (run_state siteScan) (run_trace siteScan) siteStructure siteRouter).
  vm_compute. reflexivity.
Defined.

Example registerAll_layers_sample :
  exists routers,
    length routers = length siteQueue /\
    layers siteLevel
    = flat_map (plainLayers ∅) (positivePrefix ∅ siteToLoad)
      ++ zip_with LMount (mountPaths siteQueue) routers
      ++ flat_map (plainLayers (moduleCache (run_state siteRun)))
                  (fromFirstNonPositive ∅ siteToLoad).
Proof.
  destruct (RegistrationFacts.registerAll_layers generateId "example.com" "" "r0"
              siteQueue siteToLoad (set_draws 1 (withRoutes "/srv/routes"))
              (run_state siteRun) (run_trace siteRun) siteLevel)
    as (routers & Hlen & Hl & _); [vm_compute; reflexivity|].
  by exists routers.
Qed.

Example site_level_layers :
  layers siteLevel
  = [LMethod "get" "/x" "get /x"; LMount "/admin" []; LMethod "post" "/y" "post /y"].
Proof. vm_compute. reflexivity. Qed.

(** C6 at a failing input.  [bad.js] throws while it loads: the error is
    logged, and then the scan itself throws, so [good.js] is never
    reached and nothing is registered. *)
Theorem load_failure_ends_the_scan :
  loadRoutes disk1 generateId "" "example.com" "" "" false (withRoutes "/srv/broken")
  = (set_draws 1 (withRoutes "/srv/broken"),
     [Log error (loadErrorMessage "bad.js" syntaxError)],
     Throw (TypeError "Cannot read properties of undefined (reading 'path')")).
Proof. vm_compute. reflexivity. Qed.

(** C7 at a failing input.  The module in the subdirectory is loaded (it is
    in the module cache afterwards) and is not in the returned array. *)
Theorem getUses_drops_subdirectories :
  run_result (getUses disk1 (UName "/srv/middleware") new)
  = Ok (UsesArray [Cached "/srv/middleware/auth.js"]) /\
  moduleCache (run_state (getUses disk1 (UName "/srv/middleware") new))
    !! "/srv/middleware/extra/audit.js"
  = Some (MkUseObject (Some "audit") (Some "audit") (Some 9%Z) None).
Proof. split; vm_compute; reflexivity. Qed.

(** C5 at a failing input.  With [startingUsePriority: 0] the two inline
    functions get the priorities -1 and -2, not 0 and -1. *)
Theorem zero_startingUsePriority_is_dropped :
  resolveUses disk1 [] zeroStart new
  = (new, [],
     Ok [ Inline (MkUseObject (Some "f") None (Some (-1)%Z) (Some "use"));
          Inline (MkUseObject (Some "g") None (Some (-2)%Z) (Some "use")) ]).
Proof. vm_compute. reflexivity. Qed.

(** Three inline functions from a starting priority of 10: the counter
    goes down twice between them. *)
Lemma resolveUses_inline_witness :
  resolveUses disk1 [] stacked new
  = (new, [],
     Ok ([] ++ inlineUses (startingFallback (route_object stacked)) ["f"; "g"; "h"])).
Proof.
  apply (ScanFacts.resolveUses_inline disk1 [] stacked ["f"; "g"; "h"] new);
    [reflexivity|reflexivity|
     unfold JsNumber.safeInteger, JsNumber.maxSafeInteger, startingFallback;
     simpl; lia..].
Defined.

Example stacked_priorities :
  inlineUses (startingFallback (route_object stacked)) ["f"; "g"; "h"]
  = [ Inline (MkUseObject (Some "f") None (Some 10%Z) (Some "use"));
      Inline (MkUseObject (Some "g") None (Some 9%Z) (Some "use"));
      Inline (MkUseObject (Some "h") None (Some 8%Z) (Some "use")) ].
Proof. reflexivity. Qed.

(** The route of the reverse proxy: its function is placed at 100. *)
Example proxy_priority :
  run_result (resolveUses disk1 [] proxyRoute new)
  = Ok [Inline (MkUseObject (Some "proxy") None (Some 100%Z) (Some "use"))].
Proof. reflexivity. Qed.

(** Past the safe integers the counter rounds: from 2^53 + 2 the loop
    hands out 2^53 + 2, then 2^53 (the double nearest to 2^53 + 1), then
    2^53 - 1. *)
Example towering_priorities :
  run_result (resolveUses disk1 [] towering new)
  = Ok [ Inline (MkUseObject (Some "f") None (Some 9007199254740994%Z) (Some "use"));
         Inline (MkUseObject (Some "g") None (Some 9007199254740992%Z) (Some "use"));
         Inline (MkUseObject (Some "h") None (Some 9007199254740991%Z) (Some "use")) ].
Proof. vm_compute. reflexivity. Qed.

(** Four modules listed with the priorities 1, 9, none and 5: the scan
    returns them as 9, 5, 1, 0. *)
Lemma getUses_scan_descending_witness :
  descending
    (fun h => default 0%Z (use_priority (deref (moduleCache (run_state rankedScan)) h)))
    [Cached "/srv/ranked/b-high.js"; Cached "/srv/ranked/d-late.js";
     Cached "/srv/ranked/a-low.js"; Cached "/srv/ranked/c-plain.js"].
Proof.
  apply (ScanFacts.getUses_scan_descending
           [("/srv/ranked", usesListing "/srv/ranked" rankedDir)] new
           (run_state rankedScan) (run_trace rankedScan)).
  vm_compute. reflexivity.
Defined.

Example ranked_priorities :
  map (fun h => use_priority (deref (moduleCache (run_state rankedScan)) h))
      [Cached "/srv/ranked/b-high.js"; Cached "/srv/ranked/d-late.js";
       Cached "/srv/ranked/a-low.js"; Cached "/srv/ranked/c-plain.js"]
  = [Some 9%Z; Some 5%Z; Some 1%Z; Some 0%Z].
Proof. vm_compute. reflexivity. Qed.

(** A directory named twice: both visits return the same two module
    objects, the second visit overwrites the priorities of the first, and
    the four entries no longer have decreasing priorities. *)
Example shared_modules_are_overwritten :
  let r := resolveUses disk1 [] twice new in
  run_result r
  = Ok [ Cached "/srv/pair/one.js"; Cached "/srv/pair/two.js";
         Cached "/srv/pair/one.js"; Cached "/srv/pair/two.js" ] /\
  (use_priority ∘ deref (moduleCache (run_state r))) <$>
    [ Cached "/srv/pair/one.js"; Cached "/srv/pair/two.js";
      Cached "/srv/pair/one.js"; Cached "/srv/pair/two.js" ]
  = [Some (-3)%Z; Some (-4)%Z; Some (-3)%Z; Some (-4)%Z].
Proof. split; vm_compute; reflexivity. Qed.

(** C8, as stated, fails: the tree of [blog] cannot be built (its route
    names a middleware directory that does not exist), the composer
    throws, and [shop], which builds when it is alone, is never built or
    registered. *)
Lemma failing_vhost_stops_the_others :
  run_result (loadVhosts disk1 generateId beforeMarker "example.com"
                         (withVhosts "/srv/vhosts"))
  = Throw (ENOENT "/srv/missing") /\
  app (run_state (loadVhosts disk1 generateId beforeMarker "example.com"
                             (withVhosts "/srv/vhosts"))) = [] /\
  app (run_state (loadVhosts disk1 generateId beforeMarker "example.com"
                             (withVhosts "/srv/shop")))
  = [LVhost "shop.example.com" siteRouter].
Proof. split_and!; vm_compute; reflexivity. Qed.
End ServerManagerExamples.

Module ProxyRouteExamples.
Import DatabaseManager ProxyRoute ProxyRouteFacts Samples.

(** C1 at a failing input.  A [Location] value that names the backend
    twice leaves the decorator with the second occurrence in place. *)
Theorem second_occurrence_is_kept :
  userResHeaderDecorator "10.0.0.5:8080" "shop.example.com" backendHeaders
    !! "Location"
  = Some (HString "http://shop.example.com/cart?back=http://10.0.0.5:8080/") /\
  JsString.occurs "10.0.0.5:8080"
                  "http://shop.example.com/cart?back=http://10.0.0.5:8080/".
Proof.
  split; [vm_compute; reflexivity|].
  by exists "http://shop.example.com/cart?back=http://", "/".
Qed.

Example single_occurrence_is_replaced :
  userResHeaderDecorator "10.0.0.5:8080" "shop.example.com" backendHeaders
    !! "Link"
  = Some (HString "<http://shop.example.com/cart>; rel=canonical").
Proof. vm_compute. reflexivity. Qed.

Example other_values_pass :
  userResHeaderDecorator "10.0.0.5:8080" "shop.example.com" backendHeaders
    !! "Set-Cookie"
  = Some (HArray ["sid=1; Domain=10.0.0.5:8080"]).
Proof. vm_compute. reflexivity. Qed.

(** [Server: nginx] does not name the backend. *)
Lemma header_without_backend_kept_witness :
  userResHeaderDecorator "10.0.0.5:8080" "shop.example.com" backendHeaders
    !! "Server"
  = Some (HString "nginx").
Proof.
  apply (header_without_backend_kept "10.0.0.5:8080" "shop.example.com"
           backendHeaders "Server" "nginx").
  - vm_compute. reflexivity.
  - apply JsStringFacts.splitAtFirst_None. vm_compute. reflexivity.
Defined.

(** [Content-Length] is a number. *)
Lemma header_not_string_kept_witness :
  userResHeaderDecorator "10.0.0.5:8080" "shop.example.com" backendHeaders
    !! "Content-Length"
  = Some (HNumber 120).
Proof.
  apply (header_not_string_kept "10.0.0.5:8080" "shop.example.com"
           backendHeaders "Content-Length" (HNumber 120)).
  - vm_compute. reflexivity.
  - intros s. discriminate.
Defined.

(** A host that is not in the table. *)
Lemma middleware_unmapped_witness :
  middleware "other.example.com" started
  = (started,
     [Opened "/srv/databases/db.sqlite"; Closed "/srv/databases/db.sqlite";
      User Next],
     Throw (TypeError "Cannot read properties of undefined (reading 'localhost')")).
Proof.
  apply (middleware_unmapped_calls_next_then_throws "other.example.com" started
           (MkConnection "/srv/databases/db.sqlite"
                         [MkRow "shop.example.com" "10.0.0.5:8080"]));
    reflexivity.
Defined.
End ProxyRouteExamples.

Module ManagerExamples.
Import ServerManager Samples.

(** The two sample hosts: the failure of [blog] is the outcome of the
    whole scan. *)
Lemma loadVhosts_stops_witness :
  loadVhosts disk1 generateId beforeMarker "example.com" (withVhosts "/srv/vhosts")
  = (set_draws 1 (withVhosts "/srv/vhosts"),
     [] ++ [] ++ [Log info "----- Loading routes for blog.example.com -----"],
     Throw (ENOENT "/srv/missing")).
Proof.
  apply (VhostFacts.loadVhosts_stops_at_first_failure
           disk1 generateId beforeMarker "example.com"
           (withVhosts "/srv/vhosts") [] "/srv/vhosts" []
           [] ("blog.{}", Dir [("routes", blogRoutes)])
           [("shop.{}", Dir [("routes", siteRoutes)])]
           (withVhosts "/srv/vhosts") [] (withVhosts "/srv/vhosts") []);
    vm_compute; reflexivity.
Defined.

(** Registering the relative path [routes] and the absolute path
    [/srv/routes] on a POSIX host. *)
Lemma add_directory_witness :
  (posix_isAbsolute "routes" = false ->
     add posix_isAbsolute Routes "routes" new
     = (new, [], Throw (Error "Provided path was not absolute."))) /\
  (posix_isAbsolute "routes" = true ->
     run_result (add posix_isAbsolute Routes "routes" new) = Ok tt /\
     run_state (add posix_isAbsolute Routes "routes"
                    (run_state (add posix_isAbsolute Routes "routes" new)))
     = run_state (add posix_isAbsolute Routes "routes" new)) /\
  NoDup (directories Routes
           (addAll posix_isAbsolute
                   [(Routes, "/srv/routes"); (Routes, "routes"); (Routes, "/srv/routes")]
                   new)).
Proof.
  apply (DirectoryFacts.add_directory_checked_idempotent posix_isAbsolute
           Routes "routes" new
           [(Routes, "/srv/routes"); (Routes, "routes"); (Routes, "/srv/routes")]).
Defined.

Example add_sequence :
  directories Routes
    (addAll posix_isAbsolute
            [(Routes, "/srv/routes"); (Routes, "routes"); (Routes, "/srv/routes");
             (Routes, "/srv/more")] new)
  = ["/srv/routes"; "/srv/more"].
Proof. vm_compute. reflexivity. Qed.
End ManagerExamples.

(** * Further properties *)

(** ** String replacement and file extensions *)
Module ReplaceFacts.
Import JsString JsStringFacts.

Lemma occurs_splitAtFirst pat s :
  occurs pat s -> exists before after, splitAtFirst pat s = Some (before, after).
Proof.
  intros H. destruct (splitAtFirst pat s) as [[b a]|] eqn:Hs; [by exists b, a|].
  by apply splitAtFirst_None in Hs.
Qed.

(** The occurrence that [splitAtFirst] finds is the leftmost one. *)
Lemma splitAtFirst_leftmost pat s before after :
  splitAtFirst pat s = Some (before, after) ->
  forall b a, s = b +:+ pat +:+ a -> String.length before <= String.length b.
Proof.
  revert before. induction s as [|c s IH]; intros before;
    rewrite splitAtFirst_unfold; destruct (String.prefix pat _) eqn:Hp.
  - intros [= <- <-] b a _. cbn. lia.
  - done.
  - intros [= <- <-] b a _. cbn. lia.
  - destruct (splitAtFirst pat s) as [[b0 a0]|] eqn:Hs; [|done].
    intros [= <- <-] b a Hsplit. destruct b as [|d b].
    + rewrite app_empty in Hsplit. rewrite Hsplit, prefix_app in Hp. done.
    + rewrite app_cons in Hsplit. injection Hsplit as -> Hsplit.
      cbn. apply le_n_S. by eapply IH.
Qed.

Lemma app_empty_r s : s +:+ "" = s.
Proof. induction s as [|c s IH]; [done|]. by rewrite app_cons, IH. Qed.

(** The replacement text [$&] stands for the matched text: replacing with
    it gives the string back. *)
Lemma replace_with_match s pat : replace s pat "$&" = s.
Proof.
  unfold replace. destruct (splitAtFirst pat s) as [[b a]|] eqn:Hs; [|done].
  apply splitAtFirst_Some in Hs. cbn. by rewrite app_empty_r.
Qed.

Lemma hasDot_app s1 s2 : hasDot (s1 +:+ s2) = hasDot s1 || hasDot s2.
Proof.
  induction s1 as [|c s1 IH]; [done|]. rewrite app_cons. cbn.
  by rewrite IH, orb_assoc.
Qed.

(** X5.  The extension test reads the text after the last dot: a name
    [base.ext] whose [ext] has no dot gives [ext], whatever dots [base]
    has; and a name without any dot is returned whole, so a file that is
    called just [js] passes the test for [.js] files. *)
Theorem afterLastDot_extension base ext :
  hasDot ext = false ->
  afterLastDot (base +:+ "." +:+ ext) = ext /\ afterLastDot ext = ext.
Proof.
  intros Hext. split.
  - induction base as [|c base IH].
    + rewrite app_empty. change ("." +:+ ext) with (String "." ext).
      cbn. by rewrite Hext.
    + rewrite app_cons. cbn.
      replace (hasDot (base +:+ "." +:+ ext)) with true; [done|].
      rewrite hasDot_app. change ("." +:+ ext) with (String "." ext).
      cbn. by rewrite orb_true_r.
  - destruct ext as [|c ext]; [done|]. cbn in *.
    apply orb_false_iff in Hext as [Hc Hext]. by rewrite Hext, Hc.
Qed.
End ReplaceFacts.

(** ** The header decorator and the middleware *)
Module ProxyMoreFacts.
Import DatabaseManager ProxyRoute ProxyRouteFacts.

Lemma userResHeaderDecorator_fmap localname hostname
    (headers : gmap string HeaderValue) :
  userResHeaderDecorator localname hostname headers
  = rewriteValue localname hostname <$> headers.
Proof.
  apply map_eq. intros k. by rewrite userResHeaderDecorator_lookup, lookup_fmap.
Qed.

(** X6.  The decorator never adds or drops a header: the result has the keys
    of the input. *)
Theorem userResHeaderDecorator_keeps_keys localname hostname
    (headers : gmap string HeaderValue) :
  dom (userResHeaderDecorator localname hostname headers) = dom headers.
Proof. rewrite userResHeaderDecorator_fmap. apply dom_fmap_L. Qed.

(** X7.  With no [$] in the external hostname, a string value that holds the
    backend name has its leftmost occurrence replaced by the hostname, and
    the text before and after that occurrence is kept. *)
Theorem leftmost_backend_replaced localname hostname
    (headers : gmap string HeaderValue) k v :
  headers !! k = Some (HString v) ->
  JsString.occurs localname v ->
  JsString.plain hostname = true ->
  exists before after,
    v = before +:+ localname +:+ after /\
    userResHeaderDecorator localname hostname headers !! k
    = Some (HString (before +:+ hostname +:+ after)) /\
    forall b a, v = b +:+ localname +:+ a ->
                String.length before <= String.length b.
Proof.
  intros Hk Hocc Hplain.
  destruct (ReplaceFacts.occurs_splitAtFirst _ _ Hocc) as (before & after & Hs).
  exists before, after.
  destruct (JsStringFacts.replace_leftmost v localname hostname before after Hs Hplain)
    as [Hv Hr].
  split_and!; [done| |by apply ReplaceFacts.splitAtFirst_leftmost with after].
  rewrite userResHeaderDecorator_lookup, Hk. cbn. by rewrite Hr.
Qed.

(** X8.  The hostname is used as a replacement pattern, not as plain text: when
    it is [$&], every match is put back and no header changes. *)
Theorem hostname_pattern_is_interpreted localname
    (headers : gmap string HeaderValue) :
  userResHeaderDecorator localname "$&" headers = headers.
Proof.
  rewrite userResHeaderDecorator_fmap. apply map_eq. intros k.
  rewrite lookup_fmap. destruct (headers !! k) as [[s|n|l]|]; cbn; try done.
  by rewrite ReplaceFacts.replace_with_match.
Qed.

(** X9.  With the manager not initialised, the middleware ends in the error of
    [operation]: it neither calls [next()] nor proxies. *)
Theorem middleware_before_init host w :
  ready w = false ->
  middleware host w
  = (w, [], Throw (Error "the database handler has not been initialised")).
Proof.
  intros Hr. unfold middleware. rewrite mbind_bind.
  erewrite bind_Throw; [reflexivity|].
  by apply DatabaseManagerFacts.operation_not_ready.
Qed.
End ProxyMoreFacts.

(** ** The database manager *)
Module DatabaseMoreFacts.
Import DatabaseManager.

(** On a ready manager whose file opens, the trace of [operation f] is
    the opening, the trace of [f], and the closing. *)
Lemma operation_trace {U A} (f : Connection -> M World (Event U) A) w db :
  ready w = true ->
  handle w = Ok db ->
  run_trace (operation f w)
  = Opened (db_file db) :: run_trace (f db w) ++ [Closed (db_file db)].
Proof.
  intros Hr Hh. apply DatabaseManagerFacts.handle_Ok in Hh as (rows & Hdisk & ->).
  unfold operation, connect, close. run. rewrite Hr. simpl.
  rewrite Hdisk. destruct (f _ w) as [[w1 t1] [a|e]]; cbn;
    by rewrite ?app_nil_r.
Qed.

(** [init] sets [#ready] before it opens the file for the first time:
    when the driver throws, the error leaves [init] and the manager stays
    ready, with the path recorded. *)
Lemma init_cannot_open {U} (exec : string -> U) p w e :
  p <> "" ->
  disk w p = Throw e ->
  init exec (Some p) w = (MkWorld true (Some p) (disk w), [], Throw e).
Proof.
  intros Hp Hdisk. destruct p as [|c p]; [done|].
  unfold init. rewrite !mbind_bind.
  erewrite bind_Ok by reflexivity. erewrite bind_Ok by reflexivity.
  cbn [app]. rewrite DatabaseManagerFacts.operation_cannot_open with (e := e); [done..|].
  unfold handle. cbn. by rewrite Hdisk.
Qed.

(** X10.  [init] with a path that the driver opens records the path,
    sets the manager ready and opens and closes the file once (there are
    no tables to create); from then on [operation] works on that file: it
    opens it, runs its function on the handle, and closes it, also when
    the function throws. *)
Theorem init_then_operation {U A} (exec : string -> U) p w rows
    (f : Connection -> M World (Event U) A) :
  p <> "" ->
  disk w p = Ok rows ->
  init exec (Some p) w
  = (MkWorld true (Some p) (disk w), [Opened p; Closed p], Ok tt) /\
  run_trace (operation f (run_state (init exec (Some p) w)))
  = Opened p
      :: run_trace (f (MkConnection p rows) (MkWorld true (Some p) (disk w)))
      ++ [Closed p].
Proof.
  intros Hp Hdisk.
  assert (handle (MkWorld true (Some p) (disk w)) = Ok (MkConnection p rows)) as Hh
    by (unfold handle; cbn; by rewrite Hdisk).
  assert (init exec (Some p) w
          = (MkWorld true (Some p) (disk w), [Opened p; Closed p], Ok tt)) as Hinit.
  { destruct p as [|c p]; [done|].
    unfold init, operation, connect, close, tableDefinitions. run. cbn.
    by rewrite Hdisk. }
  split; [done|]. rewrite Hinit. cbn [run_state fst].
  by rewrite (operation_trace f (MkWorld true (Some p) (disk w)) _ eq_refl Hh).
Qed.
End DatabaseMoreFacts.

(** ** Registered directories *)
Module DirectoryMoreFacts.
Import ServerManager DirectoryFacts.

Lemma elem_of_pushNew (x dir : string) l : x ∈ pushNew dir l <-> x = dir \/ x ∈ l.
Proof.
  unfold pushNew. case_bool_decide as H.
  - split; [auto|]. by intros [->|?].
  - rewrite elem_of_app, list_elem_of_singleton. tauto.
Qed.

Section Facts.
Context (isAbsolute : string -> bool).

Lemma elem_of_add k dir s k' x :
  x ∈ directories k' (run_state (add isAbsolute k dir s))
  <-> x ∈ directories k' s \/ (k' = k /\ x = dir /\ isAbsolute dir = true).
Proof.
  destruct (isAbsolute dir) eqn:Habs.
  - destruct (add_absolute isAbsolute k dir s Habs) as (_ & Hk & Hother).
    destruct (decide (k' = k)) as [->|Hne].
    + rewrite Hk, elem_of_pushNew. tauto.
    + rewrite Hother by done. tauto.
  - rewrite add_relative by done. cbn.
    split; [auto|]. intros [?|(_ & _ & ?)]; done.
Qed.

Lemma addAll_cons op ops s :
  addAll isAbsolute (op :: ops) s
  = addAll isAbsolute ops (run_state (add isAbsolute op.1 op.2 s)).
Proof. reflexivity. Qed.

Lemma elem_of_addAll ops s k x :
  x ∈ directories k (addAll isAbsolute ops s)
  <-> x ∈ directories k s \/ ((k, x) ∈ ops /\ isAbsolute x = true).
Proof.
  revert s. induction ops as [|[k' dir] ops IH]; intros s.
  - cbn. split; [auto|]. intros [?|[[]%elem_of_nil _]]. done.
  - rewrite addAll_cons, IH, elem_of_add, elem_of_cons. cbn. split.
    + intros [[?|(-> & -> & ?)]|[? ?]]; auto.
    + intros [?|[[[= -> ->]|?] ?]]; auto.
Qed.

(** X11.  After any sequence of registrations on a new manager, a list holds
    exactly the absolute paths that were registered for it: a relative
    path never enters a list, and an absolute one is never lost. *)
Theorem registered_iff_added_absolute ops k x :
  x ∈ directories k (addAll isAbsolute ops new)
  <-> (k, x) ∈ ops /\ isAbsolute x = true.
Proof.
  rewrite elem_of_addAll. split; [|auto].
  intros [H|H]; [|done]. destruct k; by apply elem_of_nil in H.
Qed.
End Facts.
End DirectoryMoreFacts.

(** ** The scan of route files *)
Module ScanMoreFacts.
Import ServerManager Descriptions.

(** A file that the scan handles without an error leaves the state as it
    is and either is skipped or adds one checked route. *)
Lemma loadRoutes_file_Ok toLoad filepath (e : DirEntry Builder) s s' t res :
  loadRoutes_file toLoad (filepath, e) s = (s', t, Ok res) ->
  s' = s /\
  (res = toLoad \/
   exists r, res = toLoad ++ [r] /\ checkedRoute r /\ filename r = filepath).
Proof.
  unfold loadRoutes_file, log.
  case_bool_decide as Hext; cbn [negb].
  2:{ intros [= <- _ <-]. auto. }
  destruct (required e) as [m|err]; run; [|done].
  destruct (noPath (asRoute m)) eqn:Hpath.
  { intros [= <- _ <-]. auto. }
  destruct (priority (asRoute m)) as [p|] eqn:Hprio; cbn;
    case_bool_decide as Hvalid; cbn; intros [= <- _ <-]; (split; [done|]);
    try (by left); right; eexists; (split; [reflexivity|]);
    unfold checkedRoute; cbn; rewrite ?Hprio; done.
Qed.

Lemma foldM_loadRoutes_file_Ok files toLoad s s' t res :
  foldM loadRoutes_file toLoad files s = (s', t, Ok res) ->
  Forall checkedRoute toLoad ->
  s' = s /\ Forall checkedRoute res.
Proof.
  revert toLoad s t. induction files as [|[filepath e] files IH];
    intros toLoad s t H Hvalid.
  - by injection H as <- _ <-.
  - cbn [foldM] in H. apply bind_Ok_inv in H as (s1 & t1 & l1 & t2 & H1 & H2 & _).
    apply loadRoutes_file_Ok in H1 as [-> Hres].
    eapply IH; [exact H2|].
    destruct Hres as [->|(r & -> & Hr & _)]; [done|].
    apply Forall_app. split; [done|]. by constructor.
Qed.

(** X12.  Whatever the scan of route files returns has passed the checks
    of [#loadRoutes]: every route it keeps has a path, a file name with
    the [js] extension, the priority of the file or 0, and a list of
    valid methods that is not empty. *)
Theorem scanRoutes_checked scanDirectories s s' t toLoad :
  scanRoutes scanDirectories s = (s', t, Ok toLoad) ->
  Forall checkedRoute toLoad.
Proof.
  unfold scanRoutes.
  assert (forall acc s t,
            foldM (fun toLoad '(dir, files) =>
                     match files with
                     | Throw e => throw e
                     | Ok files => foldM loadRoutes_file toLoad files
                     end) acc scanDirectories s = (s', t, Ok toLoad) ->
            Forall checkedRoute acc -> Forall checkedRoute toLoad) as Hgen.
  { clear. induction scanDirectories as [|[dir files] scan IH]; intros acc s t H Hacc.
    - by injection H as _ _ <-.
    - cbn [foldM] in H. apply bind_Ok_inv in H as (s1 & t1 & l1 & t2 & H1 & H2 & _).
      destruct files as [files|err]; [|done].
      apply foldM_loadRoutes_file_Ok in H1 as [_ Hl1]; [|done].
      by eapply IH. }
  intros H. by eapply Hgen.
Qed.

Lemma loadRoutes_file_returns toLoad filepath (e : DirEntry Builder) s :
  (JsString.afterLastDot filepath = "js" -> exists m, required e = Ok m) ->
  exists t res, loadRoutes_file toLoad (filepath, e) s = (s, t, Ok res).
Proof.
  intros Hload. unfold loadRoutes_file, log.
  case_bool_decide as Hext; cbn [negb]; [|by eexists _, _].
  destruct (Hload Hext) as [m ->]. run.
  destruct (noPath (asRoute m)); [by eexists _, _|].
  destruct (priority (asRoute m)); cbn; case_bool_decide; cbn; by eexists _, _.
Qed.

(** X13.  The scan of route files throws only when a directory cannot be
    read or a file cannot be loaded: when every listing is there and every
    [.js] file loads, it returns its list of routes. *)
Theorem scanRoutes_returns scanDirectories s :
  allLoad scanDirectories ->
  exists toLoad, run_result (scanRoutes scanDirectories s) = Ok toLoad.
Proof.
  unfold scanRoutes, allLoad. generalize (@nil Route). revert s.
  induction scanDirectories as [|[dir files] scan IH]; intros s acc Hall.
  - by eexists.
  - apply Forall_cons in Hall as [Hfiles Hall]. cbn in Hfiles.
    destruct files as [files|err]; [|done].
    assert (exists s1 t res, foldM loadRoutes_file acc files s = (s1, t, Ok res))
      as (s1 & t1 & res & H1).
    { clear -Hfiles. revert acc. induction files as [|[fp e] files IHf]; intros acc.
      - by eexists _, _, _.
      - apply Forall_cons in Hfiles as [Hf Hfiles].
        destruct (loadRoutes_file_returns acc fp e s Hf) as (t1 & r1 & H1).
        destruct (IHf Hfiles r1) as (s2 & t2 & r2 & H2).
        cbn [foldM]. rewrite mbind_bind. erewrite bind_Ok by exact H1.
        rewrite H2. by eexists _, _, _. }
    destruct (IH s1 res Hall) as (res2 & H2).
    cbn [foldM]. rewrite mbind_bind. erewrite bind_Ok by exact H1.
    destruct (foldM _ res scan s1) as [[s2 t2] r2]. cbn in *. by exists res2.
Qed.
End ScanMoreFacts.

(** ** Priorities of inline middleware *)
Module PriorityFacts.
Import ServerManager Descriptions.

Section Facts.
Context (fs : string -> option FsNode).

(** The body of [for (const use of route.use.flat())]. *)
Abbreviation useStep specific :=
  (fun '(fallbackPriority, specificPriorityIndex, allUses) use =>
     uses ← getUses fs use;
     match uses with
     | UsesThis =>
         throw (TypeError "Spread syntax requires ...iterable[Symbol.iterator] to be a function")
     | UsesArray uses =>
         '(fallbackPriority, specificPriorityIndex, uses) ←
           foldM (assignPriority specific)
                 (fallbackPriority, specificPriorityIndex, []) uses;
         mret (fallbackPriority, specificPriorityIndex, allUses ++ uses)
     end).

Lemma inline_step specific f fallback index allUses s :
  useStep specific (fallback, index, allUses) (UFunction f) s
  = (s, [],
     Ok (match specific ≫= (fun l => l !! index) with
         | Some p =>
             (fallback, S index,
              allUses ++ [Inline (MkUseObject (Some f) None (Some p) (Some "use"))])
         | None =>
             (JsNumber.decrement fallback, S index,
              allUses ++ [Inline (MkUseObject (Some f) None (Some fallback) (Some "use"))])
         end)).
Proof.
  destruct specific as [l|]; [destruct (l !! index) eqn:Hl|];
    unfold getUses, assignPriority, foldM, writeUse; run; cbn; rewrite ?Hl;
    reflexivity.
Qed.

(** Inline functions are resolved without a log line, a change of state
    or an error, whatever the counter does. *)
Lemma inline_loop_returns specific fns fallback index allUses s :
  exists fallback' uses,
    foldM (useStep specific) (fallback, index, allUses) (map UFunction fns) s
    = (s, [], Ok (fallback', index + length fns, allUses ++ uses)).
Proof.
  revert fallback index allUses.
  induction fns as [|f fns IH]; intros fallback index allUses.
  - exists fallback, []. cbn. by rewrite app_nil_r, Nat.add_0_r.
  - cbn [map foldM]. rewrite mbind_bind.
    erewrite bind_Ok by apply inline_step.
    destruct (specific ≫= _) as [p|].
    + destruct (IH fallback (S index)
                  (allUses ++ [Inline (MkUseObject (Some f) None (Some p) (Some "use"))]))
        as (fb' & uses & ->).
      eexists fb', (_ :: uses). cbn [length].
      replace (S index + length fns) with (index + S (length fns)) by lia.
      by rewrite <- (app_assoc allUses).
    + destruct (IH (JsNumber.decrement fallback) (S index)
                  (allUses ++ [Inline (MkUseObject (Some f) None (Some fallback) (Some "use"))]))
        as (fb' & uses & ->).
      eexists fb', (_ :: uses). cbn [length].
      replace (S index + length fns) with (index + S (length fns)) by lia.
      by rewrite <- (app_assoc allUses).
Qed.

(** The loop over the [use] array, entered at any index and any value of
    the fallback counter, for inline functions, while the counter stays
    among the safe integers. *)
Lemma inline_loop specific fns fallback index allUses s :
  (- JsNumber.maxSafeInteger <= fallback - Z.of_nat (length fns))%Z ->
  (fallback <= JsNumber.maxSafeInteger)%Z ->
  exists fallback',
  foldM (useStep specific) (fallback, index, allUses) (map UFunction fns) s
  = (s, [],
     Ok (fallback', index + length fns,
         allUses ++
         imap (fun j f =>
                 Inline (MkUseObject (Some f) None
                   (Some (match default [] specific !! (index + j) with
                          | Some p => p
                          | None =>
                              (fallback
                               - Z.of_nat (index + j
                                           - Nat.max index (length (default [] specific))))%Z
                          end))
                   (Some "use"))) fns)).
Proof.
  revert fallback index allUses.
  induction fns as [|f fns IH]; intros fallback index allUses Hlo Hhi.
  - exists fallback. cbn. by rewrite app_nil_r, Nat.add_0_r.
  - cbn [length] in Hlo. cbn [map foldM]. rewrite mbind_bind.
    erewrite bind_Ok by apply inline_step.
    assert (specific ≫= (fun l => l !! index) = default [] specific !! index) as ->
      by (destruct specific; reflexivity).
    destruct (default [] specific !! index) as [p|] eqn:Hp.
    + destruct (IH fallback (S index)
                  (allUses ++ [Inline (MkUseObject (Some f) None (Some p) (Some "use"))]))
        as (fb' & ->); [lia..|].
      exists fb'. cbn [imap length]. rewrite <- app_assoc. cbn [app].
      rewrite Nat.add_0_r, Hp.
      replace (S index + length fns) with (index + S (length fns)) by lia.
      do 4 f_equal. f_equal. apply imap_ext. intros j g _. cbn.
      replace (S (index + j)) with (index + S j) by lia.
      apply lookup_lt_Some in Hp.
      destruct (default [] specific !! (index + S j)); [done|].
      do 3 f_equal. lia.
    + rewrite ScanFacts.decrement_exact by lia.
      destruct (IH (fallback - 1)%Z (S index)
                  (allUses ++ [Inline (MkUseObject (Some f) None (Some fallback) (Some "use"))]))
        as (fb' & ->); [lia..|].
      exists fb'. cbn [imap length]. rewrite <- app_assoc. cbn [app].
      rewrite Nat.add_0_r, Hp.
      replace (S index + length fns) with (index + S (length fns)) by lia.
      apply lookup_ge_None in Hp.
      replace (index - Nat.max index (length (default [] specific))) with 0 by lia.
      cbn [Z.of_nat]. rewrite Z.sub_0_r.
      do 4 f_equal. f_equal.
      apply imap_ext. intros j g _. cbn.
      replace (S (index + j)) with (index + S j) by lia.
      destruct (default [] specific !! (index + S j)) eqn:Hj.
      { apply lookup_lt_Some in Hj. lia. }
      do 3 f_equal. lia.
Qed.

(** X14.  For a route whose [use] array holds inline functions only, the
    specific priorities are handed out by position over the whole array,
    and the functions past their end get the fallback counter: [start],
    [start - 1], ...  -- as long as the counter stays among the safe
    integers, where the decrement is exact.  Nothing else happens: no log
    line, no change of state, no error. *)
Theorem resolveUses_inline_positional allUses route fns s :
  use (route_object route) = map UFunction fns ->
  JsNumber.safeInteger (startingFallback (route_object route)) ->
  JsNumber.safeInteger
    (startingFallback (route_object route) - Z.of_nat (length fns)) ->
  resolveUses fs allUses route s
  = (s, [],
     Ok (allUses ++
         imap (inlineUse (default [] (specificUsePriorities (route_object route)))
                         (startingFallback (route_object route))) fns)).
Proof.
  intros Huse [_ Hhi] [Hlo _]. unfold resolveUses. rewrite Huse, mbind_bind.
  destruct (inline_loop (specificUsePriorities (route_object route)) fns
              (startingFallback (route_object route)) 0 allUses s Hlo Hhi)
    as (fb & Hloop).
  erewrite bind_Ok by exact Hloop. reflexivity.
Qed.

Lemma foldM_Ok_app {S E A B} (f : B -> A -> M S E B) l1 l2 b (s : S) s1 t1 b1 :
  foldM f b l1 s = (s1, t1, Ok b1) ->
  foldM f b (l1 ++ l2) s
  = (let '(s2, t2, r) := foldM f b1 l2 s1 in (s2, t1 ++ t2, r)).
Proof.
  revert b s t1. induction l1 as [|x l1 IH]; intros b s t1 H.
  - injection H as <- <- <-. rewrite app_nil_l.
    by destruct (foldM f b l2 s) as [[? ?] ?].
  - rewrite <- app_comm_cons. cbn [foldM] in *. rewrite mbind_bind in *.
    apply bind_Ok_inv in H as (s0 & t0 & b0 & t0' & H0 & H & ->).
    rewrite (bind_Ok _ _ _ _ _ _ H0), (IH _ _ _ H).
    destruct (foldM f b1 l2 s1) as [[? ?] ?]. by rewrite app_assoc.
Qed.

(** X15.  A [use] entry with an empty name, on a manager without a
    registered middleware directory, makes [#getUses] return the manager
    itself, and spreading that into [allUses] throws: the route's
    middleware is not resolved, whatever inline functions come before the
    entry and whatever comes after it.  Nothing is logged and the state is
    as it was. *)
Theorem empty_use_name_is_not_spreadable allUses route fns rest s :
  use (route_object route) = map UFunction fns ++ UName "" :: rest ->
  useDirectories s = [] ->
  resolveUses fs allUses route s
  = (s, [],
     Throw (TypeError "Spread syntax requires ...iterable[Symbol.iterator] to be a function")).
Proof.
  intros Huse Hdirs. unfold resolveUses. rewrite Huse, mbind_bind.
  erewrite bind_Throw; [reflexivity|].
  destruct (inline_loop_returns (specificUsePriorities (route_object route)) fns
              (startingFallback (route_object route)) 0 allUses s)
    as (fb & uses & Hloop).
  assert (getUses fs (UName "") s = (s, [], Ok UsesThis)) as Hget
    by (unfold getUses; run; by rewrite Hdirs).
  rewrite (foldM_Ok_app _ _ _ _ _ _ _ _ Hloop). cbn [foldM].
  rewrite !mbind_bind. unfold bind. rewrite Hget. reflexivity.
Qed.
End Facts.

(** X16.  For an empty name, [#getUses] scans the registered route
    directories: what it does depends on the file system only through
    them, so what the registered middleware directories hold has no
    effect on it. *)
Theorem empty_use_name_reads_route_directories
    (fs fs' : string -> option FsNode) s :
  (forall d, d ∈ routeDirectories s -> fs d = fs' d) ->
  getUses fs (UName "") s = getUses fs' (UName "") s.
Proof.
  intros H. unfold getUses. run. destruct (_ && _); [done|].
  rewrite bool_decide_eq_true_2 by done.
  replace (map (fun d => (d, usesReaddir fs' d)) (routeDirectories s))
    with (map (fun d => (d, usesReaddir fs d)) (routeDirectories s)); [done|].
  apply map_ext_in. intros d Hd%list_elem_of_In. unfold usesReaddir.
  by rewrite (H d Hd).
Qed.
End PriorityFacts.

(** ** What a scan leaves alone *)
Section KeepsFacts.
Import ServerManager Descriptions.
Context {S E : Type} (R : S -> S -> Prop) `{!PreOrder R}.

Lemma keeps_ret {A} (a : A) : keeps R (mret a : M S E A).
Proof. intros s. cbn. reflexivity. Qed.

Lemma keeps_throw {A} e : keeps R (throw e : M S E A).
Proof. intros s. cbn. reflexivity. Qed.

Lemma keeps_emit e : keeps R (emit e : M S E unit).
Proof. intros s. cbn. reflexivity. Qed.

Lemma keeps_get : keeps R (get : M S E S).
Proof. intros s. cbn. reflexivity. Qed.

Lemma keeps_modify (f : S -> S) : (forall s, R s (f s)) -> keeps R (modify f : M S E unit).
Proof. intros H s. apply H. Qed.

Lemma keeps_bind {A B} (m : M S E A) (k : A -> M S E B) :
  keeps R m -> (forall a, keeps R (k a)) -> keeps R (m ≫= k).
Proof.
  intros Hm Hk s. specialize (Hm s). rewrite mbind_bind. unfold bind.
  destruct (m s) as [[s1 t1] [a|e]]; cbn in *; [|done].
  specialize (Hk a s1). destruct (k a s1) as [[s2 t2] r]. cbn in *.
  by etrans.
Qed.

Lemma keeps_try_catch {A} (m : M S E A) h :
  keeps R m -> (forall e, keeps R (h e)) -> keeps R (try_catch m h).
Proof.
  intros Hm Hh s. specialize (Hm s). unfold try_catch.
  destruct (m s) as [[s1 t1] [a|e]]; cbn in *; [done|].
  specialize (Hh e s1). destruct (h e s1) as [[s2 t2] r]. cbn in *.
  by etrans.
Qed.

Lemma keeps_foldM {A B} (f : B -> A -> M S E B) l b :
  Forall (fun a => forall b, keeps R (f b a)) l -> keeps R (foldM f b l).
Proof.
  intros H. revert b. induction H as [|a l Ha _ IH]; intros b; cbn [foldM].
  - apply keeps_ret.
  - apply keeps_bind; [apply Ha|apply IH].
Qed.

Lemma keeps_for_of {A} (body : A -> M S E unit) l :
  Forall (fun a => keeps R (body a)) l -> keeps R (for_of l body).
Proof.
  induction 1 as [|a l Ha _ IH]; cbn [for_of].
  - apply keeps_ret.
  - apply (keeps_bind (body a) (fun _ => for_of l body)); [done|by intros _].
Qed.
End KeepsFacts.

Lemma keeps_weaken {S E A} (R1 R2 : S -> S -> Prop) (m : M S E A) :
  (forall s s', R1 s s' -> R2 s s') ->
  Descriptions.keeps R1 m -> Descriptions.keeps R2 m.
Proof. intros H Hm s. apply H, Hm. Qed.

Module InvariantFacts.
Import ServerManager Descriptions.

Global Instance scanStep_preorder : PreOrder scanStep.
Proof.
  split.
  - intros s. unfold scanStep. split_and!; done.
  - intros s1 s2 s3 (? & ? & ? & ? & ? & ? & ?) (? & ? & ? & ? & ? & ? & ?).
    unfold scanStep. split_and!; try congruence; [lia|by etrans].
Qed.

(** Takes a computation apart along its binds and case distinctions. *)
Ltac keeps_step :=
  lazymatch goal with
  | |- keeps ?R (mbind _ _) => apply (keeps_bind R); [|intros ?]
  | |- keeps ?R (mret _) => apply (keeps_ret R)
  | |- keeps ?R (throw _) => apply (keeps_throw R)
  | |- keeps ?R (log _ _) => apply (keeps_emit R)
  | |- keeps ?R (emit _) => apply (keeps_emit R)
  | |- keeps ?R get => apply (keeps_get R)
  | |- keeps ?R (try_catch _ _) => apply (keeps_try_catch R); [|intros ?]
  | |- keeps _ (if ?b then _ else _) => destruct b
  | |- keeps _ (match ?x with _ => _ end) => destruct x
  end.
Ltac keeps_steps := repeat keeps_step.

Global Instance usesStep_preorder : PreOrder usesStep.
Proof.
  split.
  - intros s. unfold usesStep. split_and!; done.
  - intros s1 s2 s3 (? & ? & ? & ? & ? & ? & ?) (? & ? & ? & ? & ? & ? & ?).
    unfold usesStep. split_and!; try congruence. by etrans.
Qed.

Lemma usesStep_scanStep s s' : usesStep s s' -> scanStep s s'.
Proof.
  intros (? & ? & ? & ? & ? & ? & ?). unfold scanStep. split_and!; try done. lia.
Qed.

Lemma keeps_cache (f : State -> gmap string UseObject) :
  (forall s, dom (moduleCache s) ⊆ dom (f s)) ->
  keeps usesStep (modify (fun s => set_moduleCache (f s) s) : M State Event unit).
Proof.
  intros H. apply (keeps_modify usesStep). intros s.
  unfold usesStep. cbn. split_and!; done.
Qed.

Lemma keeps_requireUse file load : keeps usesStep (requireUse file load).
Proof.
  unfold requireUse. apply (keeps_bind usesStep); [apply (keeps_get usesStep)|intros s].
  keeps_steps. apply keeps_cache. intros s'. apply dom_insert_subseteq.
Qed.

Lemma keeps_writeUse f h : keeps usesStep (writeUse f h).
Proof.
  unfold writeUse. keeps_steps.
  apply keeps_cache. intros s'. apply dom_insert_subseteq.
Qed.

Section Facts.
Context (fs : string -> option FsNode) (generate : nat -> string).

Lemma keeps_draw : keeps scanStep (draw generate).
Proof. intros s. unfold draw, scanStep. run. cbn. split_and!; try done. lia. Qed.

(** *** [#getUses] *)
Lemma keeps_getUses_file dir toLoad (f : string * DirEntry (M State Event unit)) :
  keeps usesStep (below f.2) -> keeps usesStep (getUses_file dir toLoad f).
Proof.
  intros Hbelow. destruct f as [filepath e]. unfold getUses_file.
  apply (keeps_bind usesStep); [destruct (isDirectory e); [done|apply (keeps_ret usesStep)]|intros _].
  destruct (negb _); [apply (keeps_ret usesStep)|].
  apply (keeps_bind usesStep).
  { apply (keeps_try_catch usesStep).
    - apply (keeps_bind usesStep); [apply keeps_requireUse|intros ?; apply (keeps_ret usesStep)].
    - intros err. keeps_steps. }
  intros [use|]; [|apply (keeps_throw usesStep)].
  apply (keeps_bind usesStep); [apply (keeps_get usesStep)|intros s].
  destruct (run _); [|keeps_steps].
  apply (keeps_bind usesStep); [|intros ?; apply (keeps_ret usesStep)].
  destruct (use_priority _) as [[]|]; try apply (keeps_ret usesStep); apply keeps_writeUse.
Qed.

Lemma keeps_getUses_scan scanDirectories :
  Forall usesKept scanDirectories -> keeps usesStep (getUses_scan scanDirectories).
Proof.
  intros H. unfold getUses_scan.
  apply (keeps_bind usesStep); [|intros toLoad; keeps_steps].
  apply (keeps_foldM usesStep). eapply Forall_impl; [exact H|].
  intros [dir [files|err]] Hd toLoad; [|apply (keeps_throw usesStep)].
  apply (keeps_foldM usesStep). eapply Forall_impl; [exact Hd|].
  intros f Hf acc. by apply keeps_getUses_file.
Qed.

Lemma usesListing_kept n : forall dir, usesKept (dir, usesListing dir n).
Proof.
  induction n as [load|entries IH] using FsNode_tree_ind; intros dir; [done|].
  unfold usesKept. cbn [usesListing snd]. apply Forall_fmap. eapply Forall_impl; [exact IH|].
  intros [filepath child] Hchild. cbn [below snd].
  apply (keeps_bind usesStep); [|intros ?; apply (keeps_ret usesStep)].
  apply keeps_getUses_scan. constructor; [apply Hchild|constructor].
Qed.

Lemma keeps_getUses use : keeps usesStep (getUses fs use).
Proof.
  destruct use as [f|dir]; [apply (keeps_ret usesStep)|]. unfold getUses.
  apply (keeps_bind usesStep); [apply (keeps_get usesStep)|intros s].
  destruct (_ && _); [apply (keeps_ret usesStep)|].
  apply (keeps_bind usesStep); [|intros ?; apply (keeps_ret usesStep)].
  apply keeps_getUses_scan. apply Forall_fmap, Forall_forall. intros d _.
  unfold usesKept, usesReaddir. cbn. destruct (fs d) as [n|]; [|done].
  apply (usesListing_kept n d).
Qed.

(** *** [#loadRoutes] *)
Lemma keeps_assignPriority specific acc h :
  keeps usesStep (assignPriority specific acc h).
Proof.
  destruct acc as [[fallbackPriority specificPriorityIndex] allUses].
  unfold assignPriority.
  apply (keeps_bind usesStep); [apply keeps_writeUse|intros h1].
  destruct (_ ≫= _);
    (apply (keeps_bind usesStep); [apply keeps_writeUse|intros ?; apply (keeps_ret usesStep)]).
Qed.

Lemma keeps_resolveUses allUses route : keeps usesStep (resolveUses fs allUses route).
Proof.
  unfold resolveUses.
  apply (keeps_bind usesStep); [|intros [[? ?] ?]; apply (keeps_ret usesStep)].
  apply (keeps_foldM usesStep), Forall_forall. intros use _ [[fb index] acc].
  apply (keeps_bind usesStep); [apply keeps_getUses|intros [uses|]];
    [|apply (keeps_throw usesStep)].
  apply (keeps_bind usesStep); [|intros [[? ?] ?]; apply (keeps_ret usesStep)].
  apply (keeps_foldM usesStep), Forall_forall. intros h _ acc'.
  apply keeps_assignPriority.
Qed.

Lemma keeps_loadRoutes_file toLoad (f : string * DirEntry Builder) :
  keeps scanStep (loadRoutes_file toLoad f).
Proof.
  destruct f as [filepath e]. unfold loadRoutes_file.
  destruct (negb _); [apply (keeps_ret scanStep)|].
  apply (keeps_bind scanStep).
  { apply (keeps_try_catch scanStep); [destruct (required e)|intros err]; keeps_steps. }
  intros [route|]; [|apply (keeps_throw scanStep)].
  destruct (noPath route); [keeps_steps|].
  apply (keeps_bind scanStep); [destruct (priority route); keeps_steps|intros p].
  destruct (bool_decide _); keeps_steps.
Qed.

Lemma keeps_scanRoutes scanDirectories : keeps scanStep (scanRoutes scanDirectories).
Proof.
  unfold scanRoutes. apply (keeps_foldM scanStep), Forall_forall.
  intros [dir [files|err]] _ toLoad; [|apply (keeps_throw scanStep)].
  apply (keeps_foldM scanStep), Forall_forall. intros f _ acc.
  apply keeps_loadRoutes_file.
Qed.

Lemma subdirectories_kept scanDirectories :
  Forall routesKept scanDirectories ->
  Forall (fun e => forall prefix pathPrefix routerID,
            keeps scanStep (e.2 prefix pathPrefix routerID))
         (subdirectories scanDirectories).
Proof.
  intros H. unfold subdirectories. apply Forall_concat, Forall_fmap.
  eapply Forall_impl; [exact H|]. intros [dir [files|err]] Hd; [|constructor].
  unfold routesKept in Hd. cbn in Hd. cbn.
  induction Hd as [|[filepath e] files He _ IH]; [constructor|].
  destruct e as [[] req bel]; cbn; [constructor; [exact He|exact IH]|exact IH].
Qed.

Section Register.
Context (prefix pathPrefix routerID : string)
        (scanAtPriority0 : list (string * string * Builder))
        (Hqueue : Forall (fun e => forall prefix pathPrefix routerID,
                            keeps scanStep (e.2 prefix pathPrefix routerID))
                         scanAtPriority0).

Lemma keeps_mountSubrouters lv :
  keeps scanStep (mountSubrouters generate prefix pathPrefix routerID scanAtPriority0 lv).
Proof.
  unfold mountSubrouters.
  apply (keeps_bind scanStep); [|intros ?; apply (keeps_ret scanStep)].
  apply (keeps_foldM scanStep). eapply Forall_impl; [exact Hqueue|].
  intros [[dir filepath] build] Hbuild lv'. unfold mountSubrouter.
  apply (keeps_bind scanStep); [apply keeps_draw|intros newRouterID].
  apply (keeps_bind scanStep); [apply Hbuild|intros [childStructure newRouter]].
  keeps_steps.
Qed.

Lemma keeps_registerPlain lv route :
  keeps scanStep (registerPlain prefix pathPrefix routerID lv route).
Proof.
  destruct route as [r|h]; cbn [registerPlain].
  - unfold registerRoute.
    apply (keeps_bind scanStep); [|intros ?; keeps_steps].
    apply (keeps_foldM scanStep), Forall_forall. intros method _ lv'.
    keeps_steps.
  - unfold registerUse.
    apply (keeps_bind scanStep); [apply (keeps_get scanStep)|intros s].
    keeps_steps.
Qed.

Lemma keeps_registerAll toLoad :
  keeps scanStep (registerAll generate prefix pathPrefix routerID scanAtPriority0 toLoad).
Proof.
  unfold registerAll.
  apply (keeps_bind scanStep);
    [destruct toLoad; [apply keeps_mountSubrouters|apply (keeps_ret scanStep)]|intros lv].
  apply (keeps_bind scanStep).
  - apply (keeps_foldM scanStep), Forall_forall. intros route _ lv'.
    unfold registerLoadable.
    apply (keeps_bind scanStep); [apply (keeps_get scanStep)|intros s].
    apply (keeps_bind scanStep); [|intros ?; apply keeps_registerPlain].
    destruct (_ && _); [apply keeps_mountSubrouters|apply (keeps_ret scanStep)].
  - intros lv'. destruct (negb _);
      [apply keeps_mountSubrouters|apply (keeps_ret scanStep)].
Qed.
End Register.

Lemma keeps_loadRoutes_scan scanDirectories prefix pathPrefix routerID innerLevel :
  Forall routesKept scanDirectories ->
  keeps scanStep
        (loadRoutes_scan fs generate scanDirectories prefix pathPrefix routerID innerLevel).
Proof.
  intros H. unfold loadRoutes_scan.
  apply (keeps_bind scanStep);
    [destruct (bool_decide _); [apply keeps_draw|apply (keeps_ret scanStep)]|intros id].
  apply (keeps_bind scanStep); [apply keeps_scanRoutes|intros toLoad].
  apply (keeps_bind scanStep).
  { apply (keeps_weaken usesStep); [apply usesStep_scanStep|].
    apply (keeps_foldM usesStep), Forall_forall. intros route _ acc.
    apply keeps_resolveUses. }
  intros allUses.
  apply (keeps_bind scanStep); [apply (keeps_get scanStep)|intros s].
  apply (keeps_bind scanStep);
    [apply keeps_registerAll; by apply subdirectories_kept|intros lv].
  apply (keeps_bind scanStep); [destruct innerLevel; keeps_steps|intros _].
  apply (keeps_ret scanStep).
Qed.

Lemma routesListing_kept n :
  forall dir, routesKept (dir, routesListing fs generate dir n).
Proof.
  induction n as [load|entries IH] using FsNode_tree_ind; intros dir; [done|].
  unfold routesKept. cbn [routesListing snd]. apply Forall_fmap. eapply Forall_impl; [exact IH|].
  intros [filepath child] Hchild prefix pathPrefix routerID. cbn [below snd].
  apply keeps_loadRoutes_scan. constructor; [apply Hchild|constructor].
Qed.

Lemma keeps_loadRoutes dir prefix pathPrefix routerID innerLevel :
  keeps scanStep (loadRoutes fs generate dir prefix pathPrefix routerID innerLevel).
Proof.
  unfold loadRoutes.
  apply (keeps_bind scanStep); [apply (keeps_get scanStep)|intros s].
  destruct (_ && _); [apply (keeps_ret scanStep)|].
  apply (keeps_bind scanStep); [|intros ?; apply (keeps_ret scanStep)].
  apply keeps_loadRoutes_scan. apply Forall_fmap, Forall_forall. intros d _.
  unfold routesKept, routesReaddir. cbn. destruct (fs d) as [n|]; [|done].
  apply (routesListing_kept n d).
Qed.

(** X17.  [#getUses] leaves the registration alone.  Whatever it is
    called with, and whether it returns or throws, the four lists of
    directories and the stack of [this.app] are as they were and no
    router identifier has been drawn; the module cache has kept every
    file it held (their objects may have been written to). *)
Theorem getUses_keeps_registration use s :
  let s' := run_state (getUses fs use s) in
  vhostDirectories s' = vhostDirectories s /\
  routeDirectories s' = routeDirectories s /\
  staticDirectories s' = staticDirectories s /\
  useDirectories s' = useDirectories s /\
  app s' = app s /\
  draws s' = draws s /\
  dom (moduleCache s) ⊆ dom (moduleCache s').
Proof.
  pose proof (keeps_getUses use s) as (? & ? & ? & ? & ? & ? & ?). done.
Qed.

(** X18.  [#loadRoutes] leaves the registered directories alone.  For any
    directory tree, and whether it returns or throws, the four lists of
    directories are as they were, no file has left the module cache, and
    the count of router identifiers has not gone down. *)
Theorem loadRoutes_keeps_registration dir prefix pathPrefix routerID innerLevel s :
  let s' := run_state (loadRoutes fs generate dir prefix pathPrefix routerID
                                  innerLevel s) in
  vhostDirectories s' = vhostDirectories s /\
  routeDirectories s' = routeDirectories s /\
  staticDirectories s' = staticDirectories s /\
  useDirectories s' = useDirectories s /\
  draws s <= draws s' /\
  dom (moduleCache s) ⊆ dom (moduleCache s').
Proof.
  pose proof (keeps_loadRoutes dir prefix pathPrefix routerID innerLevel s)
    as (? & ? & ? & ? & _ & ? & ?).
  done.
Qed.
End Facts.
End InvariantFacts.

(** ** The structure beside the router *)
Module StructureFacts.
Import ServerManager Descriptions.

(** A property of the accumulator that every returning iteration keeps
    holds when the loop returns. *)
Lemma foldM_Ok_ind {S E A B} (I : B -> Prop) (f : B -> A -> M S E B) l :
  (forall b a s s' t b', f b a s = (s', t, Ok b') -> I b -> I b') ->
  forall b s s' t b', foldM f b l s = (s', t, Ok b') -> I b -> I b'.
Proof.
  intros Hf. induction l as [|a l IH]; intros b s s' t b' H Hb.
  - by injection H as _ _ <-.
  - cbn [foldM] in H. apply bind_Ok_inv in H as (s1 & t1 & b1 & t2 & H1 & H2 & _).
    eapply IH; [exact H2|]. by eapply Hf.
Qed.

Lemma string_app_assoc (a b c : string) : (a +:+ b) +:+ c = a +:+ b +:+ c.
Proof.
  induction a as [|x a IH]; [done|].
  by rewrite !JsStringFacts.app_cons, IH.
Qed.

Lemma omap_layerShape_static l : omap layerShape (map LStatic l) = [].
Proof. by induction l. Qed.

Lemma filter_isMount_static l : List.filter isMount (map LStatic l) = [].
Proof. by induction l. Qed.

Section Facts.
Context (generate : nat -> string) (prefix pathPrefix routerID : string)
        (scanAtPriority0 : list (string * string * Builder)).

Abbreviation levelOK' := (levelOK prefix pathPrefix scanAtPriority0).

Lemma levelOK_static l lv : levelOK' lv -> levelOK' (addLayers (map LStatic l) lv).
Proof.
  intros (Hs & Hc & Hd). unfold levelOK. cbn.
  rewrite omap_app, omap_layerShape_static, app_nil_r.
  rewrite List.filter_app, filter_isMount_static, app_nil_r. done.
Qed.

Lemma levelOK_entry e l lv :
  layerShape l = Some (entryShape e) ->
  levelOK' lv -> levelOK' (addStackEntry e (addLayers [l] lv)).
Proof.
  intros Hl (Hs & Hc & Hd). unfold levelOK. cbn.
  rewrite map_app, omap_app, List.filter_app, Hs. cbn. rewrite Hl.
  replace (isMount l) with false by (destruct l; done).
  cbn. rewrite app_nil_r. done.
Qed.

Lemma registerPlain_levelOK lv x s s' t lv' :
  registerPlain prefix pathPrefix routerID lv x s = (s', t, Ok lv') ->
  levelOK' lv -> levelOK' lv'.
Proof.
  destruct x as [r|h]; cbn [registerPlain]; intros H Hlv.
  - unfold registerRoute in H.
    apply bind_Ok_inv in H as (s1 & t1 & lv1 & t2 & Hloop & H & _).
    unfold log in H. revert H. run. intros [= _ _ <-].
    eapply foldM_Ok_ind; [|exact Hloop|by apply levelOK_static].
    clear. intros lv m s s' t lv'. unfold log. run.
    destruct (methodFunction _ m) as [fn|]; intros [= _ _ <-]; [|done].
    intros Hlv. by apply levelOK_entry.
  - revert H. unfold registerUse, log. run. intros [= _ _ <-].
    by apply levelOK_entry.
Qed.

(** The mount block adds one child and one mount per queued
    subdirectory, each child being what the build returned. *)
Lemma foldM_mountSubrouter_level q lv s s' t lv' :
  foldM (mountSubrouter generate prefix pathPrefix routerID) lv q s = (s', t, Ok lv') ->
  exists cs added,
    Forall2 (builtBy prefix pathPrefix) cs q /\
    Forall (fun l => isMount l = true) added /\
    length added = length q /\
    lv' = MkLevel (layers lv ++ added) (lv_children lv ++ cs)
                  (lv_routeStack lv) (dirScanned lv).
Proof.
  revert lv s t. induction q as [|[[dir filepath] build] q IH]; intros lv s t H.
  - injection H as _ _ <-. exists [], []. rewrite !app_nil_r.
    split_and!; [constructor|constructor|done|by destruct lv].
  - cbn [foldM] in H. apply bind_Ok_inv in H as (s1 & t1 & lv1 & t2 & H1 & H2 & _).
    apply IH in H2 as (cs & added & Hcs & Hadded & Hlen & ->).
    unfold mountSubrouter in H1.
    apply bind_Ok_inv in H1 as (s0 & t0 & newRouterID & t0' & _ & H1 & _).
    apply bind_Ok_inv in H1
      as (s0' & t0'' & [childStructure newRouter] & t3 & Hbuild & H1 & _).
    unfold log in H1. revert H1. run. intros [= _ _ <-].
    exists (childStructure :: cs), (LMount ("/" +:+ filepath) newRouter :: added).
    split_and!.
    + constructor; [|done]. by exists newRouterID, s0, s0', t0'', newRouter.
    + by constructor.
    + cbn. by rewrite Hlen.
    + cbn. by rewrite <- !app_assoc.
Qed.

Lemma mountSubrouters_levelOK lv s s' t lv' :
  mountSubrouters generate prefix pathPrefix routerID scanAtPriority0 lv s
  = (s', t, Ok lv') ->
  dirScanned lv = false -> levelOK' lv -> levelOK' lv' /\ dirScanned lv' = true.
Proof.
  intros H Hd (Hs & Hc & Hch). rewrite Hd in Hch. unfold mountSubrouters in H.
  apply bind_Ok_inv in H as (s1 & t1 & lv1 & t2 & H & Hret & _).
  injection Hret as _ _ <-.
  apply foldM_mountSubrouter_level in H as (cs & added & Hcs & Hadded & Hlen & ->).
  split; [|done]. unfold levelOK. cbn. rewrite Hch. cbn. split_and!; [|..|done].
  - rewrite omap_app, Hs.
    replace (omap layerShape added) with (@nil Shape); [by rewrite app_nil_r|].
    clear -Hadded. induction Hadded as [|[] ? ? ? IH]; done.
  - rewrite List.filter_app, length_app, <- Hc, Hch. cbn.
    rewrite (Forall2_length _ _ _ Hcs), <- Hlen. f_equal.
    clear -Hadded. induction Hadded as [|l added' Hl Hrest IH]; [done|].
    cbn. rewrite Hl. by f_equal.
Qed.

Lemma registerLoadable_levelOK lv x s s' t lv' :
  registerLoadable generate prefix pathPrefix routerID scanAtPriority0 lv x s
  = (s', t, Ok lv') ->
  levelOK' lv -> levelOK' lv'.
Proof.
  intros H Hlv. unfold registerLoadable in H.
  apply bind_Ok_inv in H as (s0 & t0 & s0' & t0' & Hget & H & _).
  injection Hget as <- _ <-.
  apply bind_Ok_inv in H as (s1 & t1 & lv1 & t2 & Hmount & H & _).
  eapply registerPlain_levelOK; [exact H|].
  destruct (negb (dirScanned lv) && _) eqn:Hcond.
  - apply andb_true_iff in Hcond as [Hd%negb_true_iff _].
    by apply mountSubrouters_levelOK in Hmount as [? _].
  - by injection Hmount as _ _ <-.
Qed.

Lemma registerAll_levelOK toLoad s s' t lv :
  registerAll generate prefix pathPrefix routerID scanAtPriority0 toLoad s
  = (s', t, Ok lv) ->
  levelOK' lv /\ dirScanned lv = true.
Proof.
  intros H. unfold registerAll in H.
  apply bind_Ok_inv in H as (s1 & t1 & lv1 & t1' & H1 & H & _).
  apply bind_Ok_inv in H as (s2 & t2 & lv2 & t2' & H2 & H3 & _).
  assert (levelOK' (MkLevel [] [] [] false)) as H0 by (by unfold levelOK).
  assert (levelOK' lv1) as Hlv1.
  { destruct toLoad; [|by injection H1 as _ _ <-].
    by apply mountSubrouters_levelOK in H1 as [? _]. }
  assert (levelOK' lv2) as Hlv2.
  { eapply foldM_Ok_ind; [|exact H2|exact Hlv1].
    intros b a sa sa' ta b'. apply registerLoadable_levelOK. }
  destruct (dirScanned lv2) eqn:Hd; cbn [negb] in H3.
  - injection H3 as _ _ <-. done.
  - by apply mountSubrouters_levelOK in H3.
Qed.
End Facts.

Lemma childPrefix_path prefix pathPrefix filepath :
  prefix +:+ childPrefix pathPrefix filepath
  = (prefix +:+ pathPrefix) +:+ "/" +:+ filepath.
Proof.
  unfold childPrefix. case_bool_decide as Hp.
  - by rewrite Hp, ReplaceFacts.app_empty_r.
  - by rewrite string_app_assoc.
Qed.

Section Level.
Context (fs : string -> option FsNode) (generate : nat -> string).

(** What [#loadRoutes] returns for a level, read off its last lines. *)
Lemma loadRoutes_scan_level
    scanDirectories prefix pathPrefix routerID innerLevel s s' t structure router :
  loadRoutes_scan fs generate scanDirectories prefix pathPrefix routerID innerLevel s
  = (s', t, Ok (structure, router)) ->
  structureName structure
  = (if bool_decide (routerID = "") then generate (draws s) else routerID) /\
  structurePath structure = prefix +:+ pathPrefix /\
  levelOK prefix pathPrefix (subdirectories scanDirectories)
          (MkLevel router (children structure) (routeStack structure) true).
Proof.
  intros H. unfold loadRoutes_scan in H.
  apply bind_Ok_inv in H as (sa & ta & rid & ta' & Hid & H & _).
  apply bind_Ok_inv in H as (sb & tb & toLoad & tb' & _ & H & _).
  apply bind_Ok_inv in H as (sc & tc & allUses & tc' & _ & H & _).
  apply bind_Ok_inv in H as (sd & td & sd' & td' & Hget & H & _).
  injection Hget as <- _ <-.
  apply bind_Ok_inv in H as (se & te & lv & te' & Hreg & H & _).
  apply bind_Ok_inv in H as (sf & tf & [] & tf' & _ & H & _).
  injection H as _ _ <- <-.
  apply registerAll_levelOK in Hreg as [Hlv Hd].
  split_and!; [|done|].
  - cbn. case_bool_decide; revert Hid; unfold draw; run; by intros [= _ _ <-].
  - cbn. destruct lv as [l c r d]. cbn in Hd. by rewrite Hd in Hlv.
Qed.

(** X19.  The structure that [#loadRoutes] returns for a level mirrors the
    router it filled.  Its name is the router identifier (the one given,
    or a new one), its path the prefix followed by the path prefix.  Its
    [routeStack] shows, in the order of the router's stack, one entry
    per method binding (with the path of the binding) and one per
    middleware (with its function), and nothing for static layers and
    mounts.  Its [children] are, in listing order, the structures the
    recursive calls for the subdirectories returned, as many as the
    router has mounts. *)
Theorem structure_mirrors_router
    scanDirectories prefix pathPrefix routerID innerLevel s s' t structure router :
  loadRoutes_scan fs generate scanDirectories prefix pathPrefix routerID innerLevel s
  = (s', t, Ok (structure, router)) ->
  structureName structure
  = (if bool_decide (routerID = "") then generate (draws s) else routerID) /\
  structurePath structure = prefix +:+ pathPrefix /\
  map entryShape (routeStack structure) = omap layerShape router /\
  length (children structure) = length (List.filter isMount router) /\
  Forall2 (builtBy prefix pathPrefix) (children structure)
          (subdirectories scanDirectories).
Proof.
  intros H. apply loadRoutes_scan_level in H as (Hn & Hp & Hs & Hc & Hch).
  done.
Qed.

Lemma subdirectories_listing dir entries :
  map (fun e => e.1.2)
      (subdirectories [(dir, routesListing fs generate dir (Dir entries))])
  = subdirectoryNames (Dir entries).
Proof.
  unfold subdirectories. cbn [routesListing map concat]. rewrite app_nil_r.
  cbn [subdirectoryNames]. induction entries as [|[filepath child] entries IH]; [done|].
  cbn. destruct (isDir child); cbn; by rewrite IH.
Qed.

Lemma listing_builders dir n :
  Forall (fun e => exists sub node,
            e.2 = fun prefix pathPrefix routerID =>
                    loadRoutes_scan fs generate [(sub, routesListing fs generate sub node)]
                                    prefix pathPrefix routerID true)
         (subdirectories [(dir, routesListing fs generate dir n)]).
Proof.
  destruct n as [load|entries]; [constructor|].
  unfold subdirectories. cbn [routesListing map concat]. rewrite app_nil_r.
  induction entries as [|[filepath child] entries IH]; [constructor|].
  cbn. destruct (isDir child); cbn; [|done].
  constructor; [|done]. by eexists _, _.
Qed.

(** X20.  The structure follows the directory tree: when [#loadRoutes]
    returns for a directory, the children of its structure are one per
    subdirectory, in listing order, and the path of each is the path of
    the level followed by [/] and the name of the subdirectory. *)
Theorem children_follow_subdirectories
    dir n prefix pathPrefix routerID innerLevel s s' t structure router :
  loadRoutes_scan fs generate [(dir, routesListing fs generate dir n)]
                  prefix pathPrefix routerID innerLevel s
  = (s', t, Ok (structure, router)) ->
  map structurePath (children structure)
  = map (fun name => structurePath structure +:+ "/" +:+ name) (subdirectoryNames n).
Proof.
  intros H. apply loadRoutes_scan_level in H as (_ & -> & _ & _ & Hch).
  cbn [dirScanned lv_children] in Hch. pose proof (listing_builders dir n) as Hb.
  destruct n as [load|entries].
  { by inversion Hch. }
  rewrite <- subdirectories_listing with (dir := dir).
  revert Hch Hb.
  generalize (subdirectories [(dir, routesListing fs generate dir (Dir entries))]).
  generalize (children structure). clear.
  intros cs. induction cs as [|c cs IH]; intros q Hch Hb.
  { by apply Forall2_nil_inv_l in Hch as ->. }
  apply Forall2_cons_inv_l in Hch as (e & q' & Hc & Hch & ->).
  apply Forall_cons in Hb as [(sub & node & He) Hb].
  cbn [map]. rewrite (IH q') by done. f_equal.
  destruct Hc as (id & s & s' & t & r & Hc).
  destruct e as [[d filepath] build]. cbn [fst snd] in *. subst build.
  apply loadRoutes_scan_level in Hc as (_ & -> & _).
  apply childPrefix_path.
Qed.
End Level.
End StructureFacts.

(** ** Virtual hosts, statics and the whole setup *)
Module SetupFacts.
Import ServerManager Descriptions InvariantFacts.

Section Facts.
Context (fs : string -> option FsNode) (generate : nat -> string)
        (vhostName : string -> option string) (basehostname : string).

Abbreviation vhostStep' := (vhostStep basehostname).

Global Instance vhostStep_preorder : PreOrder vhostStep'.
Proof.
  split.
  - intros s. unfold vhostStep. split_and!; try done.
    exists []. by rewrite app_nil_r.
  - intros s1 s2 s3 (? & ? & ? & ? & l1 & Hl1 & ?) (? & ? & ? & ? & l2 & Hl2 & ?).
    unfold vhostStep. split_and!; try congruence.
    exists (l1 ++ l2). rewrite Hl2, Hl1, app_assoc. split; [done|].
    by apply Forall_app.
Qed.

Lemma scanStep_vhostStep s s' : scanStep s s' -> vhostStep' s s'.
Proof.
  intros (? & ? & ? & ? & Happ & _). unfold vhostStep. split_and!; try done.
  exists []. by rewrite app_nil_r.
Qed.

Lemma keeps_loadVhost dir filepath name inner :
  keeps vhostStep' (loadVhost fs generate basehostname dir filepath name inner).
Proof.
  destruct inner as [innerPath n]. unfold loadVhost.
  destruct (negb _); [apply (keeps_ret vhostStep')|].
  destruct (bool_decide _); [|apply (keeps_ret vhostStep')].
  apply (keeps_bind vhostStep'); [apply (keeps_emit vhostStep')|intros _].
  apply (keeps_bind vhostStep').
  { apply (keeps_weaken scanStep); [apply scanStep_vhostStep|].
    apply keeps_loadRoutes_scan. constructor; [|constructor].
    apply (routesListing_kept fs generate n). }
  intros r.
  apply (keeps_bind vhostStep'); [apply (keeps_emit vhostStep')|intros _].
  apply (keeps_bind vhostStep'); [|intros _; keeps_steps].
  apply (keeps_modify vhostStep'). intros s. unfold vhostStep. cbn.
  split_and!; try done. eexists. split; [done|].
  constructor; [|constructor]. by eexists _, _.
Qed.

Lemma keeps_readdir dir n : keeps vhostStep' (readdir dir n).
Proof. destruct n as [[]|]; cbn [readdir]; keeps_steps. Qed.

Lemma keeps_loadVhosts :
  keeps vhostStep' (loadVhosts fs generate vhostName basehostname).
Proof.
  unfold loadVhosts.
  apply (keeps_bind vhostStep'); [apply (keeps_get vhostStep')|intros s].
  apply (keeps_for_of vhostStep'), Forall_forall. intros dir _.
  unfold loadVhostsIn.
  apply (keeps_bind vhostStep'); [apply keeps_readdir|intros files].
  apply (keeps_for_of vhostStep'), Forall_forall. intros [filepath n] _.
  unfold vhostEntry. destruct (negb _); [apply (keeps_ret vhostStep')|].
  destruct (vhostName filepath) as [name|]; [|apply (keeps_ret vhostStep')].
  apply (keeps_bind vhostStep'); [apply keeps_readdir|intros inner].
  apply (keeps_for_of vhostStep'), Forall_forall. intros x _.
  apply keeps_loadVhost.
Qed.

(** X21.  [#loadVhosts] only ever adds to [this.app], and only virtual
    hosts.  Whether it returns or throws, the layers that were on
    [this.app] are still there, in their order and before anything new;
    every layer that was added is a virtual host for a name under
    [basehostname]; and the four lists of registered directories are as
    they were. *)
Theorem loadVhosts_appends_vhosts s :
  let s' := run_state (loadVhosts fs generate vhostName basehostname s) in
  vhostDirectories s' = vhostDirectories s /\
  routeDirectories s' = routeDirectories s /\
  staticDirectories s' = staticDirectories s /\
  useDirectories s' = useDirectories s /\
  exists added,
    app s' = app s ++ added /\
    Forall (fun l => exists name router,
              l = LVhost (name +:+ "." +:+ basehostname) router) added.
Proof. apply keeps_loadVhosts. Qed.

Lemma for_of_static l s :
  for_of l (fun search => use_app (LStatic search)) s
  = (set_app (app s ++ map LStatic l) s, [], Ok tt).
Proof.
  revert s. induction l as [|x l IH]; intros s.
  - cbn. rewrite app_nil_r. by destruct s.
  - cbn [for_of]. erewrite bind_Ok by reflexivity. rewrite IH. cbn.
    by rewrite <- app_assoc.
Qed.

Lemma loadStatics_run s :
  loadStatics s = (set_app (app s ++ map LStatic (staticDirectories s)) s, [], Ok tt).
Proof. unfold loadStatics. run. by rewrite for_of_static. Qed.

(** X22.  [setupFromState] fills [this.app] in a fixed order.  When the
    virtual hosts and the routes load, it returns, and [this.app] holds
    what it held before, then the virtual hosts, then the layers of the
    routes in the registered route directories, then one static layer per
    static directory that was registered before the call, in registration
    order. *)
Theorem setupFromState_order s s1 t1 s2 t2 routes :
  loadVhosts fs generate vhostName basehostname s = (s1, t1, Ok tt) ->
  loadRoutes fs generate "" basehostname "" "" false s1 = (s2, t2, Ok routes) ->
  run_result (setupFromState fs generate vhostName basehostname s) = Ok tt /\
  exists vhosts,
    Forall (fun l => exists name router,
              l = LVhost (name +:+ "." +:+ basehostname) router) vhosts /\
    app (run_state (setupFromState fs generate vhostName basehostname s))
    = app s ++ vhosts ++ routes ++ map LStatic (staticDirectories s).
Proof.
  intros Hv Hr.
  pose proof (keeps_loadVhosts s) as (_ & _ & Hst1 & _ & vhosts & Happ1 & Hvhosts).
  pose proof (keeps_loadRoutes fs generate "" basehostname "" "" false s1)
    as (_ & _ & Hst2 & _ & Happ2 & _).
  rewrite Hv in Hst1, Happ1. rewrite Hr in Hst2, Happ2. cbn in Hst1, Happ1, Hst2, Happ2.
  unfold setupFromState. rewrite !mbind_bind.
  rewrite (bind_Ok _ _ _ _ _ _ Hv), (bind_Ok _ _ _ _ _ _ Hr), mbind_bind.
  erewrite bind_Ok by reflexivity. rewrite loadStatics_run. cbn.
  split; [done|]. exists vhosts. split; [done|].
  by rewrite Hst2, Hst1, Happ2, Happ1, <- !app_assoc.
Qed.
End Facts.
End SetupFacts.

(** ** The further properties at the sample inputs *)
Module MoreExamples.
Import DatabaseManager ProxyRoute ServerManager Descriptions Samples MoreSamples.

Lemma afterLastDot_extension_witness :
  JsString.afterLastDot ("index.test" +:+ "." +:+ "js") = "js" /\
  JsString.afterLastDot "js" = "js".
Proof. apply (ReplaceFacts.afterLastDot_extension "index.test" "js"). reflexivity. Defined.

(** The [Location] header of the sample backend. *)
Lemma leftmost_backend_replaced_witness :
  exists before after,
    "http://10.0.0.5:8080/cart?back=http://10.0.0.5:8080/"
    = before +:+ "10.0.0.5:8080" +:+ after /\
    userResHeaderDecorator "10.0.0.5:8080" "shop.example.com" backendHeaders
      !! "Location"
    = Some (HString (before +:+ "shop.example.com" +:+ after)) /\
    forall b a,
      "http://10.0.0.5:8080/cart?back=http://10.0.0.5:8080/"
      = b +:+ "10.0.0.5:8080" +:+ a ->
      String.length before <= String.length b.
Proof.
  apply (ProxyMoreFacts.leftmost_backend_replaced
           "10.0.0.5:8080" "shop.example.com" backendHeaders "Location"
           "http://10.0.0.5:8080/cart?back=http://10.0.0.5:8080/").
  - vm_compute. reflexivity.
  - exists "http://", "/cart?back=http://10.0.0.5:8080/". reflexivity.
  - reflexivity.
Defined.

Lemma middleware_before_init_witness :
  middleware "shop.example.com" fresh
  = (fresh, [], Throw (Error "the database handler has not been initialised")).
Proof. apply (ProxyMoreFacts.middleware_before_init "shop.example.com" fresh). reflexivity. Defined.

(** On the machine where only [/srv/databases] can be written. *)
Lemma init_then_operation_witness :
  init (fun x => x) (Some "/srv/databases/db.sqlite") confined
  = (MkWorld true (Some "/srv/databases/db.sqlite") (disk confined),
     [Opened "/srv/databases/db.sqlite"; Closed "/srv/databases/db.sqlite"], Ok tt) /\
  run_trace (operation countRows
               (run_state (init (fun x => x) (Some "/srv/databases/db.sqlite") confined)))
  = Opened "/srv/databases/db.sqlite"
      :: run_trace (countRows
                      (MkConnection "/srv/databases/db.sqlite" [])
                      (MkWorld true (Some "/srv/databases/db.sqlite") (disk confined)))
      ++ [Closed "/srv/databases/db.sqlite"].
Proof.
  apply (DatabaseMoreFacts.init_then_operation (fun x => x) "/srv/databases/db.sqlite"
           confined [] countRows).
  - discriminate.
  - reflexivity.
Defined.

(** There, [init] with a path elsewhere throws the error of the driver
    and leaves the manager ready; the next [operation] throws it again. *)
Example init_on_unopenable_file :
  init (fun x => x) (Some "/tmp/db.sqlite") confined
  = (MkWorld true (Some "/tmp/db.sqlite") (disk confined), [], Throw cannotOpen) /\
  operation countRows
    (run_state (init (fun x : string => x) (Some "/tmp/db.sqlite") confined))
  = (MkWorld true (Some "/tmp/db.sqlite") (disk confined), [], Throw cannotOpen).
Proof. split; reflexivity. Qed.

Lemma scanRoutes_checked_witness : Forall checkedRoute siteRoutesKept.
Proof.
  apply (ScanMoreFacts.scanRoutes_checked
           [("/srv/routes", routesListing disk1 generateId "/srv/routes" siteRoutes)]
           (withRoutes "/srv/routes") (withRoutes "/srv/routes")
           [Log info "b.js does not have a set priority and so will be set to a priority of 0"]
           siteRoutesKept).
  vm_compute. reflexivity.
Defined.

Lemma scanRoutes_returns_witness :
  exists toLoad,
    run_result (scanRoutes [("/srv/routes",
                             routesListing disk1 generateId "/srv/routes" siteRoutes)]
                           (withRoutes "/srv/routes"))
    = Ok toLoad.
Proof.
  apply (ScanMoreFacts.scanRoutes_returns
           [("/srv/routes", routesListing disk1 generateId "/srv/routes" siteRoutes)]
           (withRoutes "/srv/routes")).
  unfold allLoad. constructor; [|constructor]. cbn.
  constructor; [intros _; by eexists|].
  constructor; [intros H; discriminate H|].
  constructor; [intros _; by eexists|].
  constructor.
Defined.

(** One specific priority, then the counter from 7. *)
Lemma resolveUses_inline_positional_witness :
  resolveUses disk1 [] guarded new
  = (new, [],
     Ok ([] ++ imap (inlineUse (default [] (specificUsePriorities (route_object guarded)))
                               (startingFallback (route_object guarded)))
                    ["f"; "g"; "h"])).
Proof.
  apply (PriorityFacts.resolveUses_inline_positional disk1 [] guarded ["f"; "g"; "h"] new);
    [reflexivity|unfold JsNumber.safeInteger, JsNumber.maxSafeInteger, startingFallback;
     simpl; lia..].
Defined.

Example guarded_priorities :
  imap (inlineUse (default [] (specificUsePriorities (route_object guarded)))
                  (startingFallback (route_object guarded)))
       ["f"; "g"; "h"]
  = [ Inline (MkUseObject (Some "f") None (Some 50%Z) (Some "use"));
      Inline (MkUseObject (Some "g") None (Some 7%Z) (Some "use"));
      Inline (MkUseObject (Some "h") None (Some 6%Z) (Some "use")) ].
Proof. reflexivity. Qed.

Lemma empty_use_name_is_not_spreadable_witness :
  resolveUses disk1 [] unnamed new
  = (new, [],
     Throw (TypeError "Spread syntax requires ...iterable[Symbol.iterator] to be a function")).
Proof.
  apply (PriorityFacts.empty_use_name_is_not_spreadable
           disk1 [] unnamed ["f"] [UName "/srv/pair"] new); reflexivity.
Defined.

Lemma empty_use_name_reads_route_directories_witness :
  getUses disk1 (UName "") crossed = getUses disk2 (UName "") crossed.
Proof.
  apply (PriorityFacts.empty_use_name_reads_route_directories disk1 disk2 crossed).
  intros d Hd. apply list_elem_of_singleton in Hd as ->. reflexivity.
Defined.

(** The scan does read [/srv/pair], which is registered for routes. *)
Example crossed_scan :
  run_result (getUses disk1 (UName "") crossed)
  = Ok (UsesArray [Cached "/srv/pair/one.js"; Cached "/srv/pair/two.js"]).
Proof. vm_compute. reflexivity. Qed.

Lemma structure_mirrors_router_witness :
  structureName siteStructure
  = (if bool_decide ("" = "") then generateId (draws (withRoutes "/srv/routes")) else "") /\
  structurePath siteStructure = "example.com" +:+ "" /\
  map entryShape (routeStack siteStructure) = omap layerShape siteRouter /\
  length (children siteStructure) = length (List.filter isMount siteRouter) /\
  Forall2 (builtBy "example.com" "") (children siteStructure)
          (subdirectories
             [("/srv/routes", routesListing disk1 generateId "/srv/routes" siteRoutes)]).
Proof.
  apply (StructureFacts.structure_mirrors_router disk1 generateId
           [("/srv/routes", routesListing disk1 generateId "/srv/routes" siteRoutes)]
           "example.com" "" "" false (withRoutes "/srv/routes")
           (run_state siteScan) (run_trace siteScan) siteStructure siteRouter).
  vm_compute. reflexivity.
Defined.

Lemma children_follow_subdirectories_witness :
  map structurePath (children siteStructure)
  = map (fun name => structurePath siteStructure +:+ "/" +:+ name)
        (subdirectoryNames siteRoutes).
Proof.
  apply (StructureFacts.children_follow_subdirectories disk1 generateId
           "/srv/routes" siteRoutes "example.com" "" "" false (withRoutes "/srv/routes")
           (run_state siteScan) (run_trace siteScan) siteStructure siteRouter).
  vm_compute. reflexivity.
Defined.

Lemma setupFromState_order_witness :
  run_result (setupFromState disk1 generateId beforeMarker "example.com" configured)
  = Ok tt /\
  exists vhosts,
    Forall (fun l => exists name router,
              l = LVhost (name +:+ "." +:+ "example.com") router) vhosts /\
    app (run_state (setupFromState disk1 generateId beforeMarker "example.com" configured))
    = app configured ++ vhosts ++ siteRouter
        ++ map LStatic (staticDirectories configured).
Proof.
  apply (SetupFacts.setupFromState_order disk1 generateId beforeMarker "example.com"
           configured (run_state afterVhosts) (run_trace afterVhosts)
           (run_state afterRoutes) (run_trace afterRoutes) siteRouter);
    vm_compute; reflexivity.
Defined.

(** The stack of [this.app] after the setup of the sample manager: the
    virtual host, the base routes, the static directory. *)
Example configured_app :
  app (run_state (setupFromState disk1 generateId beforeMarker "example.com" configured))
  = [ LVhost "shop.example.com" siteRouter;
      LMethod "get" "/x" "get /x"; LMount "/admin" []; LMethod "post" "/y" "post /y";
      LStatic "/srv/public" ].
Proof. vm_compute. reflexivity. Qed.
End MoreExamples.
